(** * The OCR result ingestion pipeline of the tavern menu server

    A shallow embedding of [server/src/routes/ocr.ts] (request handler,
    [parseOCRResults], [parseTextMenu], [parsePrice], [determineTags]) and of
    [DatabaseService.bulkUpsertMenuItems] / [logMenuUpdate] from
    [server/src/services/database.ts], together with the properties the
    specification states about them.

    Conventions of the embedding.
    - A JavaScript value that comes out of [Response.json()] is a [JsVal].
    - A string is a sequence of code units; the embedding covers the Latin-1
      range, one [ascii] per code unit.
    - A JavaScript number is [NaN], an infinity, or [Finite q] with [q] the
      rational it denotes; the sign of zero is not kept.  [parseFloat] rounds
      the decimal value it reads to the nearest binary64 number, ties to
      even, and yields [Infinity] past the largest one ([toBinary64]).
      Number::toString and StringToNumber are parameters ([Conversions]).
    - Code that can throw returns a [Result]; code that reads the clock or
      calls a collaborator is an [Eff]: it takes the number of clock readings
      made so far and returns the events it caused, its result, and the new
      number of readings. *)

From Stdlib Require Import List Bool Arith ZArith QArith Qpower Lia.
From Stdlib Require Import Ascii String DecimalString DecimalNat.
Import ListNotations.

Set Warnings "-register-all".

Local Close Scope Q_scope.
Local Open Scope list_scope.
Local Open Scope string_scope.

(** ** Exceptions and results *)

(** What can be thrown: a [TypeError] of the engine, an error made by
    [createError], an [Error] raised by a collaborator, or a value that is
    not an [Error] (the [error] object of a store reply, for instance). *)
Inductive Exn : Type :=
| TypeError (message : string)
| AppError (message : string) (statusCode : nat)
| ExternalError (message : string)
| NonError (what : string).

(** [error instanceof Error ? error.message : 'Unknown error']. *)
Definition errorMessage (e : Exn) : string :=
  match e with
  | TypeError m => m
  | AppError m _ => m
  | ExternalError m => m
  | NonError _ => "Unknown error"
  end.

Inductive Result (A : Type) : Type :=
| Ok (a : A)
| Throw (e : Exn).
Arguments Ok {A} a.
Arguments Throw {A} e.

Definition bind {A B} (r : Result A) (k : A -> Result B) : Result B :=
  match r with
  | Ok a => k a
  | Throw e => Throw e
  end.

Declare Scope result_scope.
Delimit Scope result_scope with result.
Notation "x <- r ;; k" := (bind r (fun x => k))
  (at level 61, r at next level, right associativity) : result_scope.

Definition is_ok {A} (r : Result A) : bool :=
  match r with Ok _ => true | Throw _ => false end.

(** ** Numbers and values *)

Inductive number : Type :=
| NaN
| Infinity (negative : bool)
| Finite (q : Q).

Inductive JsVal : Type :=
| JUndefined
| JNull
| JBool (b : bool)
| JNum (n : number)
| JStr (s : string)
| JArr (elems : list JsVal)
| JObj (props : list (string * JsVal)).

(** Number::toString and StringToNumber of ECMAScript. *)
Record Conversions : Type := {
  numToString : number -> string;
  strToNumber : string -> number
}.

Definition num_of_nat (n : nat) : number := Finite (inject_Z (Z.of_nat n)).

(** [isNaN] on a number. *)
Definition isNaN (n : number) : bool :=
  match n with NaN => true | _ => false end.

(** [isFinite] on a number. *)
Definition isFinite (n : number) : bool :=
  match n with Finite _ => true | _ => false end.

(** ToBoolean. *)
Definition num_truthy (n : number) : bool :=
  match n with
  | NaN => false
  | Infinity _ => true
  | Finite q => negb (Qeq_bool q 0)
  end.

Definition truthy (v : JsVal) : bool :=
  match v with
  | JUndefined | JNull => false
  | JBool b => b
  | JNum n => num_truthy n
  | JStr s => negb (s =? "")
  | JArr _ | JObj _ => true
  end.

(** [a || b], both operands already evaluated. *)
Definition or_else (a b : JsVal) : JsVal := if truthy a then a else b.

(** Own property of an object; the first entry of a repeated key is the
    property. *)
Fixpoint own (props : list (string * JsVal)) (k : string) : option JsVal :=
  match props with
  | [] => None
  | (k', v) :: rest => if k' =? k then Some v else own rest k
  end.

(** [v.k] for a data key [k] (one that no built-in prototype defines, or
    ["length"]): reading a property of [undefined] or [null] throws, a missing
    property reads as [undefined]. *)
Definition get (v : JsVal) (k : string) : Result JsVal :=
  match v with
  | JUndefined =>
      Throw (TypeError ("Cannot read properties of undefined (reading '" ++ k ++ "')"))
  | JNull =>
      Throw (TypeError ("Cannot read properties of null (reading '" ++ k ++ "')"))
  | JObj props => Ok (match own props k with Some x => x | None => JUndefined end)
  | JArr l => Ok (if k =? "length" then JNum (num_of_nat (List.length l)) else JUndefined)
  | JStr s => Ok (if k =? "length" then JNum (num_of_nat (String.length s)) else JUndefined)
  | JBool _ | JNum _ => Ok JUndefined
  end.

(** ** Strings *)

Definition code (c : ascii) : N := N_of_ascii c.

Definition isDigit (c : ascii) : bool := ((48 <=? code c) && (code c <=? 57))%N.

(** WhiteSpace and LineTerminator code units, as [String.prototype.trim]
    removes them. *)
Definition isWhiteSpace (c : ascii) : bool :=
  let n := code c in
  ((n =? 9) || (n =? 10) || (n =? 11) || (n =? 12) || (n =? 13) || (n =? 32) || (n =? 160))%N.

(** LineTerminator: what [.] of a regular expression does not match. *)
Definition isLineTerminator (c : ascii) : bool :=
  let n := code c in ((n =? 10) || (n =? 13))%N.

Fixpoint trimStart (s : string) : string :=
  match s with
  | String c r => if isWhiteSpace c then trimStart r else s
  | EmptyString => EmptyString
  end.

Fixpoint trimEnd (s : string) : string :=
  match s with
  | EmptyString => EmptyString
  | String c r =>
      match trimEnd r with
      | EmptyString => if isWhiteSpace c then EmptyString else String c EmptyString
      | r' => String c r'
      end
  end.

Definition trim (s : string) : string := trimEnd (trimStart s).

(** [s.split('\n')]. *)
Fixpoint split_lines (s : string) : list string :=
  match s with
  | EmptyString => [EmptyString]
  | String c r =>
      if (code c =? 10)%N then EmptyString :: split_lines r
      else match split_lines r with
           | l :: ls => String c l :: ls
           | [] => [String c EmptyString]
           end
  end.

Definition lowerChar (c : ascii) : ascii :=
  let n := code c in
  if ((65 <=? n) && (n <=? 90) || (192 <=? n) && (n <=? 222) && negb (n =? 215))%N
  then ascii_of_N (n + 32) else c.

Fixpoint toLowerCase (s : string) : string :=
  match s with
  | EmptyString => EmptyString
  | String c r => String (lowerChar c) (toLowerCase r)
  end.

Fixpoint startsWith (p s : string) : bool :=
  match p, s with
  | EmptyString, _ => true
  | String a p', String b s' => Ascii.eqb a b && startsWith p' s'
  | String _ _, EmptyString => false
  end.

(** [s.includes(p)]. *)
Fixpoint includes (s p : string) : bool :=
  startsWith p s ||
  match s with
  | EmptyString => false
  | String _ r => includes r p
  end.

(** The longest prefix of digits, and what follows it. *)
Fixpoint takeDigits (s : string) : string * string :=
  match s with
  | String c r =>
      if isDigit c then let '(d, rest) := takeDigits r in (String c d, rest)
      else (EmptyString, s)
  | EmptyString => (EmptyString, EmptyString)
  end.

Fixpoint digitsValue (acc : Z) (s : string) : Z :=
  match s with
  | EmptyString => acc
  | String c r => digitsValue (10 * acc + (Z.of_N (code c) - 48)) r
  end.

Definition string_of_nat (n : nat) : string := NilEmpty.string_of_uint (Nat.to_uint n).
Definition string_of_Z (z : Z) : string := NilEmpty.string_of_int (Z.to_int z).

(** ** The Number value of a rational

    The binary64 number nearest to the positive rational [n / d], ties to
    the even significand; [Infinity] when that number would be [2 ^ 1024] or
    more.  [ex] is the exponent of the leading bit of [n / d] and [2 ^ e]
    the distance between neighbouring binary64 numbers there (53 significant
    bits, and never less than [2 ^ -1074], the subnormal spacing). *)
Definition roundPositive (n : Z) (d : positive) : number :=
  let e0 := (Z.log2 n - Z.log2 (Zpos d))%Z in
  let below :=
    if (0 <=? e0)%Z then (n <? Zpos d * 2 ^ e0)%Z else (n * 2 ^ (- e0) <? Zpos d)%Z in
  let ex := (if below then e0 - 1 else e0)%Z in
  let e := Z.max (ex - 52) (-1074) in
  let '(num, den) :=
    if (0 <=? e)%Z then (n, (Zpos d * 2 ^ e)%Z) else ((n * 2 ^ (- e))%Z, Zpos d) in
  let k := (num / den)%Z in
  let r := (num mod den)%Z in
  let m :=
    match (2 * r ?= den)%Z with
    | Lt => k
    | Gt => (k + 1)%Z
    | Eq => if Z.even k then k else (k + 1)%Z
    end in
  if ((0 <=? e) && (2 ^ 1024 <=? m * 2 ^ e))%Z then Infinity false
  else Finite (Qred (if (0 <=? e)%Z then inject_Z (m * 2 ^ e)
                     else Qmake m (Z.to_pos (2 ^ (- e))))).

Definition toBinary64 (q : Q) : number :=
  match Qnum q with
  | Z0 => Finite 0
  | Zpos _ => roundPositive (Qnum q) (Qden q)
  | Zneg p =>
      match roundPositive (Zpos p) (Qden q) with
      | Finite r => Finite (- r)
      | Infinity _ => Infinity true
      | NaN => NaN
      end
  end.

(** ** parseFloat

    The longest prefix that is a StrDecimalLiteral, after leading white
    space; [NaN] when there is none. *)
Definition parseExponent (s : string) : Z :=
  match s with
  | String c r =>
      if (Ascii.eqb c "e" || Ascii.eqb c "E")%char then
        let '(neg, r') :=
          match r with
          | String "-" r' => (true, r')
          | String "+" r' => (false, r')
          | _ => (false, r)
          end in
        let '(d, _) := takeDigits r' in
        if d =? "" then 0%Z
        else if neg then (- digitsValue 0 d)%Z else digitsValue 0 d
      else 0%Z
  | EmptyString => 0%Z
  end.

Definition parseFloat (s : string) : number :=
  let s0 := trimStart s in
  let '(neg, s1) :=
    match s0 with
    | String "-" r => (true, r)
    | String "+" r => (false, r)
    | _ => (false, s0)
    end in
  if startsWith "Infinity" s1 then Infinity neg
  else
    let '(ip, r1) := takeDigits s1 in
    let '(fp, r2) :=
      match r1 with
      | String "." r => takeDigits r
      | _ => (EmptyString, r1)
      end in
    if (ip =? "") && (fp =? "") then NaN
    else
      let k := Z.of_nat (String.length fp) in
      let m := (digitsValue 0 ip * 10 ^ k + digitsValue 0 fp)%Z in
      let mant := Qmake (if neg then (- m)%Z else m) (Z.to_pos (10 ^ k)) in
      toBinary64 (mant * Qpower (10 # 1) (parseExponent r2)).

(** ** Audit records *)

Module MenuUpdate.

(** [Omit<MenuUpdate, 'id'>]: what [logMenuUpdate] inserts, with
    [changes = { items_count, items }]. *)
Record t : Type := mk {
  user_id : string;
  menu_type : string;
  operation : string;
  changes_items_count : nat;
  changes_items : list string;
  created_at : Z
}.

End MenuUpdate.

(** ** Draft items *)

(** The object literal both extractors build.  [created_at] and
    [updated_at] hold the clock reading that [toISOString] formats. *)
Record MenuItemDraft : Type := mkDraft {
  id : string;
  name : JsVal;
  description : JsVal;
  price : option number;
  category : string;
  subcategory : JsVal;
  available : bool;
  tags : list string;
  created_at : Z;
  updated_at : Z
}.

(** ** Effects: events, exceptions, clock *)

(** What the store answers to a request: the [{ data, error }] pair the
    promise resolves to, or a rejection. *)
Inductive Reply (A : Type) : Type :=
| Resolved (data : A) (error : option Exn)
| Rejected (e : Exn).
Arguments Resolved {A} data error.
Arguments Rejected {A} e.

(** The table [menu_items] and the table [menu_updates], as seen from the
    server: [.upsert(items, { onConflict: 'id' }).select()] and [.insert]. *)
Record Store : Type := {
  upsert_menu_items : list MenuItemDraft -> Reply (option (list MenuItemDraft));
  insert_menu_update : MenuUpdate.t -> Reply unit
}.

Record ItemSummary : Type := {
  sum_id : string; sum_name : JsVal; sum_price : option number; sum_category : string
}.

(** The two bodies the handler sends with [res.json]. *)
Inductive ResponseBody : Type :=
| SoftFailure (success : bool) (message : string) (extractedText : JsVal)
    (suggestions : list string)
| Processed (success : bool) (menuType : string) (itemsProcessed itemsSaved : nat)
    (processingTimeMs : Z) (items : list ItemSummary) (message : string).

Inductive Event : Type :=
| EvLog (level message : string)
| EvPreprocess (originalname : string)
| EvRecognize
| EvAlert (message severity : string)
| EvUpsert (items : list MenuItemDraft)
| EvAuditInsert (update : MenuUpdate.t)
| EvDeployHook (url : string)
| EvRespond (body : ResponseBody).

(** A computation: from the clock count to the events it causes, its
    result, and the new clock count. *)
Definition Eff (A : Type) : Type := nat -> list Event * Result A * nat.

Definition ret {A} (a : A) : Eff A := fun t => ([], Ok a, t).

Definition throwE {A} (e : Exn) : Eff A := fun t => ([], Throw e, t).

Definition lift {A} (r : Result A) : Eff A := fun t => ([], r, t).

Definition emit (ev : Event) : Eff unit := fun t => ([ev], Ok tt, t).

Definition bindE {A B} (m : Eff A) (k : A -> Eff B) : Eff B :=
  fun t =>
    let '(tr1, r, t1) := m t in
    match r with
    | Ok a => let '(tr2, r2, t2) := k a t1 in ((tr1 ++ tr2)%list, r2, t2)
    | Throw e => (tr1, Throw e, t1)
    end.

(** [try { m } catch (error) { handler error }]. *)
Definition tryCatch {A} (m : Eff A) (handler : Exn -> Eff A) : Eff A :=
  fun t =>
    let '(tr1, r, t1) := m t in
    match r with
    | Ok a => (tr1, Ok a, t1)
    | Throw e => let '(tr2, r2, t2) := handler e t1 in ((tr1 ++ tr2)%list, r2, t2)
    end.

Definition traceOf {A} (out : list Event * Result A * nat) : list Event := fst (fst out).
Definition resultOf {A} (out : list Event * Result A * nat) : Result A := snd (fst out).

Notation "x <-- m ;; k" := (bindE m (fun x => k))
  (at level 61, m at next level, right associativity).
Notation "m ;;; k" := (bindE m (fun _ => k))
  (at level 61, right associativity).

(** [await] of a store request followed by [if (error) throw error]. *)
Definition awaitReply {A} (r : Reply A) : Eff A :=
  match r with
  | Rejected e => throwE e
  | Resolved _ (Some err) => throwE err
  | Resolved data None => ret data
  end.

(** ** The request, the mapping of menu types, and the collaborators *)

Definition MENU_TYPE_MAPPING : list (string * string) :=
  [("wine_list", "wine_list");
   ("featured_menu", "featured_menu");
   ("signature_cocktails", "signature_cocktails");
   ("tavern_menu", "tavern_menu")].

(** The property names of [Object.prototype], the prototype of the mapping
    literal.  Each holds a function, or the prototype object itself. *)
Definition objectPrototypeKeys : list string :=
  ["constructor"; "__defineGetter__"; "__defineSetter__"; "hasOwnProperty";
   "__lookupGetter__"; "__lookupSetter__"; "isPrototypeOf";
   "propertyIsEnumerable"; "toString"; "valueOf"; "__proto__"; "toLocaleString"].

Inductive Lookup : Type :=
| OwnValue (v : string)
| Inherited (key : string)
| Missing.

Fixpoint assoc (l : list (string * string)) (k : string) : option string :=
  match l with
  | [] => None
  | (k', v) :: rest => if k' =? k then Some v else assoc rest k
  end.

(** [MENU_TYPE_MAPPING[key]]: own property first, then the prototype. *)
Definition lookupMenuType (key : string) : Lookup :=
  match assoc MENU_TYPE_MAPPING key with
  | Some v => OwnValue v
  | None => if existsb (String.eqb key) objectPrototypeKeys then Inherited key else Missing
  end.

Definition lookupTruthy (l : Lookup) : bool :=
  match l with
  | OwnValue v => negb (v =? "")
  | Inherited _ => true
  | Missing => false
  end.

Record UploadedFile : Type := {
  originalname : string;
  size : N
}.

Record User : Type := {
  userId : string;
  userName : string
}.

(** The request as the handler reads it: [req.file], [req.body.menuType]
    and [req.user].  The menu type is a text field of the form, or missing:
    a request in which multer makes [menuType] an array or an object (a field
    name with brackets, a repeated field) is outside the embedding. *)
Record Request : Type := {
  file : option UploadedFile;
  body_menuType : option string;
  user : User
}.

(** The answer of the recognition service to [fetch]. *)
Record OcrResponse : Type := {
  resp_ok : bool;
  resp_status : nat;
  resp_text : Result string;
  resp_json : Result JsVal
}.

(** The collaborators of one request: the image pipeline, the recognition
    service, the store, and the deployment hook. *)
Record World : Type := {
  sharp : UploadedFile -> Result string;
  fetchOCR : string -> Result OcrResponse;
  store : Store;
  DEPLOY_WEBHOOK_URL : option string;
  fetchDeploy : string -> Result unit
}.

Definition suggestions : list string :=
  ["Ensure the image is clear and well-lit";
   "Make sure text is not obscured or rotated";
   "Try a higher resolution image"].

(** ** Coercions: ToString, ToPrimitive, ToNumber *)

Section Pipeline.

Variable conv : Conversions.

(** The clock: [clock k] is what the [k]-th reading of the system time
    returns, in milliseconds.  Code that reads it takes the number of
    readings made so far and returns the new count. *)
Variable clock : nat -> Z.

Local Open Scope result_scope.

(** ToString of a value.  An array joins the strings of its elements with
    commas, [undefined] and [null] elements giving the empty string.  An
    object whose prototype is [Object.prototype] and whose own properties are
    data: with an own [toString] neither own method is callable and
    [Object.prototype.valueOf] returns the object, so no primitive is found;
    otherwise [Object.prototype.toString] answers. *)
Fixpoint toStringV (v : JsVal) : Result string :=
  match v with
  | JUndefined => Ok "undefined"
  | JNull => Ok "null"
  | JBool b => Ok (if b then "true" else "false")
  | JNum n => Ok (numToString conv n)
  | JStr s => Ok s
  | JArr l =>
      (fix joinElems (l : list JsVal) : Result string :=
         match l with
         | [] => Ok ""
         | x :: rest =>
             s <- match x with
                  | JUndefined | JNull => Ok ""
                  | _ => toStringV x
                  end ;;
             match rest with
             | [] => Ok s
             | _ :: _ => r <- joinElems rest ;; Ok (s ++ "," ++ r)
             end
         end) l
  | JObj props =>
      match own props "toString" with
      | Some _ => Throw (TypeError "Cannot convert object to primitive value")
      | None => Ok "[object Object]"
      end
  end.

(** ToPrimitive: the same primitive is found for every hint on these
    values. *)
Definition toPrimitive (v : JsVal) : Result JsVal :=
  match v with
  | JArr _ | JObj _ => s <- toStringV v ;; Ok (JStr s)
  | _ => Ok v
  end.

(** ToNumber of a primitive. *)
Definition toNumber (p : JsVal) : number :=
  match p with
  | JUndefined => NaN
  | JNull => Finite 0
  | JBool b => if b then Finite 1 else Finite 0
  | JNum n => n
  | JStr s => strToNumber conv s
  | JArr _ | JObj _ => NaN
  end.

(** [x > 2]. *)
Definition greaterThan2 (x : JsVal) : Result bool :=
  p <- toPrimitive x ;;
  Ok (match toNumber p with
      | NaN => false
      | Infinity negative => negb negative
      | Finite q => negb (Qle_bool q 2)
      end).

(** ** parsePrice *)

Definition isPriceChar (c : ascii) : bool := isDigit c || Ascii.eqb c ".".

(** [s.replace(/[^0-9.]/g, '')]. *)
Fixpoint cleanPrice (s : string) : string :=
  match s with
  | EmptyString => EmptyString
  | String c r => if isPriceChar c then String c (cleanPrice r) else cleanPrice r
  end.

Definition parsePrice (priceStr : JsVal) : Result (option number) :=
  match priceStr with
  | JNum n => Ok (Some n)
  | _ =>
      if negb (truthy priceStr) then Ok None
      else
        str <- toStringV priceStr ;;
        let cleaned := cleanPrice str in
        let parsed := parseFloat cleaned in
        Ok (if isNaN parsed then None else Some parsed)
  end.

(** ** determineTags *)

Definition tagIf (b : bool) (tag : string) : list string :=
  if b then [tag] else [].

Definition tagsOfText (itemText menuType : string) : list string :=
  ((if menuType =? "signature_cocktails"
   then "signature"
        :: tagIf (includes itemText "premium" || includes itemText "top shelf") "premium"
   else [])
  ++ (if menuType =? "wine_list"
      then tagIf (includes itemText "reserve" || includes itemText "vintage") "reserve"
           ++ tagIf (includes itemText "red") "red"
           ++ tagIf (includes itemText "white") "white"
           ++ tagIf (includes itemText "sparkling" || includes itemText "champagne") "sparkling"
      else [])
  ++ tagIf (includes itemText "featured" || includes itemText "special") "featured"
  ++ tagIf (includes itemText "new" || includes itemText "limited") "limited")%list.

Definition determineTags (item : JsVal) (menuType : string) : Result (list string) :=
  name <- get item "name" ;;
  description <- get item "description" ;;
  s1 <- toStringV name ;;
  s2 <- toStringV (or_else description (JStr "")) ;;
  let itemText := toLowerCase (s1 ++ " " ++ s2) in
  Ok (tagsOfText itemText menuType).


(** ** parseTextMenu *)

(** [/\$([0-9]+(?:\.[0-9]{2})?)/] tried at the start of [s]: capture
    group 1. *)
Definition priceAt (s : string) : option string :=
  match s with
  | String "$" r =>
      let '(d, rest) := takeDigits r in
      if d =? "" then None
      else match rest with
           | String "." (String a (String b _)) =>
               if isDigit a && isDigit b
               then Some (d ++ String "." (String a (String b EmptyString)))
               else Some d
           | _ => Some d
           end
  | _ => None
  end.

(** [s.match(/\$([0-9]+(?:\.[0-9]{2})?)/)]: group 1 of the leftmost match. *)
Fixpoint matchPrice (s : string) : option string :=
  match priceAt s with
  | Some cap => Some cap
  | None =>
      match s with
      | String _ r => matchPrice r
      | EmptyString => None
      end
  end.

Fixpoint noLineTerminator (s : string) : bool :=
  match s with
  | EmptyString => true
  | String c r => negb (isLineTerminator c) && noLineTerminator r
  end.

(** [/\$[0-9]+(?:\.[0-9]{2})?.*$/] tried at the start of [s]: a dollar
    sign, a digit, and no line terminator up to the end of the input. *)
Definition priceTailAt (s : string) : bool :=
  match s with
  | String "$" (String d r) => isDigit d && noLineTerminator r
  | _ => false
  end.

(** [s.replace(/\$[0-9]+(?:\.[0-9]{2})?.*$/, '')]. *)
Fixpoint stripPriceTail (s : string) : string :=
  if priceTailAt s then EmptyString
  else match s with
       | String c r => String c (stripPriceTail r)
       | EmptyString => EmptyString
       end.

Definition makeId (menuType kind : string) (now : Z) (index : nat) : string :=
  menuType ++ "_" ++ kind ++ "_" ++ string_of_Z now ++ "_" ++ string_of_nat index.

(** The loop state of [parseTextMenu]: the [items] array, [currentItem],
    and the clock count. *)
Definition TextState : Type := (list MenuItemDraft * option MenuItemDraft * nat)%type.

(** [items.push(currentItem)] under [currentItem && currentItem.name]. *)
Definition flush (items : list MenuItemDraft) (currentItem : option MenuItemDraft)
  : list MenuItemDraft :=
  match currentItem with
  | Some cur => if truthy (name cur) then (items ++ [cur])%list else items
  | None => items
  end.

Definition startItem (menuType trimmedLine cap : string) (index t : nat) : MenuItemDraft :=
  let nameWithoutPrice := trim (stripPriceTail trimmedLine) in
  {| id := makeId menuType "manual" (clock t) index;
     name := JStr nameWithoutPrice;
     description := JNull;
     price := Some (parseFloat cap);
     category := menuType;
     subcategory := JUndefined;
     available := true;
     tags := [];
     created_at := clock (t + 1);
     updated_at := clock (t + 2) |}.

Definition appendDescription (cur : MenuItemDraft) (trimmedLine : string) : MenuItemDraft :=
  let old := match description cur with
             | JStr d => if d =? "" then "" else d ++ " "
             | _ => ""
             end in
  {| id := id cur; name := name cur;
     description := JStr (old ++ trimmedLine);
     price := price cur; category := category cur; subcategory := subcategory cur;
     available := available cur; tags := tags cur;
     created_at := created_at cur; updated_at := updated_at cur |}.

(** The body of [lines.forEach((line, index) => ...)]. *)
Definition textStep (menuType : string) (st : TextState) (index : nat) (line : string)
  : TextState :=
  let '(items, currentItem, t) := st in
  let trimmedLine := trim line in
  match matchPrice trimmedLine with
  | Some cap =>
      if (5 <? String.length trimmedLine)%nat
      then (flush items currentItem,
            Some (startItem menuType trimmedLine cap index t), t + 3)%nat
      else st
  | None =>
      match currentItem with
      | Some cur =>
          if (10 <? String.length trimmedLine)%nat
          then (items, Some (appendDescription cur trimmedLine), t)
          else st
      | None => st
      end
  end.

Fixpoint textLoop (menuType : string) (lines : list string) (index : nat) (st : TextState)
  : TextState :=
  match lines with
  | [] => st
  | line :: rest => textLoop menuType rest (S index) (textStep menuType st index line)
  end.

Definition nonBlank (line : string) : bool := (0 <? String.length (trim line))%nat.

Definition parseTextMenu (text menuType : string) (t : nat) : list MenuItemDraft * nat :=
  let lines := filter nonBlank (split_lines text) in
  let '(items, currentItem, t') := textLoop menuType lines 0 ([], None, t) in
  (flush items currentItem, t').

(** ** parseOCRResults *)

(** The body of [structuredData.forEach((item, index) => ...)] up to
    [items.push(menuItem)].  The properties of the literal are evaluated in
    order: the clock is read for [id] before [item] is touched, and twice
    more once [determineTags] has returned. *)
Definition structuredItem (menuType : string) (item : JsVal) (index t : nat)
  : Result MenuItemDraft * nat :=
  let fields :=
    nm <- get item "name" ;;
    title <- get item "title" ;;
    descr <- get item "description" ;;
    desc <- get item "desc" ;;
    priceStr <- get item "price" ;;
    pr <- parsePrice priceStr ;;
    cat <- get item "category" ;;
    tg <- determineTags item menuType ;;
    Ok (or_else (or_else nm title) (JStr ("Item " ++ string_of_nat (index + 1))),
        or_else (or_else descr desc) JNull, pr, or_else cat JNull, tg) in
  match fields with
  | Ok (nm, descr, pr, cat, tg) =>
      (Ok {| id := makeId menuType "ocr" (clock t) index;
             name := nm;
             description := descr;
             price := pr;
             category := menuType;
             subcategory := cat;
             available := true;
             tags := tg;
             created_at := clock (t + 1);
             updated_at := clock (t + 2) |}, t + 3)%nat
  | Throw e => (Throw e, t + 1)%nat
  end.

(** What the [try] block leaves behind: the [items] array, the exception
    it caught if any, and the clock count. *)
Definition Extraction : Type := (list MenuItemDraft * option Exn * nat)%type.

Fixpoint forEachStructured (menuType : string) (l : list JsVal) (index : nat)
    (items : list MenuItemDraft) (t : nat) : Extraction :=
  match l with
  | [] => (items, None, t)
  | item :: rest =>
      match structuredItem menuType item index t with
      | (Ok menuItem, t') =>
          forEachStructured menuType rest (S index) (items ++ [menuItem])%list t'
      | (Throw e, t') => (items, Some e, t')
      end
  end.

(** The [try] block of [parseOCRResults].  [text.split] is a function only
    when [text] is a string. *)
Definition extractDrafts (ocrData : JsVal) (menuType : string) (t : nat) : Extraction :=
  match (text <- get ocrData "text" ;;
         extracted_text <- get ocrData "extracted_text" ;;
         structured_data <- get ocrData "structured_data" ;;
         its <- get ocrData "items" ;;
         Ok (or_else (or_else text extracted_text) (JStr ""),
             or_else (or_else structured_data its) (JArr []))) with
  | Throw e => ([], Some e, t)
  | Ok (extractedText, structuredData) =>
      match structuredData with
      | JArr (x :: l) => forEachStructured menuType (x :: l) 0 [] t
      | _ =>
          match extractedText with
          | JStr text =>
              let '(parsedItems, t') := parseTextMenu text menuType t in
              (parsedItems, None, t')
          | _ => ([], Some (TypeError "text.split is not a function"), t)
          end
      end
  end.

(** The callback of the final [filter]: [item.name && item.name.length > 2],
    taken as a boolean. *)
Definition keepDraft (item : MenuItemDraft) : Result bool :=
  if truthy (name item)
  then len <- get (name item) "length" ;; greaterThan2 len
  else Ok false.

Fixpoint filterDrafts (items : list MenuItemDraft) : Result (list MenuItemDraft) :=
  match items with
  | [] => Ok []
  | item :: rest =>
      keep <- keepDraft item ;;
      rest' <- filterDrafts rest ;;
      Ok (if keep then item :: rest' else rest')
  end.

(** [parseOCRResults]: the exception caught by the [try] block is logged and
    dropped; the filter runs outside the [try]. *)
Definition parseOCRResults (ocrData : JsVal) (menuType : string)
  : Eff (list MenuItemDraft) :=
  fun t =>
    let '(items, caught, t') := extractDrafts ocrData menuType t in
    (match caught with
     | Some _ => [EvLog "error" "Error parsing OCR results:"]
     | None => []
     end,
     filterDrafts items, t').

(** ** DatabaseService *)

(** [Date.now()], and the time value of [new Date()]. *)
Definition now : Eff Z := fun t => ([], Ok (clock t), S t).

Definition logMenuUpdate (db : Store) (user_id menu_type operation : string)
    (items_count : nat) (items : list string) : Eff unit :=
  tryCatch
    (created <-- now ;;
     let update := MenuUpdate.mk user_id menu_type operation items_count items created in
     emit (EvAuditInsert update) ;;;
     awaitReply (insert_menu_update db update))
    (fun error => emit (EvLog "error" "Database error logging menu update:")).

Definition bulkUpsertMenuItems (db : Store) (items : list MenuItemDraft)
    (userId menuType : string) : Eff (option (list MenuItemDraft)) :=
  tryCatch
    (emit (EvUpsert items) ;;;
     data <-- awaitReply (upsert_menu_items db items) ;;
     logMenuUpdate db userId menuType "bulk_update" (List.length items) (map id items) ;;;
     ret data)
    (fun error =>
       emit (EvLog "error" "Database error bulk upserting menu items:") ;;;
       throwE error).

(** ** The POST /process handler *)

(** [alertWebhook] as its caller sees it: the call, with its message and
    severity, and a normal return, since the function catches whatever its
    own request throws.  [EvAlert] stands for the call: the request itself
    (made when [ALERT_WEBHOOK_URL] is set, with one more clock reading for
    its time stamp) and the log line of a failed request are left out. *)
Definition alertWebhook (message severity : string) : Eff unit :=
  emit (EvAlert message severity).

Definition summary (item : MenuItemDraft) : ItemSummary :=
  {| sum_id := id item; sum_name := name item;
     sum_price := price item; sum_category := category item |}.

(** [savedItems.length] and [savedItems.map]: [savedItems] is what the store
    reported, an array or [null]. *)
Definition savedArray (savedItems : option (list MenuItemDraft))
  : Result (list MenuItemDraft) :=
  match savedItems with
  | Some l => Ok l
  | None => Throw (TypeError "Cannot read properties of null (reading 'length')")
  end.

(** The [try] block of the handler. *)
Definition processBody (w : World) (f : UploadedFile) (menuType : string) (u : User)
    (startTime : Z) : Eff unit :=
  emit (EvPreprocess (originalname f)) ;;;
  imageBase64 <-- lift (sharp w f) ;;
  emit EvRecognize ;;;
  ocrResponse <-- lift (fetchOCR w imageBase64) ;;
  if negb (resp_ok ocrResponse) then
    errorText <-- lift (resp_text ocrResponse) ;;
    emit (EvLog "error" "FluxImagen OCR failed") ;;;
    alertWebhook ("OCR processing failed for " ++ menuType ++ " by " ++ userName u
                  ++ ". Status: " ++ string_of_nat (resp_status ocrResponse)) "critical" ;;;
    throwE (AppError "OCR processing failed" 500)
  else
    ocrData <-- lift (resp_json ocrResponse) ;;
    parsedItems <-- parseOCRResults ocrData menuType ;;
    if (List.length parsedItems =? 0)%nat then
      emit (EvLog "warn" "No menu items extracted from OCR") ;;;
      text <-- lift (get ocrData "text") ;;
      emit (EvRespond (SoftFailure false
                         "No menu items could be extracted from the image"
                         (or_else text (JStr "")) suggestions))
    else
      savedItems <-- bulkUpsertMenuItems (store w) parsedItems (userId u) menuType ;;
      endTime <-- now ;;
      let processingTime := (endTime - startTime)%Z in
      saved <-- lift (savedArray savedItems) ;;
      emit (EvLog "info" "OCR processing completed successfully") ;;;
      match DEPLOY_WEBHOOK_URL w with
      | Some url =>
          if url =? "" then ret tt
          else tryCatch
                 (emit (EvDeployHook url) ;;; lift (fetchDeploy w url))
                 (fun deployError =>
                    emit (EvLog "warn" "Deploy webhook failed (non-critical):"))
      | None => ret tt
      end ;;;
      emit (EvRespond (Processed true menuType (List.length parsedItems)
                         (List.length saved) processingTime (map summary saved)
                         ("Successfully processed " ++ string_of_nat (List.length saved)
                          ++ " menu items"))).

(** [router.post('/process', upload.single('image'), asyncHandler(...))]:
    the function given to [asyncHandler].  A [Throw] is what reaches the
    error middleware. *)
Definition processHandler (w : World) (req : Request) : Eff unit :=
  startTime <-- now ;;
  match file req with
  | None => throwE (AppError "No image file provided" 400)
  | Some f =>
      match body_menuType req with
      | None => throwE (AppError "Invalid or missing menu type" 400)
      | Some menuType =>
          if (menuType =? "") || negb (lookupTruthy (lookupMenuType menuType))
          then throwE (AppError "Invalid or missing menu type" 400)
          else
            let u := user req in
            emit (EvLog "info" "OCR processing started") ;;;
            tryCatch
              (processBody w f menuType u startTime)
              (fun error =>
                 endTime <-- now ;;
                 emit (EvLog "error" "OCR processing error") ;;;
                 alertWebhook ("OCR processing error for " ++ menuType ++ " by "
                               ++ userName u ++ ": " ++ errorMessage error) "critical" ;;;
                 throwE error)
      end
  end.

End Pipeline.

(** ** Around the handler: the error middleware, the authentication
    middleware, and two steps of the administration routes *)

(** What [errorHandler] sends: [res.status(statusCode).json(response)], the
    body holding [error] and, outside production, the stack and details. *)
Record ErrorReply : Type := {
  reply_status : nat;
  reply_error : string;
  reply_details : bool
}.

(** [err.statusCode]: only an error made by [createError] carries one. *)
Definition statusCodeOf (err : Exn) : option nat :=
  match err with
  | AppError _ statusCode => Some statusCode
  | _ => None
  end.

(** [err.message]; for a value that is not an [Error], [what] stands for its
    [message] property, empty when it has none. *)
Definition messageOf (err : Exn) : string :=
  match err with
  | TypeError m => m
  | AppError m _ => m
  | ExternalError m => m
  | NonError what => what
  end.

(** A row of the table [users] as the middleware selects it. *)
Record AuthUser : Type := {
  au_id : string;
  au_email : string;
  role : string;
  au_name : string;
  active : bool
}.

(** What [jwt.verify] does with a token: it returns the payload, of which
    the middleware reads [sub], or throws a [TokenExpiredError], another
    [JsonWebTokenError], or something else. *)
Inductive JwtOutcome : Type :=
| JwtPayload (sub : JsVal)
| TokenExpiredError
| JsonWebTokenError
| JwtFailure (e : Exn).

(** The collaborators of the authentication middleware: the token library
    and the query [.from('users').select(...).eq('id', sub).single()]. *)
Record AuthWorld : Type := {
  verify : string -> JwtOutcome;
  findUser : JsVal -> Reply (option AuthUser)
}.

(** What the middleware does with the request: it answers with a status and
    an error, or it sets [req.user] and calls [next()]. *)
Inductive AuthResult : Type :=
| AuthDenied (status : nat) (error : string)
| AuthNext (user : AuthUser).

(** What [optionalAuth] does: what [authMiddleware([])] does, or [next()]
    with no user. *)
Inductive OptionalAuthResult : Type :=
| Through (r : AuthResult)
| Anonymous.

(** What a request to the mounted route ends with: the response of the
    handler itself, the response of the error middleware, or the refusal of
    the authentication middleware. *)
Inductive RouteReply : Type :=
| HandlerResponded
| ErrorReplied (r : ErrorReply)
| AuthRefused (status : nat) (error : string).

(** [s.substring(n)]. *)
Fixpoint dropChars (n : nat) (s : string) : string :=
  match n, s with
  | O, _ => s
  | S n', String _ r => dropChars n' r
  | S _, EmptyString => EmptyString
  end.

(** [delete obj[k]] on the own properties of an object. *)
Fixpoint deleteProp (k : string) (props : list (string * JsVal)) : list (string * JsVal) :=
  match props with
  | [] => []
  | (k', v) :: rest =>
      if k' =? k then deleteProp k rest else (k', v) :: deleteProp k rest
  end.

(** [obj[k] = v]: the property keeps its place when it exists and is added
    last otherwise. *)
Fixpoint setProp (k : string) (v : JsVal) (props : list (string * JsVal))
  : list (string * JsVal) :=
  match props with
  | [] => [(k, v)]
  | (k', v') :: rest =>
      if k' =? k then (k, v) :: deleteProp k rest else (k', v') :: setProp k v rest
  end.

Definition validCategories : list string :=
  ["wine_list"; "featured_menu"; "signature_cocktails"; "tavern_menu"].

(** [validCategories.includes(v)]: only a string can be equal to one of
    them. *)
Definition isValidCategory (v : JsVal) : bool :=
  match v with
  | JStr c => existsb (String.eqb c) validCategories
  | _ => false
  end.

Section Surroundings.

Variable conv : Conversions.
Variable clock : nat -> Z.

(** [new Date(ms).toISOString()]. *)
Variable toISOString : Z -> string.

(** [errorHandler] of [middleware/errorHandler.ts], for a request with
    [req.method] and [req.path], [production] telling whether [NODE_ENV] is
    ['production']. *)
Definition errorHandler (production : bool) (method path : string) (err : Exn)
  : Eff ErrorReply :=
  let statusCode :=
    match statusCodeOf err with
    | Some c => if (c =? 0)%nat then 500%nat else c
    | None => 500%nat
    end in
  let message :=
    if messageOf err =? "" then "Internal Server Error" else messageOf err in
  timestamp <-- now clock ;;
  emit (EvLog "error" "Request error") ;;;
  (if (500 <=? statusCode)%nat
   then alertWebhook ("Server error " ++ string_of_nat statusCode ++ ": " ++ message
                      ++ " on " ++ method ++ " " ++ path) "critical"
   else ret tt) ;;;
  ret {| reply_status := statusCode;
         reply_error := message;
         reply_details := negb production |}.

(** The handler under [asyncHandler], followed by the error middleware: a
    rejection of the handler's promise goes to [next], which runs
    [errorHandler]. *)
Definition serveProcess (production : bool) (method path : string) (w : World)
    (req : Request) : Eff RouteReply :=
  tryCatch
    (processHandler conv clock w req ;;; ret HandlerResponded)
    (fun err =>
       reply <-- errorHandler production method path err ;;
       ret (ErrorReplied reply)).

(** [authMiddleware(allowedRoles)] of [middleware/auth.ts] on the header
    [req.headers.authorization]: the events are its log lines. *)
Definition authMiddleware (allowedRoles : list string) (aw : AuthWorld)
    (authHeader : option string) : list Event * AuthResult :=
  match authHeader with
  | None => ([], AuthDenied 401 "Authorization token required")
  | Some header =>
      if negb (startsWith "Bearer " header)
      then ([], AuthDenied 401 "Authorization token required")
      else
        let token := dropChars 7 header in
        match verify aw token with
        | TokenExpiredError =>
            ([EvLog "error" "Auth middleware error:"], AuthDenied 401 "Token expired")
        | JsonWebTokenError =>
            ([EvLog "error" "Auth middleware error:"], AuthDenied 401 "Invalid token")
        | JwtFailure _ =>
            ([EvLog "error" "Auth middleware error:"],
             AuthDenied 500 "Authentication error")
        | JwtPayload sub =>
            match findUser aw sub with
            | Rejected _ =>
                ([EvLog "error" "Auth middleware error:"],
                 AuthDenied 500 "Authentication error")
            | Resolved _ (Some _) | Resolved None None =>
                ([EvLog "warn" "Invalid token - user not found"],
                 AuthDenied 401 "Invalid token")
            | Resolved (Some u) None =>
                if negb (active u)
                then ([EvLog "warn" "Inactive user attempted access"],
                      AuthDenied 401 "Account deactivated")
                else if (0 <? List.length allowedRoles)%nat
                        && negb (existsb (String.eqb (role u)) allowedRoles)
                then ([EvLog "warn" "Insufficient permissions"],
                      AuthDenied 403 "Insufficient permissions")
                else ([], AuthNext u)
            end
        end
  end.

(** [optionalAuth]. *)
Definition optionalAuth (aw : AuthWorld) (authHeader : option string)
  : list Event * OptionalAuthResult :=
  match authHeader with
  | Some header =>
      if startsWith "Bearer " header
      then let '(trace, r) := authMiddleware [] aw authHeader in (trace, Through r)
      else ([], Anonymous)
  | None => ([], Anonymous)
  end.

(** [app.use('/api/ocr', authMiddleware(['boss']), ocrRoutes)] for a request
    to POST /process: the middleware first, then the handler with the user it
    has set, then the error middleware.  [upload] and [menuType] are what
    [upload.single('image')] has left in [req.file] and [req.body.menuType];
    a request that multer itself rejects is not modelled. *)
Definition ocrRoute (production : bool) (method path : string) (aw : AuthWorld)
    (w : World) (authHeader : option string) (upload : option UploadedFile)
    (menuType : option string) : Eff RouteReply :=
  match authMiddleware ["boss"] aw authHeader with
  | (trace, AuthDenied status error) =>
      fun t => (trace, Ok (AuthRefused status error), t)
  | (trace, AuthNext u) =>
      (fun t => (trace, Ok tt, t)) ;;;
      serveProcess production method path w
        {| file := upload; body_menuType := menuType;
           user := {| userId := au_id u; userName := au_name u |} |}
  end.

(** PUT /menu/item/:id, before the store is called: [delete updates.id],
    [delete updates.created_at], [updates.updated_at = new
    Date().toISOString()], on the own properties of the body. *)
Definition sanitizeUpdates (updates : list (string * JsVal))
  : Eff (list (string * JsVal)) :=
  time <-- now clock ;;
  ret (setProp "updated_at" (JStr (toISOString time))
         (deleteProp "created_at" (deleteProp "id" updates))).

(** [a ?? b]. *)
Definition nullish_else (a b : JsVal) : JsVal :=
  match a with
  | JUndefined | JNull => b
  | _ => a
  end.

Definition propOf (props : list (string * JsVal)) (k : string) : JsVal :=
  match own props k with
  | Some v => v
  | None => JUndefined
  end.

(** POST /menu/item, before the store is called: the two checks, then the
    identifier, the two dates and the default of [available], on the own
    properties of the body; [random] is
    [Math.random().toString(36).substr(2, 9)]. *)
Definition prepareNewItem (random : string) (itemData : list (string * JsVal))
  : Eff (list (string * JsVal)) :=
  if negb (truthy (propOf itemData "name")) || negb (truthy (propOf itemData "category"))
  then throwE (AppError "Name and category are required" 400)
  else if negb (isValidCategory (propOf itemData "category"))
  then throwE (AppError "Invalid category" 400)
  else
    category <-- lift (toStringV conv (propOf itemData "category")) ;;
    time <-- now clock ;;
    let withId :=
      setProp "id" (JStr (category ++ "_" ++ string_of_Z time ++ "_" ++ random))
        itemData in
    created <-- now clock ;;
    let withCreated := setProp "created_at" (JStr (toISOString created)) withId in
    let withUpdated :=
      setProp "updated_at" (propOf withCreated "created_at") withCreated in
    ret (setProp "available"
           (nullish_else (propOf withUpdated "available") (JBool true)) withUpdated).

End Surroundings.

(** ** Running the pipeline on concrete inputs *)

(** Conversions for running the definitions on the concrete payloads below:
    decimal notation for integers, decimal integer literals for strings.
    The theorems are proved for every [Conversions], and no payload below
    converts between a number and a string. *)
Definition decimalConversions : Conversions :=
  {| numToString := fun n =>
       match n with
       | NaN => "NaN"
       | Infinity negative => if negative then "-Infinity" else "Infinity"
       | Finite q => string_of_Z (Qnum q / Zpos (Qden q))
       end;
     strToNumber := fun s =>
       let '(d, rest) := takeDigits (trim s) in
       if rest =? "" then Finite (inject_Z (digitsValue 0 d)) else NaN |}.

(** A clock that starts at 1700000000000 ms and advances by one millisecond
    per reading. *)
Definition tickingClock (k : nat) : Z := (1700000000000 + Z.of_nat k)%Z.

(** The line feed. *)
Definition LF : string := String (ascii_of_nat 10) EmptyString.

Definition sampleUser : User := {| userId := "u-1"; userName := "Avery" |}.
Definition sampleFile : UploadedFile := {| originalname := "menu.jpg"; size := 204800%N |}.

(** A store that accepts every batch and every audit record. *)
Definition acceptingStore : Store :=
  {| upsert_menu_items := fun items => Resolved (Some items) None;
     insert_menu_update := fun _ => Resolved tt None |}.

(** A store that accepts every batch and refuses every audit record. *)
Definition auditFailingStore : Store :=
  {| upsert_menu_items := fun items => Resolved (Some items) None;
     insert_menu_update := fun _ => Rejected (ExternalError "menu_updates unavailable") |}.

(** A world whose recognition service answers 200 with the body [payload]. *)
Definition worldAnswering (payload : JsVal) : World :=
  {| sharp := fun _ => Ok "base64";
     fetchOCR := fun _ =>
       Ok {| resp_ok := true; resp_status := 200; resp_text := Ok "";
             resp_json := Ok payload |};
     store := acceptingStore;
     DEPLOY_WEBHOOK_URL := None;
     fetchDeploy := fun _ => Ok tt |}.

(** The text of the specification's example for the line extractor. *)
Definition oldFashionedText : string :=
  "Old Fashioned $14.00" ++ LF ++ "House bourbon, bitters, and orange peel".

(** A structured payload whose only record carries a name that is an object
    whose [length] is an object with a [toString] that is not a function:
    [{"items":[{"name":{"length":{"toString":1}}}]}]. *)
Definition unconvertibleLengthPayload : JsVal :=
  JObj [("items",
         JArr [JObj [("name", JObj [("length", JObj [("toString", JNum (Finite 1))])])]])].

(** [{"items":[{"name":" a "}]}]: a name of three code units, one after
    trimming. *)
Definition paddedNamePayload : JsVal :=
  JObj [("items", JArr [JObj [("name", JStr " a ")]])].

(** [{"items":[{"name":"ab"},{"name":"Merlot","price":"$12.50"}]}]. *)
Definition shortAndLongPayload : JsVal :=
  JObj [("items", JArr [JObj [("name", JStr "ab")];
                        JObj [("name", JStr "Merlot"); ("price", JStr "$12.50")]])].

(** [{"items":[null,{}]}]. *)
Definition nullThenEmptyPayload : JsVal :=
  JObj [("items", JArr [JNull; JObj []])].

(** [{"items":[{},{"name":"ab"}]}]. *)
Definition namelessThenShortPayload : JsVal :=
  JObj [("items", JArr [JObj []; JObj [("name", JStr "ab")]])].

(** [{"items":[{},{"name":"ab"},null,{}]}]: the third record makes the
    extraction throw. *)
Definition namelessShortNullPayload : JsVal :=
  JObj [("items", JArr [JObj []; JObj [("name", JStr "ab")]; JNull; JObj []])].

(** [{"text":"ab $5.00\nNegroni $12.00"}]: no structured record, and a
    first price line whose name has two code units. *)
Definition shortAndLongTextPayload : JsVal :=
  JObj [("text", JStr ("ab $5.00" ++ LF ++ "Negroni $12.00"))].



(** The drafts of the records of [shortAndLongPayload] and
    [namelessThenShortPayload] for [wine_list] under [tickingClock] from
    count 0. *)
Definition merlotItem : MenuItemDraft :=
  {| id := "wine_list_ocr_1700000000003_1";
     name := JStr "Merlot";
     description := JNull;
     price := Some (Finite (25 # 2));
     category := "wine_list";
     subcategory := JNull;
     available := true;
     tags := [];
     created_at := 1700000000004;
     updated_at := 1700000000005 |}.

Definition placeholderItem : MenuItemDraft :=
  {| id := "wine_list_ocr_1700000000000_0";
     name := JStr "Item 1";
     description := JNull;
     price := None;
     category := "wine_list";
     subcategory := JNull;
     available := true;
     tags := [];
     created_at := 1700000000001;
     updated_at := 1700000000002 |}.

Definition shortNameItem : MenuItemDraft :=
  {| id := "wine_list_ocr_1700000000003_1";
     name := JStr "ab";
     description := JNull;
     price := None;
     category := "wine_list";
     subcategory := JNull;
     available := true;
     tags := [];
     created_at := 1700000000004;
     updated_at := 1700000000005 |}.

(** The drafts of the two lines of [shortAndLongTextPayload] for [wine_list]
    under [tickingClock] from count 0. *)
Definition shortTextItem : MenuItemDraft :=
  {| id := "wine_list_manual_1700000000000_0";
     name := JStr "ab";
     description := JNull;
     price := Some (Finite (5 # 1));
     category := "wine_list";
     subcategory := JUndefined;
     available := true;
     tags := [];
     created_at := 1700000000001;
     updated_at := 1700000000002 |}.

Definition negroniItem : MenuItemDraft :=
  {| id := "wine_list_manual_1700000000003_1";
     name := JStr "Negroni";
     description := JNull;
     price := Some (Finite (12 # 1));
     category := "wine_list";
     subcategory := JUndefined;
     available := true;
     tags := [];
     created_at := 1700000000004;
     updated_at := 1700000000005 |}.

(** A price line whose price has 400 digits. *)
Definition longPriceLine : string :=
  "Vintage port $"
  ++ (fix nines (n : nat) : string :=
        match n with O => EmptyString | S k => String "9" (nines k) end) 400%nat.

(** The item [parseTextMenu] opens on [longPriceLine]. *)
Definition vintagePortItem : MenuItemDraft :=
  {| id := "wine_list_manual_1700000000000_0";
     name := JStr "Vintage port";
     description := JNull;
     price := Some (Infinity false);
     category := "wine_list";
     subcategory := JUndefined;
     available := true;
     tags := [];
     created_at := 1700000000001;
     updated_at := 1700000000002 |}.

Definition okResponse (payload : JsVal) : OcrResponse :=
  {| resp_ok := true; resp_status := 200; resp_text := Ok ""; resp_json := Ok payload |}.

(** The draft of the second record of [shortAndLongPayload] when the
    handler runs from count 0: the handler reads the clock once before the
    parser does. *)
Definition servedMerlotItem : MenuItemDraft :=
  {| id := "wine_list_ocr_1700000000004_1";
     name := JStr "Merlot";
     description := JNull;
     price := Some (Finite (25 # 2));
     category := "wine_list";
     subcategory := JNull;
     available := true;
     tags := [];
     created_at := 1700000000005;
     updated_at := 1700000000006 |}.

(** A world whose recognition service answers 503. *)
Definition worldRefusing : World :=
  {| sharp := fun _ => Ok "base64";
     fetchOCR := fun _ =>
       Ok {| resp_ok := false; resp_status := 503; resp_text := Ok "unavailable";
             resp_json := Throw (ExternalError "Unexpected token") |};
     store := acceptingStore;
     DEPLOY_WEBHOOK_URL := None;
     fetchDeploy := fun _ => Ok tt |}.

Definition refusingResponse : OcrResponse :=
  {| resp_ok := false; resp_status := 503; resp_text := Ok "unavailable";
     resp_json := Throw (ExternalError "Unexpected token") |}.

(** A store that rejects every upsert. *)
Definition failingStore : Store :=
  {| upsert_menu_items := fun _ => Rejected (ExternalError "fetch failed");
     insert_menu_update := fun _ => Resolved tt None |}.

Definition bossUser : AuthUser :=
  {| au_id := "u-1"; au_email := "avery@example.com"; role := "boss";
     au_name := "Avery"; active := true |}.

(** Every token verifies and names [bossUser]. *)
Definition bossWorld : AuthWorld :=
  {| verify := fun _ => JwtPayload (JStr "u-1");
     findUser := fun _ => Resolved (Some bossUser) None |}.

(** Stands for [toISOString] in the examples: the milliseconds in decimal
    notation. *)
Definition millisecondsText (time : Z) : string := string_of_Z time.

Definition newItemBody : list (string * JsVal) :=
  [("id", JStr "chosen-by-client"); ("name", JStr "Merlot");
   ("category", JStr "wine_list"); ("available", JBool false)].

Definition preparedItem : list (string * JsVal) :=
  [("id", JStr "wine_list_1700000000000_k3x9q2m1z"); ("name", JStr "Merlot");
   ("category", JStr "wine_list"); ("available", JBool false);
   ("created_at", JStr "1700000000001"); ("updated_at", JStr "1700000000001")].

(** [{"text":"ignored","structured_data":[...]}] with the records of
    [shortAndLongPayload]. *)
Definition sameRecordsOtherText : JsVal :=
  JObj [("text", JStr "Porter $7.00");
        ("structured_data",
         JArr [JObj [("name", JStr "ab")];
               JObj [("name", JStr "Merlot"); ("price", JStr "$12.50")]])].

Definition reserveRedItem : JsVal :=
  JObj [("name", JStr "Reserve Red"); ("description", JStr "Sparkling finish")].

(** ** Definitions that state the properties *)

(** PriceNormalizer as the specification words it: a finite number is
    returned unchanged, an absent or falsy input is absent, a string is
    stripped to digits and periods and parsed. *)
Definition PriceNormalizer_reference (input : JsVal) : option number :=
  match input with
  | JNum n => if isFinite n then Some n else None
  | JStr s =>
      let parsed := parseFloat (cleanPrice s) in
      if isNaN parsed then None else Some parsed
  | _ => None
  end.

(** The inputs the specification gives PriceNormalizer: a number, a string,
    or an absent or falsy value. *)
Definition isPriceInput (v : JsVal) : bool :=
  match v with
  | JNum _ | JStr _ | JUndefined | JNull => true
  | JBool b => negb b
  | JArr _ | JObj _ => false
  end.

(** The audit records a trace attempts to insert, in order. *)
Fixpoint auditRecords (trace : list Event) : list MenuUpdate.t :=
  match trace with
  | [] => []
  | EvAuditInsert update :: rest => update :: auditRecords rest
  | _ :: rest => auditRecords rest
  end.

Definition isRespond (ev : Event) : bool :=
  match ev with EvRespond _ => true | _ => false end.

Definition isUpsert (ev : Event) : bool :=
  match ev with EvUpsert _ => true | _ => false end.

(** The structured records [parseOCRResults] iterates over: the elements
    of [ocrData.structured_data || ocrData.items || []] when that is an
    array, and none otherwise. *)
Definition structuredRecords (ocrData : JsVal) : list JsVal :=
  match get ocrData "structured_data", get ocrData "items" with
  | Ok structured_data, Ok its =>
      match or_else (or_else structured_data its) (JArr []) with
      | JArr l => l
      | _ => []
      end
  | _, _ => []
  end.

(** A field of a record, [undefined] when the record has none to read. *)
Definition field (record : JsVal) (k : string) : JsVal :=
  match get record k with
  | Ok v => v
  | Throw _ => JUndefined
  end.

(** The record's [name] and [title] are both absent or falsy. *)
Definition recordNameless (record : JsVal) : bool :=
  negb (truthy (field record "name")) && negb (truthy (field record "title")).

(** The filter keeps the draft. *)
Definition keeps (conv : Conversions) (item : MenuItemDraft) : bool :=
  match keepDraft conv item with
  | Ok true => true
  | _ => false
  end.

(** The name test in the words of the specification, without trimming, for
    a name that is not an object: a string passes with more than two code
    units, an array with more than two elements, and nothing else passes. *)
Definition longName (v : JsVal) : bool :=
  match v with
  | JStr s => (2 <? String.length s)%nat
  | JArr l => (2 <? List.length l)%nat
  | _ => false
  end.

(** The name test as the specification states it: the trimmed name has more
    than two code units. *)
Definition longTrimmedName (v : JsVal) : bool :=
  match v with
  | JStr s => (2 <? String.length (trim s))%nat
  | _ => false
  end.

(** The extraction of a structured record runs without an exception: the
    record is neither [null] nor [undefined], [parsePrice] returns on its
    price, and its name and its description (the empty string when falsy)
    convert to strings in [determineTags]. *)
Definition recordExtracts (conv : Conversions) (record : JsVal) : bool :=
  match record with
  | JUndefined | JNull => false
  | _ =>
      is_ok (parsePrice conv (field record "price"))
      && is_ok (toStringV conv (field record "name"))
      && is_ok (toStringV conv (or_else (field record "description") (JStr "")))
  end.

(** The line opens an item in [parseTextMenu]: it matches the price pattern
    and its trimmed length exceeds 5. *)
Definition isPriceLine (line : string) : bool :=
  match matchPrice (trim line) with
  | Some _ => (5 <? String.length (trim line))%nat
  | None => false
  end.


(** What holds of every item the loop has opened, for the text whose
    non-blank lines are [lines] and the clock count [t0] at entry: the fixed
    fields, a trimmed name, and an identifier made of the menu type, the clock
    reading taken when the item's price line was reached, and the index of
    that line among the non-blank lines. *)
Definition openedAt (clock : nat -> Z) (menuType : string) (lines : list string)
    (t0 : nat) (item : MenuItemDraft) : Prop :=
  category item = menuType
  /\ available item = true
  /\ tags item = []
  /\ (exists s, name item = JStr s /\ trim s = s)
  /\ exists before line after,
       lines = (before ++ line :: after)%list
       /\ isPriceLine line = true
       /\ id item
          = makeId menuType "manual"
              (clock (t0 + 3 * List.length (filter isPriceLine before)))
              (List.length before).

(** ** The line extractor as a function of the lines *)

(** The name [parseTextMenu] gives the item a price line opens. *)
Definition lineName (line : string) : string := trim (stripPriceTail (trim line)).

(** The price [parseTextMenu] gives the item a price line opens. *)
Definition linePrice (line : string) : option number :=
  match matchPrice (trim line) with
  | Some cap => Some (parseFloat cap)
  | None => None
  end.

(** Identifier, name and price of the items that the non-blank lines
    [lines] open, in order, when the first of them has index [index] and the
    clock has been read [t] times: one item per price line whose name is not
    empty, and three clock readings per price line. *)
Fixpoint openedItems (clock : nat -> Z) (menuType : string) (index t : nat)
    (lines : list string) : list (string * JsVal * option number) :=
  match lines with
  | [] => []
  | line :: rest =>
      if isPriceLine line
      then ((if lineName line =? "" then []
             else [(makeId menuType "manual" (clock t) index,
                    JStr (lineName line), linePrice line)])
            ++ openedItems clock menuType (S index) (t + 3) rest)%list
      else openedItems clock menuType (S index) t rest
  end.

Definition itemKey (item : MenuItemDraft) : string * JsVal * option number :=
  (id item, name item, price item).


(** A number that is neither [NaN] nor negative. *)
Definition notNegative (n : number) : Prop :=
  match n with
  | Finite q => (0 <= q)%Q
  | Infinity negative => negative = false
  | NaN => False
  end.

Fixpoint containsChar (c : ascii) (s : string) : bool :=
  match s with
  | EmptyString => false
  | String a r => Ascii.eqb a c || containsChar c r
  end.

(** What follows the last underscore of a string (the whole string when it
    has none). *)
Fixpoint afterLastUnderscore (s : string) : string :=
  match s with
  | EmptyString => EmptyString
  | String c r =>
      if containsChar "_" r then afterLastUnderscore r
      else if Ascii.eqb c "_" then r else String c r
  end.

(** The eight tags [determineTags] can give, in the order it pushes them. *)
Definition tagVocabulary : list string :=
  ["signature"; "premium"; "reserve"; "red"; "white"; "sparkling"; "featured"; "limited"].

(** [l1] is [l2] with some elements left out. *)
Inductive Subsequence {A : Type} : list A -> list A -> Prop :=
| Subsequence_nil : Subsequence [] []
| Subsequence_skip : forall x l1 l2, Subsequence l1 l2 -> Subsequence l1 (x :: l2)
| Subsequence_keep : forall x l1 l2, Subsequence l1 l2 -> Subsequence (x :: l1) (x :: l2).

Definition isObject (v : JsVal) : bool :=
  match v with JObj _ => true | _ => false end.

Fixpoint allDigits (s : string) : bool :=
  match s with
  | EmptyString => true
  | String c r => isDigit c && allDigits r
  end.

Definition isNumberValue (v : JsVal) : bool :=
  match v with JNum _ => true | _ => false end.

(** ** Counting events *)

Definition isRecognize (ev : Event) : bool :=
  match ev with EvRecognize => true | _ => false end.

Definition isAlert (ev : Event) : bool :=
  match ev with EvAlert _ _ => true | _ => false end.

Definition isPreprocess (ev : Event) : bool :=
  match ev with EvPreprocess _ => true | _ => false end.

Definition countEvents (p : Event -> bool) (trace : list Event) : nat :=
  List.length (filter p trace).

(** The batches a trace submits to the store, in order. *)
Fixpoint upsertedBatches (trace : list Event) : list (list MenuItemDraft) :=
  match trace with
  | [] => []
  | EvUpsert items :: rest => items :: upsertedBatches rest
  | _ :: rest => upsertedBatches rest
  end.

(** The bodies a trace sends with [res.json], in order. *)
Fixpoint responses (trace : list Event) : list ResponseBody :=
  match trace with
  | [] => []
  | EvRespond body :: rest => body :: responses rest
  | _ :: rest => responses rest
  end.

(** The request passes the two checks of the handler. *)
Definition validRequest (req : Request) : bool :=
  match file req, body_menuType req with
  | Some _, Some menuType =>
      negb (menuType =? "") && lookupTruthy (lookupMenuType menuType)
  | _, _ => false
  end.

(** The error a store reply carries, if any: the rejection, or the [error]
    of the resolved pair. *)
Definition replyError {A} (r : Reply A) : option Exn :=
  match r with
  | Rejected e => Some e
  | Resolved _ (Some err) => Some err
  | Resolved _ None => None
  end.

(** * Properties *)

Section Properties.

Variable conv : Conversions.
Variable clock : nat -> Z.

(** ** The line extractor on the specification's example *)

(** C6: on the two-line text ["Old Fashioned $14.00"] / ["House bourbon,
    bitters, and orange peel"], [parseTextMenu] yields exactly one item, named
    ["Old Fashioned"], priced 14, described by the second line. *)
Theorem parseTextMenu_old_fashioned :
  forall (menuType : string) (t : nat),
    exists item,
      fst (parseTextMenu clock oldFashionedText menuType t) = [item]
      /\ name item = JStr "Old Fashioned"
      /\ price item = Some (Finite (14 # 1))
      /\ description item = JStr "House bourbon, bitters, and orange peel".
Proof.
  intros menuType t. eexists. split.
  - reflexivity.
  - repeat split; reflexivity.
Qed.

(** ** The tag classifier on the specification's examples *)

Lemma tags_estate_reserve_cabernet :
  determineTags conv (JObj [("name", JStr "Estate Reserve Cabernet")]) "wine_list"
  = Ok ["reserve"].
Proof. reflexivity. Qed.

Lemma tags_simple_gin_fizz :
  determineTags conv (JObj [("name", JStr "simple gin fizz")]) "signature_cocktails"
  = Ok ["signature"].
Proof. reflexivity. Qed.

(** C7, amended: for [wine_list] and the text ["Estate Reserve Cabernet"]
    the tags include ["reserve"] and do not include ["red"] (the text has no
    substring ["red"]); for [signature_cocktails] and ["simple gin fizz"] they
    include ["signature"] and not ["premium"]. *)
Theorem determineTags_examples :
  (exists tags,
      determineTags conv (JObj [("name", JStr "Estate Reserve Cabernet")]) "wine_list"
      = Ok tags
      /\ includes (toLowerCase "Estate Reserve Cabernet") "red" = false
      /\ In "reserve" tags /\ ~ In "red" tags)
  /\ (exists tags,
        determineTags conv (JObj [("name", JStr "simple gin fizz")]) "signature_cocktails"
        = Ok tags
        /\ In "signature" tags /\ ~ In "premium" tags).
Proof.
  split.
  - exists ["reserve"]. split; [apply tags_estate_reserve_cabernet|].
    split; [reflexivity|]. split; [now left|].
    intros [H | []]. discriminate H.
  - exists ["signature"]. split; [apply tags_simple_gin_fizz|].
    split; [now left|].
    intros [H | []]. discriminate H.
Qed.

(** ** The price normalizer *)

Lemma parsePrice_number : forall n, parsePrice conv (JNum n) = Ok (Some n).
Proof. reflexivity. Qed.

Lemma parsePrice_string : forall s,
  parsePrice conv (JStr s)
  = Ok (let parsed := parseFloat (cleanPrice s) in
        if isNaN parsed then None else Some parsed).
Proof. intros [| c s]; reflexivity. Qed.

(** C5, amended: on a number, a string, or an absent or falsy value,
    [parsePrice] returns a number unchanged whether it is finite or not,
    returns [null] for an absent or falsy value, and for a string returns
    the number [parseFloat] reads from its digits and periods, or [null] when
    that is NaN; ["$14.00"] gives 14, [""] and ["N/A"] give [null], 12
    gives 12. *)
Theorem parsePrice_cases :
  forall v, isPriceInput v = true ->
    parsePrice conv v
    = Ok (match v with
          | JNum n => Some n
          | JStr s =>
              let parsed := parseFloat (cleanPrice s) in
              if isNaN parsed then None else Some parsed
          | _ => None
          end)
    /\ parsePrice conv (JStr "$14.00") = Ok (Some (Finite (14 # 1)))
    /\ parsePrice conv (JStr "") = Ok None
    /\ parsePrice conv (JNum (Finite (12 # 1))) = Ok (Some (Finite (12 # 1)))
    /\ parsePrice conv (JStr "N/A") = Ok None.
Proof.
  intros v Hv. split; [|repeat split; reflexivity].
  destruct v as [| | b | n | s | l | props]; try reflexivity; try discriminate Hv.
  - destruct b; [discriminate Hv | reflexivity].
  - apply parsePrice_string.
Qed.

(** ** Traces of computations *)

Lemma bindE_now : forall {A} (k : Z -> Eff A) t,
  (x <-- now clock ;; k x) t = k (clock t) (S t).
Proof.
  intros A k t. unfold bindE, now.
  destruct (k (clock t) (S t)) as [[tr r] t']. reflexivity.
Qed.

Lemma in_trace_emit : forall {A} ev (k : Eff A) t,
  In ev (traceOf ((emit ev ;;; k) t)).
Proof.
  intros A ev k t. unfold bindE, emit, traceOf.
  destruct (k t) as [[tr r] t']. simpl. now left.
Qed.

Lemma in_trace_bind : forall {A B} (m : Eff A) (k : A -> Eff B) t tr a t1 ev,
  m t = (tr, Ok a, t1) ->
  In ev (traceOf (k a t1)) ->
  In ev (traceOf (bindE m k t)).
Proof.
  intros A B m k t tr a t1 ev Hm Hin. unfold bindE. rewrite Hm.
  destruct (k a t1) as [[tr2 r2] t2]. unfold traceOf in *. simpl in *.
  apply in_or_app. now right.
Qed.

Lemma in_trace_tryCatch : forall {A} (m : Eff A) handler t ev,
  In ev (traceOf (m t)) ->
  In ev (traceOf (tryCatch m handler t)).
Proof.
  intros A m handler t ev Hin. unfold tryCatch.
  destruct (m t) as [[tr1 r] t1]. unfold traceOf in *. simpl in *.
  destruct r as [a | e]; [exact Hin|].
  destruct (handler e t1) as [[tr2 r2] t2]. simpl.
  apply in_or_app. now left.
Qed.

(** ** The bulk upsert and its audit record *)

(** C2: when the store accepts the batch, [bulkUpsertMenuItems] attempts
    exactly one audit insert, whose record names the user, the menu type, the
    operation ["bulk_update"], the number of items and their ids; it returns
    the store's data, whatever the store answers to the audit insert. *)
Theorem bulkUpsert_audits_once :
  forall (db : Store) (items : list MenuItemDraft) (userId menuType : string)
         (t : nat) (data : option (list MenuItemDraft)),
    upsert_menu_items db items = Resolved data None ->
    let out := bulkUpsertMenuItems clock db items userId menuType t in
    resultOf out = Ok data
    /\ auditRecords (traceOf out)
       = [MenuUpdate.mk userId menuType "bulk_update" (List.length items)
                        (map id items) (clock t)]
    /\ forall db' : Store,
         upsert_menu_items db' items = upsert_menu_items db items ->
         resultOf (bulkUpsertMenuItems clock db' items userId menuType t) = Ok data.
Proof.
  intros db items userId menuType t data Hup.
  assert (Hgen : forall d : Store,
             upsert_menu_items d items = Resolved data None ->
             resultOf (bulkUpsertMenuItems clock d items userId menuType t) = Ok data
             /\ auditRecords (traceOf (bulkUpsertMenuItems clock d items userId menuType t))
                = [MenuUpdate.mk userId menuType "bulk_update" (List.length items)
                                 (map id items) (clock t)]).
  { intros d Hd.
    unfold bulkUpsertMenuItems, logMenuUpdate, tryCatch, bindE, emit, awaitReply, now, ret.
    rewrite Hd. cbn.
    destruct (insert_menu_update d _) as [[] [err |] | e]; cbn; split; reflexivity. }
  cbv zeta. destruct (Hgen db Hup) as [Hres Haud].
  split; [exact Hres|]. split; [exact Haud|].
  intros db' Hsame. apply Hgen. now rewrite Hsame.
Qed.

(** ** Validation of the request *)

Lemma assoc_some_in : forall l k v, assoc l k = Some v -> In (k, v) l.
Proof.
  induction l as [| [k' v'] l IH]; intros k v H; simpl in H; [discriminate|].
  destruct (String.eqb_spec k' k) as [-> | _].
  - inversion H; subst. now left.
  - right. now apply IH.
Qed.

Lemma assoc_none_not_in : forall l k, assoc l k = None -> ~ In k (map fst l).
Proof.
  induction l as [| [k' v'] l IH]; intros k H; simpl in *; [tauto|].
  destruct (String.eqb_spec k' k) as [-> | Hne]; [discriminate|].
  intros [Heq | Hin]; [contradiction | now apply (IH k)].
Qed.

(** The keys that pass [MENU_TYPE_MAPPING[menuType]]: the four categories
    and the property names of [Object.prototype]. *)
Lemma menu_type_accepted_iff : forall key,
  lookupTruthy (lookupMenuType key) = true
  <-> In key (map fst MENU_TYPE_MAPPING) \/ In key objectPrototypeKeys.
Proof.
  intro key. unfold lookupMenuType.
  destruct (assoc MENU_TYPE_MAPPING key) as [v |] eqn:E.
  - apply assoc_some_in in E.
    assert (Hv : lookupTruthy (OwnValue v) = true).
    { simpl in E.
      repeat (destruct E as [E | E]; [inversion E; subst; reflexivity|]).
      destruct E. }
    split; [intros _|intros _; exact Hv].
    left. apply in_map_iff. exists (key, v). now split.
  - apply assoc_none_not_in in E.
    destruct (existsb (String.eqb key) objectPrototypeKeys) eqn:Ex.
    + split; [intros _|reflexivity]. right.
      apply existsb_exists in Ex. destruct Ex as [x [Hin Hx]].
      apply String.eqb_eq in Hx. now subst x.
    + split; [discriminate|]. intros [Hin | Hin]; [contradiction|].
      assert (existsb (String.eqb key) objectPrototypeKeys = true) as Hc.
      { apply existsb_exists. exists key. split; [exact Hin | apply String.eqb_refl]. }
      congruence.
Qed.

(** Steps the handler up to its [try] block, for a request that carries a
    file and a menu type [Hacc] accepts and [Hne] shows not empty. *)
Ltac pass_validation Hacc Hne :=
  unfold processHandler; rewrite bindE_now; cbn [file body_menuType user];
  rewrite Hacc, Hne; cbn [orb negb].

(** A request without a file, without a menu type, or with a menu type that
    is empty or names no property of the mapping, is refused with status 400
    before anything else happens. *)
Lemma validation_fails_fast : forall (w : World) (req : Request) t,
  file req = None
  \/ body_menuType req = None
  \/ (exists m, body_menuType req = Some m
                /\ (m = "" \/ lookupTruthy (lookupMenuType m) = false)) ->
  exists msg,
    processHandler conv clock w req t = ([], Throw (AppError msg 400), S t).
Proof.
  intros w req t H. unfold processHandler. rewrite bindE_now.
  destruct (file req) as [f |]; [| eexists; reflexivity].
  destruct H as [H | [H | [m [Hm H]]]]; [discriminate H | |].
  - rewrite H. eexists; reflexivity.
  - rewrite Hm. destruct H as [H | H].
    + subst m. eexists; reflexivity.
    + rewrite H. rewrite orb_true_r. eexists; reflexivity.
Qed.

(** C3 at the failing input: a request whose menu type is a property name
    of [Object.prototype] (["constructor"], ["toString"], ...) is none of
    the four categories, yet it passes the check
    [MENU_TYPE_MAPPING[menuType]] and the recognition service is called. *)
Theorem inherited_menu_type_reaches_recognition :
  forall (w : World) (f : UploadedFile) (u : User) (menuType : string) (t : nat)
         (image : string),
    In menuType objectPrototypeKeys ->
    sharp w f = Ok image ->
    ~ In menuType (map fst MENU_TYPE_MAPPING)
    /\ In EvRecognize
         (traceOf (processHandler conv clock w
                     {| file := Some f; body_menuType := Some menuType; user := u |} t)).
Proof.
  intros w f u menuType t image Hkey Hsharp. split.
  - simpl in *. intuition (subst; discriminate).
  - assert (Hacc : lookupTruthy (lookupMenuType menuType) = true)
      by (apply menu_type_accepted_iff; now right).
    assert (Hne : (menuType =? "") = false)
      by (apply String.eqb_neq; intro; subst; simpl in Hkey; intuition discriminate).
    pass_validation Hacc Hne.
    eapply in_trace_bind; [reflexivity|].
    apply in_trace_tryCatch. unfold processBody.
    eapply in_trace_bind; [reflexivity|].
    eapply in_trace_bind; [unfold lift; rewrite Hsharp; reflexivity|].
    apply in_trace_emit.
Qed.

(** ** The zero-draft outcome *)

(** When the recognition service answers with a payload that is not [null]
    and no draft survives, the handler answers with the soft failure and does
    not touch the store. *)
Lemma zero_drafts_soft_failure :
  forall (w : World) (f : UploadedFile) (u : User) (menuType : string) (t : nat)
         (image : string) (resp : OcrResponse) (ocrData text : JsVal),
    menuType <> "" ->
    lookupTruthy (lookupMenuType menuType) = true ->
    sharp w f = Ok image ->
    fetchOCR w image = Ok resp ->
    resp_ok resp = true ->
    resp_json resp = Ok ocrData ->
    get ocrData "text" = Ok text ->
    resultOf (parseOCRResults conv clock ocrData menuType (S t)) = Ok [] ->
    let out := processHandler conv clock w
                 {| file := Some f; body_menuType := Some menuType; user := u |} t in
    resultOf out = Ok tt
    /\ In (EvRespond (SoftFailure false "No menu items could be extracted from the image"
                        (or_else text (JStr "")) suggestions)) (traceOf out)
    /\ forall ev, In ev (traceOf out) -> isUpsert ev = false.
Proof.
  intros w f u menuType t image resp ocrData text Hne Hacc Hsharp Hfetch Hok Hjson
         Htext Hparse.
  cbv zeta. apply String.eqb_neq in Hne. pass_validation Hacc Hne.
  unfold processBody, tryCatch, bindE, emit, lift, alertWebhook, throwE.
  rewrite Hsharp, Hfetch, Hok, Hjson. cbn [negb].
  destruct (parseOCRResults conv clock ocrData menuType (S t)) as [[ptr pres] pt] eqn:Hp.
  unfold resultOf in Hparse. simpl in Hparse. subst pres.
  cbn. rewrite Htext. cbn.
  split; [reflexivity|]. split.
  - right. right. right. apply in_or_app. right. right. now left.
  - intros ev Hin.
    destruct Hin as [<- | [<- | [<- | Hin]]]; try reflexivity.
    apply in_app_or in Hin. destruct Hin as [Hin | Hin].
    + unfold parseOCRResults in Hp.
      destruct (extractDrafts conv clock ocrData menuType (S t)) as [[its caught] t'].
      inversion Hp; subst. destruct caught; simpl in Hin; intuition (subst; reflexivity).
    + simpl in Hin. intuition (subst; reflexivity).
Qed.

(** C4 at the failing input: when the recognition service answers 200 with
    the body [null], [parseOCRResults] yields no draft, and the handler then
    reads [ocrData.text] of [null]: it sends no response, does not touch the
    store, alerts, and throws. *)
Theorem null_payload_raises :
  forall (w : World) (f : UploadedFile) (u : User) (menuType : string) (t : nat)
         (image : string) (resp : OcrResponse),
    menuType <> "" ->
    lookupTruthy (lookupMenuType menuType) = true ->
    sharp w f = Ok image ->
    fetchOCR w image = Ok resp ->
    resp_ok resp = true ->
    resp_json resp = Ok JNull ->
    let out := processHandler conv clock w
                 {| file := Some f; body_menuType := Some menuType; user := u |} t in
    resultOf (parseOCRResults conv clock JNull menuType (S t)) = Ok []
    /\ (exists msg, resultOf out = Throw (TypeError msg))
    /\ (exists msg, In (EvAlert msg "critical") (traceOf out))
    /\ forall ev, In ev (traceOf out) -> isRespond ev = false /\ isUpsert ev = false.
Proof.
  intros w f u menuType t image resp Hne Hacc Hsharp Hfetch Hok Hjson.
  cbv zeta. split; [reflexivity|].
  apply String.eqb_neq in Hne. pass_validation Hacc Hne.
  unfold processBody, tryCatch, bindE, emit, lift, alertWebhook, throwE, now.
  rewrite Hsharp, Hfetch, Hok, Hjson. cbn.
  split; [eexists; reflexivity|]. split.
  - eexists. do 6 right. left. reflexivity.
  - intros ev Hin.
    repeat (destruct Hin as [<- | Hin]; [split; reflexivity|]). destruct Hin.
Qed.

(** ** Exceptions and the final filter *)

Lemma greaterThan2_nat : forall n : nat,
  greaterThan2 conv (JNum (num_of_nat n)) = Ok (2 <? n)%nat.
Proof.
  intro n. unfold greaterThan2, num_of_nat. cbn [toPrimitive bind toNumber].
  f_equal. unfold Qle_bool, inject_Z. cbn [Qnum Qden].
  destruct (Nat.ltb_spec 2 n); destruct (Z.leb_spec (Z.of_nat n * 1) (2 * 1));
    try reflexivity; lia.
Qed.

(** A draft whose name is a string passes through the filter without an
    exception: it is kept when the string has more than two code units. *)
Lemma keepDraft_string : forall item s,
  name item = JStr s ->
  keepDraft conv item = Ok (2 <? String.length s)%nat.
Proof.
  intros item s Hs. unfold keepDraft. rewrite Hs.
  destruct s as [| c r]; [reflexivity|].
  change (truthy (JStr (String c r))) with true. cbv iota.
  change (get (JStr (String c r)) "length")
    with (Ok (JNum (num_of_nat (String.length (String c r))))).
  cbn [bind]. apply greaterThan2_nat.
Qed.

(** C9 at the failing input: the record's name is an object whose [length]
    cannot be converted to a primitive.  Its draft is built inside the [try]
    block without an exception; the comparison [item.name.length > 2] of the
    filter, outside the [try] block, throws, and [parseOCRResults] propagates
    the exception. *)
Theorem filter_exception_escapes :
  forall (menuType : string) (t : nat),
    (exists item, extractDrafts conv clock unconvertibleLengthPayload menuType t
                  = ([item], None, (t + 3)%nat))
    /\ resultOf (parseOCRResults conv clock unconvertibleLengthPayload menuType t)
       = Throw (TypeError "Cannot convert object to primitive value").
Proof.
  intros menuType t. split.
  - eexists. reflexivity.
  - reflexivity.
Qed.

(** ** Trimming *)

Lemma trimStart_nonspace : forall c r,
  isWhiteSpace c = false -> trimStart (String c r) = String c r.
Proof. intros c r H. simpl. now rewrite H. Qed.

Lemma trimStart_cases : forall s,
  trimStart s = EmptyString
  \/ exists c r, trimStart s = String c r /\ isWhiteSpace c = false.
Proof.
  induction s as [| c r IH]; simpl; [now left|].
  destruct (isWhiteSpace c) eqn:E; [exact IH|].
  right. exists c, r. now split.
Qed.

Lemma trimEnd_nonspace : forall c r,
  isWhiteSpace c = false -> trimEnd (String c r) = String c (trimEnd r).
Proof.
  intros c r H. simpl. destruct (trimEnd r); [now rewrite H | reflexivity].
Qed.

Lemma trimEnd_idempotent : forall s, trimEnd (trimEnd s) = trimEnd s.
Proof.
  induction s as [| c r IH]; [reflexivity|].
  simpl. destruct (trimEnd r) as [| d r'] eqn:E.
  - destruct (isWhiteSpace c) eqn:W; simpl; [reflexivity | now rewrite W].
  - change (trimEnd (String c (String d r'))) with
      (match trimEnd (String d r') with
       | EmptyString => if isWhiteSpace c then EmptyString else String c EmptyString
       | r0 => String c r0
       end).
    rewrite IH. reflexivity.
Qed.

Lemma trim_idempotent : forall s, trim (trim s) = trim s.
Proof.
  intro s. unfold trim.
  destruct (trimStart_cases s) as [E | [c [r [E W]]]]; rewrite E.
  - reflexivity.
  - rewrite (trimEnd_nonspace c r W), (trimStart_nonspace c _ W).
    rewrite (trimEnd_nonspace c _ W), trimEnd_idempotent. reflexivity.
Qed.

(** ** The loop of the line extractor *)

Lemma appendDescription_openedAt : forall menuType lines t0 cur line,
  openedAt clock menuType lines t0 cur ->
  openedAt clock menuType lines t0 (appendDescription cur line).
Proof. intros menuType lines t0 cur line H. exact H. Qed.

Lemma textStep_cases : forall menuType items cur t index line,
  (isPriceLine line = true
   /\ exists cap,
        textStep clock menuType (items, cur, t) index line
        = (flush items cur, Some (startItem clock menuType (trim line) cap index t),
           (t + 3)%nat))
  \/ (isPriceLine line = false
      /\ exists cur',
           textStep clock menuType (items, cur, t) index line = (items, cur', t)
           /\ (cur' = cur
               \/ exists c, cur = Some c
                            /\ cur' = Some (appendDescription c (trim line)))).
Proof.
  intros menuType items cur t index line. unfold textStep, isPriceLine.
  destruct (matchPrice (trim line)) as [cap |].
  - destruct (5 <? String.length (trim line))%nat.
    + left. split; [reflexivity|]. now exists cap.
    + right. split; [reflexivity|]. exists cur. split; [reflexivity | now left].
  - right. split; [reflexivity|].
    destruct cur as [c |].
    + destruct (10 <? String.length (trim line))%nat.
      * eexists. split; [reflexivity|]. right. now exists c.
      * exists (Some c). split; [reflexivity | now left].
    + exists None. split; [reflexivity | now left].
Qed.

Lemma in_flush : forall items cur item,
  In item (flush items cur) -> In item items \/ cur = Some item.
Proof.
  intros items cur item H. unfold flush in H.
  destruct cur as [c |]; [| now left].
  destruct (truthy (name c)); [| now left].
  apply in_app_or in H. destruct H as [H | [H | []]]; [now left | right; now subst].
Qed.

Lemma textLoop_openedAt : forall menuType all t0 rest pre items cur t,
  all = (pre ++ rest)%list ->
  t = (t0 + 3 * List.length (filter isPriceLine pre))%nat ->
  (forall item, In item items \/ cur = Some item -> openedAt clock menuType all t0 item) ->
  forall items' cur' t',
    textLoop clock menuType rest (List.length pre) (items, cur, t) = (items', cur', t') ->
    forall item, In item items' \/ cur' = Some item -> openedAt clock menuType all t0 item.
Proof.
  intros menuType all t0 rest.
  induction rest as [| line rest IH]; intros pre items cur t Hall Ht Hinv items' cur' t' Hloop.
  - simpl in Hloop. inversion Hloop; subst. exact Hinv.
  - cbn [textLoop] in Hloop.
    assert (Hall' : all = ((pre ++ [line]) ++ rest)%list)
      by (rewrite <- app_assoc; exact Hall).
    assert (Hlen : S (List.length pre) = List.length (pre ++ [line])%list)
      by (rewrite length_app; simpl; lia).
    rewrite Hlen in Hloop.
    destruct (textStep_cases menuType items cur t (List.length pre) line)
      as [[Hp [cap Hstep]] | [Hp [cur1 [Hstep Hcur]]]]; rewrite Hstep in Hloop.
    + eapply (IH (pre ++ [line])%list); [exact Hall' | | | exact Hloop].
      * rewrite filter_app, length_app. simpl. rewrite Hp. simpl. lia.
      * intros item [Hin | Hcur].
        -- apply Hinv. now apply in_flush.
        -- inversion Hcur; subst item. unfold openedAt. simpl.
           repeat split.
           ++ eexists. split; [reflexivity | apply trim_idempotent].
           ++ exists pre, line, rest. repeat split; [exact Hall | exact Hp | now subst t].
    + eapply (IH (pre ++ [line])%list); [exact Hall' | | | exact Hloop].
      * rewrite filter_app, length_app. simpl. rewrite Hp. simpl. lia.
      * intros item [Hin | Hc].
        -- apply Hinv. now left.
        -- destruct Hcur as [-> | [c [-> ->]]].
           ++ apply Hinv. now right.
           ++ inversion Hc; subst item.
              apply appendDescription_openedAt. apply Hinv. now right.
Qed.

Lemma parseTextMenu_openedAt : forall text menuType t item,
  In item (fst (parseTextMenu clock text menuType t)) ->
  openedAt clock menuType (filter nonBlank (split_lines text)) t item.
Proof.
  intros text menuType t item Hin. unfold parseTextMenu in Hin.
  destruct (textLoop clock menuType (filter nonBlank (split_lines text)) 0 ([], None, t))
    as [[items cur] t'] eqn:Hloop.
  simpl in Hin.
  eapply (textLoop_openedAt menuType _ t _ [] [] None t); [reflexivity | simpl; lia | | exact Hloop | ].
  - intros it [[] | H]. discriminate H.
  - now apply in_flush.
Qed.

(** ** The line extractor as a function of the lines *)

Lemma flush_keys_appendDescription : forall items c line,
  map itemKey (flush items (Some (appendDescription c line)))
  = map itemKey (flush items (Some c)).
Proof.
  intros items c line. unfold flush. cbn [name appendDescription].
  destruct (truthy (name c)); [| reflexivity].
  rewrite !map_app. reflexivity.
Qed.

Lemma textStep_price_line : forall menuType items cur t index line,
  isPriceLine line = true ->
  exists cap,
    matchPrice (trim line) = Some cap
    /\ textStep clock menuType (items, cur, t) index line
       = (flush items cur, Some (startItem clock menuType (trim line) cap index t),
          (t + 3)%nat).
Proof.
  intros menuType items cur t index line H. unfold isPriceLine in H. unfold textStep.
  destruct (matchPrice (trim line)) as [cap |]; [| discriminate H].
  exists cap. split; [reflexivity|]. now rewrite H.
Qed.

Lemma textStep_other_line : forall menuType items cur t index line,
  isPriceLine line = false ->
  exists cur',
    textStep clock menuType (items, cur, t) index line = (items, cur', t)
    /\ map itemKey (flush items cur') = map itemKey (flush items cur).
Proof.
  intros menuType items cur t index line H.
  destruct (textStep_cases menuType items cur t index line)
    as [[Hp _] | [_ [cur' [Hstep Hcur]]]]; [congruence|].
  exists cur'. split; [exact Hstep|].
  destruct Hcur as [-> | [c [-> ->]]]; [reflexivity|].
  apply flush_keys_appendDescription.
Qed.

Lemma textLoop_openedItems : forall menuType rest index items cur t items' cur' t',
  textLoop clock menuType rest index (items, cur, t) = (items', cur', t') ->
  map itemKey (flush items' cur')
  = (map itemKey (flush items cur) ++ openedItems clock menuType index t rest)%list
  /\ t' = (t + 3 * List.length (filter isPriceLine rest))%nat.
Proof.
  intros menuType rest.
  induction rest as [| line rest IH]; intros index items cur t items' cur' t' H.
  - simpl in H. inversion H; subst. simpl. rewrite app_nil_r. split; [reflexivity | lia].
  - cbn [textLoop] in H. cbn [openedItems filter].
    destruct (isPriceLine line) eqn:Hp.
    + destruct (textStep_price_line menuType items cur t index line Hp)
        as [cap [Hcap Hstep]].
      rewrite Hstep in H. destruct (IH _ _ _ _ _ _ _ H) as [Hkeys Ht].
      split; [| simpl; lia].
      rewrite Hkeys. rewrite app_assoc. f_equal.
      unfold flush at 1. cbn [name startItem truthy].
      fold (lineName line).
      destruct (lineName line =? "") eqn:E; cbn [negb].
      * now rewrite app_nil_r.
      * rewrite map_app. f_equal. unfold itemKey, linePrice. cbn. now rewrite Hcap.
    + destruct (textStep_other_line menuType items cur t index line Hp)
        as [cur1 [Hstep Hsame]].
      rewrite Hstep in H. destruct (IH _ _ _ _ _ _ _ H) as [Hkeys Ht].
      split; [| exact Ht]. now rewrite Hkeys, Hsame.
Qed.

Lemma parseTextMenu_keys : forall text menuType t,
  map itemKey (fst (parseTextMenu clock text menuType t))
  = openedItems clock menuType 0 t (filter nonBlank (split_lines text))
  /\ snd (parseTextMenu clock text menuType t)
     = (t + 3 * List.length (filter isPriceLine (filter nonBlank (split_lines text))))%nat.
Proof.
  intros text menuType t. unfold parseTextMenu.
  destruct (textLoop clock menuType (filter nonBlank (split_lines text)) 0 ([], None, t))
    as [[items cur] t'] eqn:H.
  apply textLoop_openedItems in H. exact H.
Qed.



(** ** The final filter *)

Lemma filterDrafts_spec : forall items out,
  filterDrafts conv items = Ok out ->
  out = filter (keeps conv) items
  /\ Forall (fun item => exists b, keepDraft conv item = Ok b) items.
Proof.
  induction items as [| item rest IH]; intros out H; simpl in H.
  - inversion H. split; [reflexivity | constructor].
  - unfold keeps. simpl.
    destruct (keepDraft conv item) as [b | e] eqn:Hk; simpl in H; [| discriminate H].
    destruct (filterDrafts conv rest) as [rest' | e] eqn:Hr; simpl in H; [| discriminate H].
    destruct (IH rest' eq_refl) as [Hrest Hall].
    inversion H; subst out. split.
    + destruct b; now rewrite Hrest.
    + constructor; [now exists b | exact Hall].
Qed.

Lemma filterDrafts_strings : forall items,
  Forall (fun item => exists s, name item = JStr s) items ->
  exists out, filterDrafts conv items = Ok out.
Proof.
  induction 1 as [| item rest [s Hs] _ [out IH]]; simpl.
  - now exists [].
  - rewrite (keepDraft_string item s Hs), IH. simpl. eexists. reflexivity.
Qed.

Lemma keepDraft_true : forall item,
  keepDraft conv item = Ok true ->
  truthy (name item) = true
  /\ forall s, name item = JStr s -> (2 < String.length s)%nat.
Proof.
  intros item H. split.
  - unfold keepDraft in H. destruct (truthy (name item)); [reflexivity | discriminate H].
  - intros s Hs. rewrite (keepDraft_string item s Hs) in H.
    inversion H as [Hlt]. now apply Nat.ltb_lt.
Qed.

Lemma keeps_true : forall item, keeps conv item = true -> keepDraft conv item = Ok true.
Proof.
  intros item H. unfold keeps in H.
  destruct (keepDraft conv item) as [[|] | e]; [reflexivity | discriminate H | discriminate H].
Qed.

(** ** The two branches of the extraction *)

Lemma extractDrafts_structured : forall ocrData menuType t x l,
  structuredRecords ocrData = x :: l ->
  extractDrafts conv clock ocrData menuType t
  = forEachStructured conv clock menuType (x :: l) 0 [] t.
Proof.
  intros ocrData menuType t x l H. unfold extractDrafts, structuredRecords in *.
  destruct ocrData; try discriminate H; cbn [get bind] in *;
    match type of H with
    | match ?v with _ => _ end = _ =>
        destruct v as [| | ? | ? | ? | [| y ys] | ?]; try discriminate H;
        inversion H; subst; reflexivity
    end.
Qed.

Lemma extractDrafts_fallback : forall ocrData menuType t item,
  structuredRecords ocrData = [] ->
  In item (fst (fst (extractDrafts conv clock ocrData menuType t))) ->
  exists text, In item (fst (parseTextMenu clock text menuType t)).
Proof.
  intros ocrData menuType t item H Hin. unfold extractDrafts, structuredRecords in *.
  destruct ocrData; cbn [get bind] in *; try (now destruct Hin);
    match type of H with
    | match ?v with _ => _ end = _ =>
        destruct v as [| | ? | ? | ? | [| y ys] | ?]; try discriminate H
    end;
    match type of Hin with
    | context [match ?e with JStr _ => _ | _ => _ end] =>
        destruct e as [| | ? | ? | text | ? | ?]; try (now destruct Hin)
    end;
    exists text; destruct (parseTextMenu clock text menuType t); exact Hin.
Qed.

(** The callback of the filter on a name that is not an object. *)
Lemma keepDraft_longName : forall item,
  isObject (name item) = false ->
  keepDraft conv item = Ok (longName (name item)).
Proof.
  intros item H. destruct (name item) as [| | b | n | s | l | props] eqn:E;
    try discriminate H.
  - unfold keepDraft. now rewrite E.
  - unfold keepDraft. now rewrite E.
  - unfold keepDraft. rewrite E. destruct b; reflexivity.
  - unfold keepDraft. rewrite E. cbn [truthy]. destruct (num_truthy n); reflexivity.
  - apply (keepDraft_string item s E).
  - unfold keepDraft. rewrite E. cbn [truthy get String.eqb Ascii.eqb Bool.eqb bind longName].
    apply greaterThan2_nat.
Qed.

Lemma keeps_longName : forall item,
  isObject (name item) = false -> keeps conv item = longName (name item).
Proof.
  intros item H. unfold keeps. rewrite (keepDraft_longName item H).
  now destruct (longName (name item)).
Qed.

(** C1, amended: whenever [parseOCRResults] returns, its output is the
    sequence of the extracted drafts that pass [item.name && item.name.length
    > 2], in extraction order.  An extracted draft whose name is a string is
    in the output exactly when the string has more than two code units,
    counted without trimming (an array name: more than two elements; any
    other name that is not an object: never).  On the fallback
    path every extracted name is a trimmed string, so there the output is
    exactly the drafts whose trimmed name has more than two code units. *)
Theorem parseOCRResults_filters_names :
  forall (ocrData : JsVal) (menuType : string) (t : nat) (out : list MenuItemDraft),
    resultOf (parseOCRResults conv clock ocrData menuType t) = Ok out ->
    let items := fst (fst (extractDrafts conv clock ocrData menuType t)) in
    out = filter (keeps conv) items
    /\ (forall item s, In item items -> name item = JStr s ->
          (In item out <-> (2 < String.length s)%nat))
    /\ (forall item, isObject (name item) = false ->
          keeps conv item = longName (name item))
    /\ (Forall (fun item => isObject (name item) = false) items ->
        out = filter (fun item => longName (name item)) items)
    /\ Forall (fun item =>
                 truthy (name item) = true
                 /\ forall s, name item = JStr s -> (2 < String.length s)%nat) out
    /\ (structuredRecords ocrData = [] ->
        Forall (fun item => exists s, name item = JStr s /\ trim s = s) items
        /\ out = filter (fun item => longTrimmedName (name item)) items
        /\ Forall (fun item =>
                     exists s, name item = JStr s /\ (2 < String.length (trim s))%nat)
                  out).
Proof.
  intros ocrData menuType t out H items.
  unfold parseOCRResults, resultOf in H. subst items.
  destruct (extractDrafts conv clock ocrData menuType t) as [[items caught] t'] eqn:Hex.
  simpl in H. simpl fst.
  destruct (filterDrafts_spec items out H) as [Hout _].
  assert (Hkept : forall item, In item out -> In item items /\ keepDraft conv item = Ok true).
  { intros item Hin. rewrite Hout in Hin. apply filter_In in Hin.
    destruct Hin as [Hin Hk]. split; [exact Hin | now apply keeps_true]. }
  assert (Hfallback : structuredRecords ocrData = [] ->
            Forall (fun item => exists s, name item = JStr s /\ trim s = s) items).
  { intro Hfb. apply Forall_forall. intros item Hin.
    destruct (extractDrafts_fallback ocrData menuType t item Hfb) as [text Htext].
    { rewrite Hex. exact Hin. }
    destruct (parseTextMenu_openedAt text menuType t item Htext)
      as [_ [_ [_ [Hname _]]]].
    exact Hname. }
  split; [exact Hout|]. split.
  { intros item s Hin Hs. rewrite Hout, filter_In.
    rewrite keeps_longName by (now rewrite Hs). rewrite Hs. cbn [longName].
    rewrite Nat.ltb_lt. tauto. }
  split; [exact keeps_longName|]. split.
  { intro Hno. rewrite Hout. apply filter_ext_in. intros item Hin.
    rewrite Forall_forall in Hno. apply keeps_longName. now apply Hno. }
  split.
  - apply Forall_forall. intros item Hin.
    apply keepDraft_true. now apply Hkept.
  - intros Hfb. pose proof (Hfallback Hfb) as Hnames. split; [exact Hnames|].
    rewrite Forall_forall in Hnames. split.
    + rewrite Hout. apply filter_ext_in. intros item Hin.
      destruct (Hnames item Hin) as [s [Hs Htrim]].
      rewrite keeps_longName by (now rewrite Hs).
      rewrite Hs. cbn [longName longTrimmedName]. now rewrite Htrim.
    + apply Forall_forall. intros item Hin.
      destruct (Hkept item Hin) as [Hit Hk].
      destruct (Hnames item Hit) as [s [Hs Htrim]].
      exists s. split; [exact Hs|]. rewrite Htrim.
      now apply (keepDraft_true item Hk).
Qed.

(** ** The structured path *)

Lemma structuredItem_name : forall menuType record index t item t',
  structuredItem conv clock menuType record index t = (Ok item, t') ->
  name item
  = or_else (or_else (field record "name") (field record "title"))
            (JStr ("Item " ++ string_of_nat (index + 1))).
Proof.
  intros menuType record index t item t' H. unfold structuredItem, field in *.
  destruct (get record "name") as [nm | e]; cbn [bind] in H; [| discriminate H].
  destruct (get record "title") as [title | e]; cbn [bind] in H; [| discriminate H].
  destruct (get record "description") as [d1 | e]; cbn [bind] in H; [| discriminate H].
  destruct (get record "desc") as [d2 | e]; cbn [bind] in H; [| discriminate H].
  destruct (get record "price") as [p | e]; cbn [bind] in H; [| discriminate H].
  destruct (parsePrice conv p) as [pr | e]; cbn [bind] in H; [| discriminate H].
  destruct (get record "category") as [c | e]; cbn [bind] in H; [| discriminate H].
  destruct (determineTags conv record menuType) as [tg | e]; cbn [bind] in H;
    [| discriminate H].
  inversion H; subst. reflexivity.
Qed.

(** The try block over the structured records: the drafts it leaves are
    those of the longest run of records, from the first, whose extraction
    does not throw; it stops at the first record that throws. *)
Lemma forEachStructured_prefix : forall menuType l index acc t items caught t',
  forEachStructured conv clock menuType l index acc t = (items, caught, t') ->
  exists done rest drafts,
    l = (done ++ rest)%list
    /\ items = (acc ++ drafts)%list
    /\ List.length drafts = List.length done
    /\ (forall j record, nth_error done j = Some record ->
          exists item tj tj',
            nth_error drafts j = Some item
            /\ structuredItem conv clock menuType record (index + j) tj = (Ok item, tj'))
    /\ match caught with
       | None => rest = []
       | Some e =>
           exists record rest' tj tj',
             rest = record :: rest'
             /\ structuredItem conv clock menuType record (index + List.length done) tj
                = (Throw e, tj')
       end.
Proof.
  intros menuType l. induction l as [| r l IH]; intros index acc t items caught t' H.
  - simpl in H. inversion H; subst. exists [], [], [].
    repeat split; try reflexivity; [now rewrite app_nil_r|].
    intros [| j] record Hj; discriminate Hj.
  - cbn [forEachStructured] in H.
    destruct (structuredItem conv clock menuType r index t) as [[d | e] t1] eqn:Hd.
    + destruct (IH (S index) (acc ++ [d])%list t1 items caught t' H)
        as [done [rest [drafts [Hl [Hitems [Hlen [Hnth Hcaught]]]]]]].
      exists (r :: done), rest, (d :: drafts).
      split; [simpl; now rewrite Hl|].
      split; [rewrite Hitems, <- app_assoc; reflexivity|].
      split; [simpl; now rewrite Hlen|]. split.
      * intros [| j] record Hj; simpl in Hj.
        -- inversion Hj; subst record. exists d, t, t1. split; [reflexivity|].
           now rewrite Nat.add_0_r.
        -- destruct (Hnth j record Hj) as [item [tj [tj' [Hn Hs]]]].
           exists item, tj, tj'. split; [exact Hn|].
           now replace (index + S j)%nat with (S index + j)%nat by lia.
      * destruct caught as [e |]; [| exact Hcaught].
        destruct Hcaught as [record [rest' [tj [tj' [Hrest Hthrow]]]]].
        exists record, rest', tj, tj'. split; [exact Hrest|].
        simpl List.length.
        now replace (index + S (List.length done))%nat
          with (S index + List.length done)%nat by lia.
    + inversion H; subst. exists [], (r :: l), [].
      split; [reflexivity|]. split; [now rewrite app_nil_r|].
      split; [reflexivity|]. split.
      * intros [| j] record Hj; discriminate Hj.
      * exists r, l. do 2 eexists. split; [reflexivity|].
        simpl List.length. rewrite Nat.add_0_r. exact Hd.
Qed.

Lemma keepDraft_placeholder : forall item n,
  name item = JStr ("Item " ++ string_of_nat n) ->
  keepDraft conv item = Ok true.
Proof.
  intros item n H. rewrite (keepDraft_string item _ H). reflexivity.
Qed.

(** The extraction of a record throws exactly when [recordExtracts] is
    false, whatever the index and the clock count. *)
Lemma structuredItem_extracts : forall menuType record index t,
  recordExtracts conv record = true ->
  exists item, structuredItem conv clock menuType record index t = (Ok item, (t + 3)%nat).
Proof.
  intros menuType record index t H. unfold recordExtracts, field in H.
  unfold structuredItem, determineTags.
  destruct record; try discriminate H; cbn [get] in H; cbn [get bind];
    apply andb_true_iff in H; destruct H as [H H3];
    apply andb_true_iff in H; destruct H as [H1 H2];
    match type of H1 with is_ok ?r = true => destruct r; [| discriminate H1] end;
    match type of H2 with is_ok ?r = true => destruct r; [| discriminate H2] end;
    match type of H3 with is_ok ?r = true => destruct r; [| discriminate H3] end;
    cbn [bind]; eexists; reflexivity.
Qed.

Lemma structuredItem_throws : forall menuType record index t e t',
  structuredItem conv clock menuType record index t = (Throw e, t') ->
  recordExtracts conv record = false.
Proof.
  intros menuType record index t e t' H.
  destruct (recordExtracts conv record) eqn:E; [| reflexivity].
  destruct (structuredItem_extracts menuType record index t E) as [item Hitem].
  rewrite Hitem in H. discriminate H.
Qed.

(** A record that the loop reaches with every record up to it extracting
    without an exception has its draft at its own position. *)
Lemma forEachStructured_reached : forall menuType l items caught t t' i record,
  forEachStructured conv clock menuType l 0 [] t = (items, caught, t') ->
  nth_error l i = Some record ->
  (forall j r, (j <= i)%nat -> nth_error l j = Some r -> recordExtracts conv r = true) ->
  exists item tj tj',
    nth_error items i = Some item
    /\ structuredItem conv clock menuType record i tj = (Ok item, tj').
Proof.
  intros menuType l items caught t t' i record H Hi Hall.
  destruct (forEachStructured_prefix menuType l 0 [] t items caught t' H)
    as [done [rest [drafts [Hl [Hitems [Hlen [Hnth Hcaught]]]]]]].
  simpl in Hitems. subst drafts.
  destruct (Nat.lt_ge_cases i (List.length done)) as [Hlt | Hge].
  - assert (Hd : nth_error done i = Some record).
    { rewrite Hl in Hi. now rewrite nth_error_app1 in Hi. }
    destruct (Hnth i record Hd) as [item [tj [tj' [Hn Hs]]]].
    exists item, tj, tj'. split; [exact Hn | exact Hs].
  - exfalso. destruct caught as [e |].
    + destruct Hcaught as [r [rest' [tj [tj' [Hrest Hthrow]]]]].
      apply structuredItem_throws in Hthrow.
      rewrite (Hall (List.length done) r Hge) in Hthrow; [discriminate Hthrow|].
      rewrite Hl, Hrest, nth_error_app2 by lia.
      now rewrite Nat.sub_diag.
    + subst rest. rewrite app_nil_r in Hl. subst l.
      apply nth_error_None in Hge. rewrite Hge in Hi. discriminate Hi.
Qed.

(** C10, amended: in the structured path, take a record that the loop
    reaches: neither it nor any record before it makes the extraction throw
    ([recordExtracts]).  Its draft stands at the record's own position among
    the extracted drafts.  When the record's [name] and [title] are both
    absent or falsy the draft is named ["Item <1-based position>"] and,
    whenever the final filter returns, it is in the output.  A draft that is
    not in the output comes from a record with a truthy [name] or [title],
    carries that value as its name, and fails the length test (a string name
    has at most two code units). *)
Theorem placeholder_names_survive :
  forall (ocrData : JsVal) (menuType : string) (t : nat) (out : list MenuItemDraft)
         (i : nat) (record : JsVal),
    resultOf (parseOCRResults conv clock ocrData menuType t) = Ok out ->
    nth_error (structuredRecords ocrData) i = Some record ->
    (forall j r, (j <= i)%nat -> nth_error (structuredRecords ocrData) j = Some r ->
                 recordExtracts conv r = true) ->
    exists item,
      nth_error (fst (fst (extractDrafts conv clock ocrData menuType t))) i = Some item
      /\ (recordNameless record = true ->
          name item = JStr ("Item " ++ string_of_nat (i + 1)) /\ In item out)
      /\ (~ In item out ->
          recordNameless record = false
          /\ name item = or_else (field record "name") (field record "title")
          /\ keepDraft conv item = Ok false
          /\ forall s, name item = JStr s -> (String.length s <= 2)%nat).
Proof.
  intros ocrData menuType t out i record Hres Hi Hall.
  destruct (structuredRecords ocrData) as [| x l] eqn:Hrec;
    [destruct i; discriminate Hi|].
  unfold parseOCRResults, resultOf in Hres.
  rewrite (extractDrafts_structured ocrData menuType t x l Hrec) in *.
  destruct (forEachStructured conv clock menuType (x :: l) 0 [] t)
    as [[items caught] t'] eqn:Hex.
  cbn [fst snd] in *.
  destruct (forEachStructured_reached menuType (x :: l) items caught t t' i record
              Hex Hi Hall) as [item [tj [tj' [Hn Hs]]]].
  apply structuredItem_name in Hs.
  destruct (filterDrafts_spec items out Hres) as [Hout Hok].
  assert (Hin : In item items) by (eapply nth_error_In; exact Hn).
  exists item. split; [exact Hn|].
  assert (Hplace : recordNameless record = true ->
                   name item = JStr ("Item " ++ string_of_nat (i + 1)) /\ In item out).
  { intro Hnl. unfold recordNameless in Hnl.
    apply andb_true_iff in Hnl. destruct Hnl as [H1 H2].
    apply negb_true_iff in H1. apply negb_true_iff in H2.
    assert (Hname : name item = JStr ("Item " ++ string_of_nat (i + 1))).
    { rewrite Hs. unfold or_else. rewrite H1, H2. reflexivity. }
    split; [exact Hname|].
    rewrite Hout. apply filter_In. split; [exact Hin|].
    unfold keeps. now rewrite (keepDraft_placeholder item _ Hname). }
  split; [exact Hplace|].
  intro Hnot.
  assert (Hnl : recordNameless record = false).
  { destruct (recordNameless record); [| reflexivity].
    exfalso. apply Hnot. now apply Hplace. }
  assert (Hk : keepDraft conv item = Ok false).
  { rewrite Forall_forall in Hok. destruct (Hok item Hin) as [[|] Hb]; [| exact Hb].
    exfalso. apply Hnot. rewrite Hout. apply filter_In. split; [exact Hin|].
    unfold keeps. now rewrite Hb. }
  split; [exact Hnl|]. split.
  - rewrite Hs. unfold recordNameless in Hnl. unfold or_else.
    destruct (truthy (field record "name")) eqn:E1; cbv iota; [now rewrite E1|].
    destruct (truthy (field record "title")) eqn:E2; [reflexivity | discriminate Hnl].
  - split; [exact Hk|].
    intros s Hstr. rewrite (keepDraft_string item s Hstr) in Hk.
    inversion Hk as [Hlt]. apply Nat.ltb_ge in Hlt. exact Hlt.
Qed.

End Properties.

(** * The properties on concrete inputs *)




(** C1 as stated fails: a structured record named [" a "] yields a draft that
    the filter keeps, although its trimmed name has one code unit. *)
Lemma padded_name_kept :
  ~ (forall (ocrData : JsVal) (menuType : string) (t : nat) (out : list MenuItemDraft),
        resultOf (parseOCRResults decimalConversions tickingClock ocrData menuType t)
        = Ok out ->
        Forall (fun item =>
                  truthy (name item) = true
                  /\ forall s, name item = JStr s -> (2 < String.length (trim s))%nat)
               out).
Proof.
  intro H.
  specialize (H paddedNamePayload "wine_list" 0%nat _ eq_refl).
  inversion H as [| item rest [_ Hlen] _]. subst.
  specialize (Hlen " a " eq_refl). vm_compute in Hlen. lia.
Qed.

(** C1, amended, on a structured payload with one short and one long name,
    and on a text whose first price line has a name of two code units. *)
Lemma parseOCRResults_filters_names_witness :
  (resultOf (parseOCRResults decimalConversions tickingClock shortAndLongPayload
               "wine_list" 0)
   = Ok [merlotItem]
   /\ (let items :=
         fst (fst (extractDrafts decimalConversions tickingClock shortAndLongPayload
                     "wine_list" 0)) in
       [merlotItem] = filter (keeps decimalConversions) items
       /\ (forall item s, In item items -> name item = JStr s ->
             (In item [merlotItem] <-> (2 < String.length s)%nat))
       /\ (forall item, isObject (name item) = false ->
             keeps decimalConversions item = longName (name item))
       /\ (Forall (fun item => isObject (name item) = false) items ->
           [merlotItem] = filter (fun item => longName (name item)) items)
       /\ Forall (fun item =>
                    truthy (name item) = true
                    /\ forall s, name item = JStr s -> (2 < String.length s)%nat)
                 [merlotItem]
       /\ (structuredRecords shortAndLongPayload = [] ->
           Forall (fun item => exists s, name item = JStr s /\ trim s = s) items
           /\ [merlotItem] = filter (fun item => longTrimmedName (name item)) items
           /\ Forall (fun item =>
                        exists s, name item = JStr s
                                  /\ (2 < String.length (trim s))%nat)
                     [merlotItem])))
  /\ (resultOf (parseOCRResults decimalConversions tickingClock shortAndLongTextPayload
                  "wine_list" 0)
      = Ok [negroniItem]
      /\ structuredRecords shortAndLongTextPayload = []
      /\ Forall (fun item => exists s, name item = JStr s /\ trim s = s)
                [shortTextItem; negroniItem]
      /\ [negroniItem]
         = filter (fun item => longTrimmedName (name item)) [shortTextItem; negroniItem]
      /\ Forall (fun item =>
                   exists s, name item = JStr s /\ (2 < String.length (trim s))%nat)
                [negroniItem]).
Proof.
  split.
  - split; [reflexivity|].
    apply (parseOCRResults_filters_names decimalConversions tickingClock
             shortAndLongPayload "wine_list" 0 [merlotItem]).
    reflexivity.
  - split; [reflexivity|]. split; [reflexivity|].
    apply (parseOCRResults_filters_names decimalConversions tickingClock
             shortAndLongTextPayload "wine_list" 0 [negroniItem] eq_refl).
    reflexivity.
Defined.

(** C2 on a store that refuses the audit record. *)
Lemma bulkUpsert_audits_once_witness :
  upsert_menu_items auditFailingStore [merlotItem] = Resolved (Some [merlotItem]) None
  /\ (let out := bulkUpsertMenuItems tickingClock auditFailingStore [merlotItem]
                   "u-1" "wine_list" 7 in
      resultOf out = Ok (Some [merlotItem])
      /\ auditRecords (traceOf out)
         = [MenuUpdate.mk "u-1" "wine_list" "bulk_update" (List.length [merlotItem])
                          (map id [merlotItem]) (tickingClock 7)]
      /\ forall db' : Store,
           upsert_menu_items db' [merlotItem]
           = upsert_menu_items auditFailingStore [merlotItem] ->
           resultOf (bulkUpsertMenuItems tickingClock db' [merlotItem] "u-1" "wine_list" 7)
           = Ok (Some [merlotItem])).
Proof.
  split.
  - reflexivity.
  - apply (bulkUpsert_audits_once tickingClock auditFailingStore [merlotItem]
             "u-1" "wine_list" 7 (Some [merlotItem])).
    reflexivity.
Defined.

(** C3 at the failing input, with the menu type ["constructor"]. *)
Lemma inherited_menu_type_reaches_recognition_witness :
  In "constructor" objectPrototypeKeys
  /\ sharp (worldAnswering (JObj [])) sampleFile = Ok "base64"
  /\ (~ In "constructor" (map fst MENU_TYPE_MAPPING)
      /\ In EvRecognize
           (traceOf (processHandler decimalConversions tickingClock
                       (worldAnswering (JObj []))
                       {| file := Some sampleFile;
                          body_menuType := Some "constructor";
                          user := sampleUser |} 0))).
Proof.
  split; [left; reflexivity|]. split; [reflexivity|].
  apply (inherited_menu_type_reaches_recognition decimalConversions tickingClock
           (worldAnswering (JObj [])) sampleFile sampleUser "constructor" 0 "base64").
  - left. reflexivity.
  - reflexivity.
Defined.

(** C4 at the failing input: the recognition service answers [null]. *)
Lemma null_payload_raises_witness :
  "wine_list" <> ""
  /\ lookupTruthy (lookupMenuType "wine_list") = true
  /\ sharp (worldAnswering JNull) sampleFile = Ok "base64"
  /\ fetchOCR (worldAnswering JNull) "base64" = Ok (okResponse JNull)
  /\ resp_ok (okResponse JNull) = true
  /\ resp_json (okResponse JNull) = Ok JNull
  /\ (let out := processHandler decimalConversions tickingClock (worldAnswering JNull)
                   {| file := Some sampleFile;
                      body_menuType := Some "wine_list";
                      user := sampleUser |} 0 in
      resultOf (parseOCRResults decimalConversions tickingClock JNull "wine_list" 1)
      = Ok []
      /\ (exists msg, resultOf out = Throw (TypeError msg))
      /\ (exists msg, In (EvAlert msg "critical") (traceOf out))
      /\ forall ev, In ev (traceOf out) -> isRespond ev = false /\ isUpsert ev = false).
Proof.
  split; [discriminate|]. split; [reflexivity|]. split; [reflexivity|].
  split; [reflexivity|]. split; [reflexivity|]. split; [reflexivity|].
  apply (null_payload_raises decimalConversions tickingClock (worldAnswering JNull)
           sampleFile sampleUser "wine_list" 0 "base64" (okResponse JNull));
    first [discriminate | reflexivity].
Defined.

(** C5 as stated fails: the number [Infinity], which [JSON.parse] yields for
    a literal such as [1e999], is returned unchanged, where the reference
    definition gives an absent price. *)
Lemma infinite_price_returned :
  ~ (forall v, isPriceInput v = true ->
       parsePrice decimalConversions v = Ok (PriceNormalizer_reference v)).
Proof.
  intro H. specialize (H (JNum (Infinity false)) eq_refl). discriminate H.
Qed.

(** C5, amended, at the number [Infinity]. *)
Lemma parsePrice_cases_witness :
  isPriceInput (JNum (Infinity false)) = true
  /\ (parsePrice decimalConversions (JNum (Infinity false)) = Ok (Some (Infinity false))
      /\ parsePrice decimalConversions (JStr "$14.00") = Ok (Some (Finite (14 # 1)))
      /\ parsePrice decimalConversions (JStr "") = Ok None
      /\ parsePrice decimalConversions (JNum (Finite (12 # 1)))
         = Ok (Some (Finite (12 # 1)))
      /\ parsePrice decimalConversions (JStr "N/A") = Ok None).
Proof.
  split.
  - reflexivity.
  - apply (parsePrice_cases decimalConversions (JNum (Infinity false))). reflexivity.
Defined.

(** C7 as stated fails: the tags of ["Estate Reserve Cabernet"] for
    [wine_list] do not include ["red"]. *)
Lemma estate_reserve_not_red :
  ~ (exists tags,
        determineTags decimalConversions
          (JObj [("name", JStr "Estate Reserve Cabernet")]) "wine_list" = Ok tags
        /\ In "reserve" tags /\ In "red" tags).
Proof.
  intros [tags [H [_ Hred]]].
  rewrite tags_estate_reserve_cabernet in H. inversion H; subst tags.
  destruct Hred as [Hred | []]. discriminate Hred.
Qed.



(** C10 as stated fails: in [{"items":[null,{}]}] the second record has
    neither name nor title, and no draft named ["Item 2"] is returned: reading
    [name] of [null] ends the loop before the record is reached. *)
Lemma nameless_record_lost_after_exception :
  ~ (forall (ocrData : JsVal) (menuType : string) (t i : nat) (record : JsVal),
        nth_error (structuredRecords ocrData) i = Some record ->
        recordNameless record = true ->
        exists out item,
          resultOf (parseOCRResults decimalConversions tickingClock ocrData menuType t)
          = Ok out
          /\ In item out
          /\ name item = JStr ("Item " ++ string_of_nat (i + 1))).
Proof.
  intro H.
  destruct (H nullThenEmptyPayload "wine_list" 0%nat 1%nat (JObj []) eq_refl eq_refl)
    as [out [item [Hres [Hin _]]]].
  vm_compute in Hres. inversion Hres; subst out. destruct Hin.
Qed.

(** C10, amended, on [namelessShortNullPayload], whose third record makes
    the extraction throw: at its first record, which has no name and is
    returned as ["Item 1"], and at its second, whose name of two code units is
    dropped. *)
Lemma placeholder_names_survive_witness :
  (resultOf (parseOCRResults decimalConversions tickingClock namelessShortNullPayload
               "wine_list" 0)
   = Ok [placeholderItem]
   /\ nth_error (structuredRecords namelessShortNullPayload) 0 = Some (JObj [])
   /\ (forall j r, (j <= 0)%nat ->
         nth_error (structuredRecords namelessShortNullPayload) j = Some r ->
         recordExtracts decimalConversions r = true)
   /\ recordNameless (JObj []) = true
   /\ exists item,
        nth_error (fst (fst (extractDrafts decimalConversions tickingClock
                               namelessShortNullPayload "wine_list" 0))) 0
        = Some item
        /\ (recordNameless (JObj []) = true ->
            name item = JStr ("Item " ++ string_of_nat (0 + 1))
            /\ In item [placeholderItem])
        /\ (~ In item [placeholderItem] ->
            recordNameless (JObj []) = false
            /\ name item = or_else (field (JObj []) "name") (field (JObj []) "title")
            /\ keepDraft decimalConversions item = Ok false
            /\ forall s, name item = JStr s -> (String.length s <= 2)%nat))
  /\ (nth_error (structuredRecords namelessShortNullPayload) 1
      = Some (JObj [("name", JStr "ab")])
      /\ (forall j r, (j <= 1)%nat ->
            nth_error (structuredRecords namelessShortNullPayload) j = Some r ->
            recordExtracts decimalConversions r = true)
      /\ nth_error (structuredRecords namelessShortNullPayload) 2 = Some JNull
      /\ recordExtracts decimalConversions JNull = false
      /\ exists item,
           nth_error (fst (fst (extractDrafts decimalConversions tickingClock
                                  namelessShortNullPayload "wine_list" 0))) 1
           = Some item
           /\ (recordNameless (JObj [("name", JStr "ab")]) = true ->
               name item = JStr ("Item " ++ string_of_nat (1 + 1))
               /\ In item [placeholderItem])
           /\ (~ In item [placeholderItem] ->
               recordNameless (JObj [("name", JStr "ab")]) = false
               /\ name item
                  = or_else (field (JObj [("name", JStr "ab")]) "name")
                            (field (JObj [("name", JStr "ab")]) "title")
               /\ keepDraft decimalConversions item = Ok false
               /\ forall s, name item = JStr s -> (String.length s <= 2)%nat)).
Proof.
  assert (H0 : forall j r, (j <= 0)%nat ->
             nth_error (structuredRecords namelessShortNullPayload) j = Some r ->
             recordExtracts decimalConversions r = true).
  { intros [| j] r Hj Hr; [| lia]. inversion Hr. reflexivity. }
  assert (H1 : forall j r, (j <= 1)%nat ->
             nth_error (structuredRecords namelessShortNullPayload) j = Some r ->
             recordExtracts decimalConversions r = true).
  { intros [| [| j]] r Hj Hr; [| | lia]; inversion Hr; reflexivity. }
  split.
  - split; [reflexivity|]. split; [reflexivity|]. split; [exact H0|].
    split; [reflexivity|].
    exact (placeholder_names_survive decimalConversions tickingClock
             namelessShortNullPayload "wine_list" 0 [placeholderItem] 0 (JObj [])
             eq_refl eq_refl H0).
  - split; [reflexivity|]. split; [exact H1|]. split; [reflexivity|].
    split; [reflexivity|].
    exact (placeholder_names_survive decimalConversions tickingClock
             namelessShortNullPayload "wine_list" 0 [placeholderItem] 1
             (JObj [("name", JStr "ab")]) eq_refl eq_refl H1).
Defined.

(** * Further properties *)

Section ParserProperties.

Variable conv : Conversions.
Variable clock : nat -> Z.


(** ** Text without a dollar sign *)

Lemma priceAt_dollar : forall a r cap,
  priceAt (String a r) = Some cap -> a = "$"%char.
Proof.
  intros a r cap. unfold priceAt.
  destruct a as [[|] [|] [|] [|] [|] [|] [|] [|]]; intro H;
    try discriminate H; reflexivity.
Qed.

Lemma matchPrice_containsChar : forall s cap,
  matchPrice s = Some cap -> containsChar "$" s = true.
Proof.
  induction s as [| a r IH]; intros cap H.
  - discriminate H.
  - cbn [matchPrice] in H. destruct (priceAt (String a r)) as [c |] eqn:E.
    + apply priceAt_dollar in E. subst a. reflexivity.
    + simpl. rewrite (IH cap H). apply orb_true_r.
Qed.

Lemma containsChar_trimStart : forall c s,
  containsChar c (trimStart s) = true -> containsChar c s = true.
Proof.
  induction s as [| a r IH]; intro H; [exact H|].
  simpl in H. destruct (isWhiteSpace a); [| exact H].
  simpl. rewrite (IH H). apply orb_true_r.
Qed.

Lemma containsChar_trimEnd : forall c s,
  containsChar c (trimEnd s) = true -> containsChar c s = true.
Proof.
  induction s as [| a r IH]; intro H; [exact H|].
  simpl in H. destruct (trimEnd r) as [| b r'] eqn:E.
  - destruct (isWhiteSpace a); [discriminate H|].
    simpl in H. simpl. rewrite orb_false_r in H. now rewrite H.
  - cbn [containsChar] in H. cbn [containsChar].
    destruct (Ascii.eqb a c); [reflexivity|]. cbn [orb] in *. now apply IH.
Qed.

Lemma containsChar_split_lines : forall c text line,
  In line (split_lines text) ->
  containsChar c line = true -> containsChar c text = true.
Proof.
  induction text as [| a r IH]; intros line Hin Hc.
  - simpl in Hin. destruct Hin as [<- | []]. exact Hc.
  - cbn [split_lines] in Hin. destruct (code a =? 10)%N.
    + destruct Hin as [<- | Hin]; [discriminate Hc|].
      simpl. rewrite (IH line Hin Hc). apply orb_true_r.
    + destruct (split_lines r) as [| l ls] eqn:E.
      * destruct Hin as [<- | []]. simpl in Hc. rewrite orb_false_r in Hc.
        simpl. now rewrite Hc.
      * destruct Hin as [<- | Hin].
        -- cbn [containsChar] in Hc. cbn [containsChar].
           destruct (Ascii.eqb a c); [reflexivity|]. cbn [orb] in *.
           apply (IH l); [now left | exact Hc].
        -- simpl. rewrite (IH line); [apply orb_true_r | now right | exact Hc].
Qed.

Lemma isPriceLine_containsChar : forall line,
  isPriceLine line = true -> containsChar "$" line = true.
Proof.
  intros line H. unfold isPriceLine in H.
  destruct (matchPrice (trim line)) as [cap |] eqn:E; [| discriminate H].
  apply matchPrice_containsChar in E.
  now apply containsChar_trimStart, containsChar_trimEnd.
Qed.

Lemma openedItems_no_price_line : forall menuType lines index t,
  Forall (fun line => isPriceLine line = false) lines ->
  openedItems clock menuType index t lines = []
  /\ filter isPriceLine lines = [].
Proof.
  intros menuType lines. induction lines as [| line rest IH]; intros index t H.
  - now split.
  - inversion H as [| ? ? Hl Hrest]; subst. simpl. rewrite Hl. now apply IH.
Qed.

(** X2: a text with no dollar sign yields no item, and the clock is not
    read. *)
Theorem parseTextMenu_without_dollar :
  forall (text menuType : string) (t : nat),
    containsChar "$" text = false ->
    parseTextMenu clock text menuType t = ([], t).
Proof.
  intros text menuType t H.
  destruct (parseTextMenu_keys clock text menuType t) as [Hkeys Ht].
  assert (Hno : Forall (fun line => isPriceLine line = false)
                       (filter nonBlank (split_lines text))).
  { apply Forall_forall. intros line Hin. apply filter_In in Hin.
    destruct Hin as [Hin _]. destruct (isPriceLine line) eqn:E; [| reflexivity].
    apply isPriceLine_containsChar in E.
    rewrite (containsChar_split_lines _ text line Hin E) in H. discriminate H. }
  destruct (openedItems_no_price_line menuType _ 0 t Hno) as [Ho Hf].
  rewrite Ho in Hkeys. rewrite Hf in Ht. simpl in Ht.
  destruct (parseTextMenu clock text menuType t) as [items t'].
  simpl in *. apply map_eq_nil in Hkeys. subst. f_equal. lia.
Qed.

(** ** Numbers read from digits and periods *)

Lemma takeDigits_allDigits : forall s, allDigits (fst (takeDigits s)) = true.
Proof.
  induction s as [| c r IH]; [reflexivity|].
  simpl. destruct (isDigit c) eqn:E; [| reflexivity].
  destruct (takeDigits r) as [d rest]. simpl in *. now rewrite E, IH.
Qed.

Lemma digitsValue_nonneg : forall s acc,
  allDigits s = true -> (0 <= acc)%Z -> (0 <= digitsValue acc s)%Z.
Proof.
  induction s as [| c r IH]; intros acc H Hacc; [exact Hacc|].
  simpl in H. apply andb_true_iff in H. destruct H as [Hc Hr].
  cbn [digitsValue]. apply IH; [exact Hr|].
  unfold isDigit in Hc. apply andb_true_iff in Hc. destruct Hc as [Hlo _].
  apply N.leb_le in Hlo. lia.
Qed.

(** [parseFloat] on a string that begins with a digit or a period: no white
    space to skip, no sign, no [Infinity]. *)
Lemma parseFloat_priceChar : forall c r,
  isPriceChar c = true ->
  parseFloat (String c r)
  = (let '(ip, r1) := takeDigits (String c r) in
     let '(fp, r2) :=
       match r1 with
       | String "." r' => takeDigits r'
       | _ => (EmptyString, r1)
       end in
     if (ip =? "") && (fp =? "") then NaN
     else
       let k := Z.of_nat (String.length fp) in
       let m := (digitsValue 0 ip * 10 ^ k + digitsValue 0 fp)%Z in
       toBinary64 (Qmake m (Z.to_pos (10 ^ k)) * Qpower (10 # 1) (parseExponent r2))).
Proof.
  intros c r.
  destruct c as [[|] [|] [|] [|] [|] [|] [|] [|]]; intro H;
    try discriminate H; reflexivity.
Qed.

Lemma roundPositive_notNegative : forall n d,
  (0 < n)%Z -> notNegative (roundPositive n d).
Proof.
  intros n d Hn. unfold roundPositive. cbv zeta.
  set (e := Z.max _ (-1074)).
  assert (Hm : forall num den, (0 <= num)%Z -> (0 < den)%Z ->
             (0 <= match (2 * (num mod den) ?= den)%Z with
                   | Lt => num / den
                   | Gt => num / den + 1
                   | Eq => if Z.even (num / den) then num / den else num / den + 1
                   end)%Z).
  { intros num den H1 H2. pose proof (Z.div_pos num den H1 H2).
    destruct (2 * (num mod den) ?= den)%Z; [destruct (Z.even (num / den)) | |]; lia. }
  destruct (0 <=? e)%Z eqn:He; cbv iota beta.
  - match goal with |- context [if ?c then Infinity false else _] => destruct c end;
      [reflexivity|].
    cbn [notNegative]. rewrite Qred_correct.
    apply Z.leb_le in He.
    unfold Qle, inject_Z. cbn [Qnum Qden].
    assert (0 < Z.pos d * 2 ^ e)%Z by (pose proof (Z.pow_pos_nonneg 2 e); lia).
    specialize (Hm n (Z.pos d * 2 ^ e)%Z).
    pose proof (Z.pow_nonneg 2 e). nia.
  - cbn [andb]. cbn [notNegative]. rewrite Qred_correct.
    unfold Qle. cbn [Qnum Qden].
    assert (0 <= n * 2 ^ (- e))%Z by (pose proof (Z.pow_nonneg 2 (- e)); nia).
    specialize (Hm (n * 2 ^ (- e))%Z (Z.pos d)). lia.
Qed.

(** Rounding keeps the sign: the Number value of a rational that is not
    negative is not negative, and may be [Infinity]. *)
Lemma toBinary64_notNegative : forall q, (0 <= q)%Q -> notNegative (toBinary64 q).
Proof.
  intros [n d] H. unfold toBinary64. cbn [Qnum Qden].
  destruct n as [| p | p].
  - cbn. unfold Qle. simpl. lia.
  - apply roundPositive_notNegative. lia.
  - unfold Qle in H. cbn in H. lia.
Qed.

Lemma parseFloat_priceChar_nonneg : forall c r,
  isPriceChar c = true ->
  parseFloat (String c r) = NaN \/ notNegative (parseFloat (String c r)).
Proof.
  intros c r H. rewrite (parseFloat_priceChar c r H).
  pose proof (takeDigits_allDigits (String c r)) as Hip.
  destruct (takeDigits (String c r)) as [ip r1]. cbn [fst] in Hip.
  assert (Hfp : forall fp r2,
             match r1 with
             | String "." r' => takeDigits r'
             | _ => (EmptyString, r1)
             end = (fp, r2) -> allDigits fp = true).
  { intros fp r2 E. destruct r1 as [| a r1']; [inversion E; reflexivity|].
    destruct a as [[|] [|] [|] [|] [|] [|] [|] [|]];
      try (inversion E; reflexivity).
    pose proof (takeDigits_allDigits r1') as Hd. rewrite E in Hd. exact Hd. }
  destruct (match r1 with
            | String "." r' => takeDigits r'
            | _ => (EmptyString, r1)
            end) as [fp r2] eqn:E.
  specialize (Hfp fp r2 eq_refl).
  destruct ((ip =? "") && (fp =? "")); [now left|].
  right. cbv zeta. apply toBinary64_notNegative. apply Qmult_le_0_compat.
  - unfold Qle. cbn [Qnum Qden].
    pose proof (digitsValue_nonneg ip 0 Hip (Z.le_refl 0)).
    pose proof (digitsValue_nonneg fp 0 Hfp (Z.le_refl 0)).
    assert (0 <= 10 ^ Z.of_nat (String.length fp))%Z by (apply Z.pow_nonneg; lia).
    nia.
  - apply Qpower_0_le. unfold Qle. simpl. lia.
Qed.

Lemma toBinary64_not_NaN : forall q, toBinary64 q <> NaN.
Proof.
  intros [n d]. unfold toBinary64, roundPositive. cbn [Qnum Qden]. cbv zeta.
  destruct n as [| p | p]; [discriminate | |];
    repeat match goal with
           | |- context [if ?c then _ else _] => destruct c
           | |- context [match ?c with Lt => _ | _ => _ end] => destruct c
           end; cbv iota beta; discriminate.
Qed.

Lemma parseFloat_digit_first : forall c r,
  isDigit c = true -> notNegative (parseFloat (String c r)).
Proof.
  intros c r H.
  assert (Hp : isPriceChar c = true) by (unfold isPriceChar; now rewrite H).
  destruct (parseFloat_priceChar_nonneg c r Hp) as [Hnan | Hq]; [| exact Hq].
  exfalso. rewrite (parseFloat_priceChar c r Hp) in Hnan.
  cbn [takeDigits] in Hnan. rewrite H in Hnan.
  destruct (takeDigits r) as [d rest].
  destruct (match rest with
            | String "." r' => takeDigits r'
            | _ => (EmptyString, rest)
            end) as [fp r2].
  cbn [String.eqb andb] in Hnan. cbv zeta in Hnan.
  exact (toBinary64_not_NaN _ Hnan).
Qed.

Lemma cleanPrice_head : forall s c r,
  cleanPrice s = String c r -> isPriceChar c = true.
Proof.
  induction s as [| a s IH]; intros c r H; [discriminate H|].
  simpl in H. destruct (isPriceChar a) eqn:E; [| now apply (IH c r)].
  inversion H; subst. exact E.
Qed.

Lemma parsePrice_not_number : forall v,
  isNumberValue v = false ->
  parsePrice conv v
  = if negb (truthy v) then Ok None
    else bind (toStringV conv v)
           (fun str =>
              Ok (if isNaN (parseFloat (cleanPrice str)) then None
                  else Some (parseFloat (cleanPrice str)))).
Proof. intros v H. destruct v; try discriminate H; reflexivity. Qed.

(** X5: for an input that is not a number, the price [parsePrice] returns,
    when it returns one, is never negative: a finite number greater than or
    equal to zero, or [Infinity] (a text with some hundreds of digits).  A
    sign or an exponent in the text is stripped before parsing and never
    read. *)
Theorem parsePrice_text_not_negative :
  forall (v : JsVal) (n : number),
    isNumberValue v = false ->
    parsePrice conv v = Ok (Some n) ->
    notNegative n.
Proof.
  intros v n Hv H. rewrite (parsePrice_not_number v Hv) in H.
  destruct (negb (truthy v)); [discriminate H|].
  destruct (toStringV conv v) as [str | e]; [| discriminate H].
  cbn [bind] in H.
  destruct (cleanPrice str) as [| c r] eqn:E; [discriminate H|].
  destruct (parseFloat_priceChar_nonneg c r (cleanPrice_head str c r E))
    as [Hnan | Hpos].
  - rewrite Hnan in H. discriminate H.
  - destruct (parseFloat (String c r)); [destruct Hpos | |];
      cbn [isNaN] in H; inversion H; subst; exact Hpos.
Qed.

Lemma cleanPrice_app : forall a b,
  cleanPrice (a ++ b) = cleanPrice a ++ cleanPrice b.
Proof.
  induction a as [| c a IH]; intro b; [reflexivity|].
  simpl. destruct (isPriceChar c); simpl; now rewrite IH.
Qed.

(** X6: a character that is neither a digit nor a period never changes the
    price read from a string, wherever it stands (currency symbols, thousands
    separators, units, signs, letters). *)
Theorem parsePrice_ignores_other_characters :
  forall (a b : string) (c : ascii),
    isPriceChar c = false ->
    parsePrice conv (JStr (a ++ String c b)) = parsePrice conv (JStr (a ++ b)).
Proof.
  intros a b c H. rewrite !parsePrice_string, !cleanPrice_app.
  cbn [cleanPrice]. now rewrite H.
Qed.

(** ** Names and prices of the fallback items *)

Lemma openedItems_in : forall menuType lines index t key,
  In key (openedItems clock menuType index t lines) ->
  exists line i tk,
    In line lines
    /\ isPriceLine line = true
    /\ lineName line <> ""
    /\ key = (makeId menuType "manual" (clock tk) i, JStr (lineName line), linePrice line).
Proof.
  intros menuType lines. induction lines as [| line rest IH]; intros index t key H.
  - destruct H.
  - cbn [openedItems] in H. destruct (isPriceLine line) eqn:Hp.
    + apply in_app_or in H. destruct H as [H | H].
      * destruct (String.eqb_spec (lineName line) "") as [E | E]; [destruct H|].
        destruct H as [<- | []].
        exists line, index, t. repeat split; [now left | exact Hp | exact E].
      * destruct (IH _ _ _ H) as [l [i [tk [Hin Hrest]]]].
        exists l, i, tk. split; [now right | exact Hrest].
    + destruct (IH _ _ _ H) as [l [i [tk [Hin Hrest]]]].
      exists l, i, tk. split; [now right | exact Hrest].
Qed.

Lemma takeDigits_head : forall s c d rest,
  takeDigits s = (String c d, rest) -> isDigit c = true.
Proof.
  intros [| a r] c d rest H; [discriminate H|].
  simpl in H. destruct (isDigit a) eqn:E; [| discriminate H].
  destruct (takeDigits r). inversion H; subst. exact E.
Qed.

Lemma priceAt_capture : forall s cap,
  priceAt s = Some cap -> exists c r, cap = String c r /\ isDigit c = true.
Proof.
  intros [| a r] cap H; [discriminate H|].
  pose proof (priceAt_dollar a r cap H) as ->.
  unfold priceAt in H. destruct (takeDigits r) as [d rest] eqn:E.
  destruct d as [| c d']; [discriminate H|].
  apply takeDigits_head in E.
  assert (Hcap : cap = String c d'
                 \/ exists x y, cap = String c d' ++ String "." (String x (String y ""))).
  { cbn [String.eqb] in H.
    destruct rest as [| p rest1]; [inversion H; now left|].
    destruct p as [[|] [|] [|] [|] [|] [|] [|] [|]]; try (inversion H; now left).
    destruct rest1 as [| x [| y rest']]; try (inversion H; now left).
    destruct (isDigit x && isDigit y); inversion H; [right; now exists x, y | now left]. }
  destruct Hcap as [-> | [x [y ->]]]; eexists; eexists; (split; [reflexivity | exact E]).
Qed.

Lemma matchPrice_capture : forall s cap,
  matchPrice s = Some cap -> exists c r, cap = String c r /\ isDigit c = true.
Proof.
  induction s as [| a r IH]; intros cap H.
  - discriminate H.
  - cbn [matchPrice] in H. destruct (priceAt (String a r)) as [c |] eqn:E.
    + inversion H; subst. now apply priceAt_capture in E.
    + now apply IH.
Qed.

(** X4: every item [parseTextMenu] returns has a name that is a non-empty
    string and a price that is a number, never absent, [NaN] or negative: a
    finite number greater than or equal to zero, or [Infinity] when the
    digits of the price stand for a number too large for binary64. *)
Theorem parseTextMenu_items_named_and_priced :
  forall (text menuType : string) (t : nat) (item : MenuItemDraft),
    In item (fst (parseTextMenu clock text menuType t)) ->
    exists s n,
      name item = JStr s /\ s <> ""
      /\ price item = Some n /\ notNegative n.
Proof.
  intros text menuType t item Hin.
  destruct (parseTextMenu_keys clock text menuType t) as [Hkeys _].
  apply (in_map itemKey) in Hin. rewrite Hkeys in Hin.
  destruct (openedItems_in _ _ _ _ _ Hin) as [line [i [tk [_ [Hp [Hne Hkey]]]]]].
  unfold itemKey in Hkey. injection Hkey as Hid Hname Hprice.
  unfold isPriceLine in Hp. unfold linePrice in Hprice.
  destruct (matchPrice (trim line)) as [cap |] eqn:E; [| discriminate Hp].
  destruct (matchPrice_capture _ _ E) as [c [r [-> Hc]]].
  exists (lineName line), (parseFloat (String c r)).
  rewrite Hname, Hprice. repeat split; [exact Hne|].
  now apply parseFloat_digit_first.
Qed.

(** ** Identifiers *)

Lemma containsChar_app : forall c a b,
  containsChar c (a ++ b) = containsChar c a || containsChar c b.
Proof.
  induction a as [| x a IH]; intro b; [reflexivity|].
  simpl. now rewrite IH, orb_assoc.
Qed.

Lemma afterLastUnderscore_app : forall a b,
  containsChar "_" b = true ->
  afterLastUnderscore (a ++ b) = afterLastUnderscore b.
Proof.
  induction a as [| x a IH]; intros b H; [reflexivity|].
  simpl. rewrite containsChar_app, H, orb_true_r. now apply IH.
Qed.

Lemma afterLastUnderscore_last : forall d,
  containsChar "_" d = false -> afterLastUnderscore (String "_" d) = d.
Proof. intros d H. simpl. now rewrite H. Qed.

Lemma afterLastUnderscore_skip : forall x,
  containsChar "_" x = true -> afterLastUnderscore (String "_" x) = afterLastUnderscore x.
Proof. intros x H. simpl. now rewrite H. Qed.

Lemma string_of_uint_no_underscore : forall d,
  containsChar "_" (NilEmpty.string_of_uint d) = false.
Proof. induction d; simpl; auto. Qed.

Lemma string_of_nat_injective : forall a b,
  string_of_nat a = string_of_nat b -> a = b.
Proof.
  intros a b H. unfold string_of_nat in H.
  apply (f_equal NilEmpty.uint_of_string) in H. rewrite !NilEmpty.usu in H.
  inversion H as [Hu]. apply (f_equal Nat.of_uint) in Hu.
  now rewrite !DecimalNat.Unsigned.of_to in Hu.
Qed.

(** The index can be read back from an identifier: it is what follows the
    last underscore. *)
Lemma afterLastUnderscore_makeId : forall menuType kind now index,
  afterLastUnderscore (makeId menuType kind now index) = string_of_nat index.
Proof.
  intros menuType kind now index. unfold makeId.
  pose proof (string_of_uint_no_underscore (Nat.to_uint index)) as Hn.
  fold (string_of_nat index) in Hn.
  change ("_" ++ string_of_nat index) with (String "_" (string_of_nat index)).
  change ("_" ++ string_of_Z now ++ String "_" (string_of_nat index))
    with (String "_" (string_of_Z now ++ String "_" (string_of_nat index))).
  change ("_" ++ kind ++ String "_" (string_of_Z now ++ String "_" (string_of_nat index)))
    with (String "_" (kind ++ String "_" (string_of_Z now
                                             ++ String "_" (string_of_nat index)))).
  assert (H3 : containsChar "_" (String "_" (string_of_nat index)) = true) by reflexivity.
  assert (H2 : containsChar "_" (string_of_Z now ++ String "_" (string_of_nat index)) = true)
    by (rewrite containsChar_app, H3; apply orb_true_r).
  assert (H1 : containsChar "_" (kind ++ String "_" (string_of_Z now
                                   ++ String "_" (string_of_nat index))) = true)
    by (rewrite containsChar_app; simpl; apply orb_true_r).
  rewrite afterLastUnderscore_app by reflexivity.
  rewrite afterLastUnderscore_skip by exact H1.
  rewrite afterLastUnderscore_app by reflexivity.
  rewrite afterLastUnderscore_skip by exact H2.
  rewrite afterLastUnderscore_app by exact H3.
  now apply afterLastUnderscore_last.
Qed.

Lemma NoDup_string_of_nat : forall l, NoDup l -> NoDup (map string_of_nat l).
Proof.
  induction 1 as [| x l Hx Hl IH]; simpl; constructor; [| exact IH].
  intro Hin. apply in_map_iff in Hin. destruct Hin as [y [Hy Hin]].
  apply string_of_nat_injective in Hy. now subst y.
Qed.

Lemma NoDup_ids_of_indices : forall (items : list MenuItemDraft) (indices : list nat),
  map (fun item => afterLastUnderscore (id item)) items = map string_of_nat indices ->
  NoDup indices ->
  NoDup (map id items).
Proof.
  intros items indices H Hnd.
  apply (NoDup_map_inv afterLastUnderscore).
  rewrite map_map, H. now apply NoDup_string_of_nat.
Qed.

Lemma NoDup_map_filter : forall {A B} (f : A -> B) (p : A -> bool) l,
  NoDup (map f l) -> NoDup (map f (filter p l)).
Proof.
  intros A B f p. induction l as [| x l IH]; intro H; [constructor|].
  simpl in *. inversion H as [| ? ? Hx Hl]; subst.
  destruct (p x); [| now apply IH].
  simpl. constructor; [| now apply IH].
  intro Hin. apply Hx. apply in_map_iff in Hin. destruct Hin as [y [Hy Hin]].
  apply filter_In in Hin. apply in_map_iff. exists y. now split.
Qed.

Lemma openedItems_indices : forall menuType lines index t,
  exists indices,
    map (fun key => afterLastUnderscore (fst (fst key)))
        (openedItems clock menuType index t lines)
    = map string_of_nat indices
    /\ NoDup indices
    /\ Forall (fun i => index <= i)%nat indices.
Proof.
  intros menuType lines. induction lines as [| line rest IH]; intros index t.
  - exists []. repeat split; constructor.
  - cbn [openedItems]. destruct (isPriceLine line).
    + destruct (IH (S index) (t + 3)%nat) as [indices [Hmap [Hnd Hge]]].
      destruct (lineName line =? "").
      * exists indices. split; [exact Hmap|]. split; [exact Hnd|].
        eapply Forall_impl; [| exact Hge]. intros; simpl in *; lia.
      * exists (index :: indices). split; [| split].
        -- cbn [app map fst]. now rewrite afterLastUnderscore_makeId, Hmap.
        -- constructor; [| exact Hnd]. intro Hin.
           rewrite Forall_forall in Hge. specialize (Hge _ Hin). lia.
        -- constructor; [lia|]. eapply Forall_impl; [| exact Hge].
           intros; simpl in *; lia.
    + destruct (IH (S index) t) as [indices [Hmap [Hnd Hge]]].
      exists indices. split; [exact Hmap|]. split; [exact Hnd|].
      eapply Forall_impl; [| exact Hge]. intros; simpl in *; lia.
Qed.

Lemma parseTextMenu_ids_distinct : forall text menuType t,
  NoDup (map id (fst (parseTextMenu clock text menuType t))).
Proof.
  intros text menuType t.
  destruct (parseTextMenu_keys clock text menuType t) as [Hkeys _].
  destruct (openedItems_indices menuType (filter nonBlank (split_lines text)) 0 t)
    as [indices [Hmap [Hnd _]]].
  apply (NoDup_ids_of_indices _ indices); [| exact Hnd].
  rewrite <- Hmap, <- Hkeys, map_map. reflexivity.
Qed.

Lemma structuredItem_fields : forall menuType record index t item t',
  structuredItem conv clock menuType record index t = (Ok item, t') ->
  id item = makeId menuType "ocr" (clock t) index
  /\ category item = menuType
  /\ available item = true
  /\ created_at item = clock (t + 1)
  /\ updated_at item = clock (t + 2)
  /\ t' = (t + 3)%nat.
Proof.
  intros menuType record index t item t' H. unfold structuredItem in H.
  match type of H with
  | match ?fields with _ => _ end = _ =>
      destruct fields as [[[[[nm descr] pr] cat] tg] | e]; [| discriminate H]
  end.
  inversion H; subst. repeat split; reflexivity.
Qed.

Lemma forEachStructured_indices : forall menuType l index acc t items caught t',
  forEachStructured conv clock menuType l index acc t = (items, caught, t') ->
  exists drafts,
    items = (acc ++ drafts)%list
    /\ map (fun item => afterLastUnderscore (id item)) drafts
       = map string_of_nat (seq index (List.length drafts)).
Proof.
  intros menuType l. induction l as [| r l IH]; intros index acc t items caught t' H.
  - simpl in H. inversion H; subst. exists []. split; [now rewrite app_nil_r | reflexivity].
  - cbn [forEachStructured] in H.
    destruct (structuredItem conv clock menuType r index t) as [[d | e] t1] eqn:Hd.
    + destruct (structuredItem_fields _ _ _ _ _ _ Hd) as [Hid _].
      destruct (IH _ _ _ _ _ _ H) as [drafts [Hitems Hmap]].
      exists (d :: drafts). split; [rewrite Hitems, <- app_assoc; reflexivity|].
      cbn [map List.length seq]. now rewrite Hid, afterLastUnderscore_makeId, Hmap.
    + inversion H; subst. exists []. split; [now rewrite app_nil_r | reflexivity].
Qed.

(** The drafts the try block leaves come from the empty list, from
    [parseTextMenu], or from the loop over the structured records. *)
Lemma extractDrafts_cases : forall ocrData menuType t,
  fst (fst (extractDrafts conv clock ocrData menuType t)) = []
  \/ (exists text,
        fst (fst (extractDrafts conv clock ocrData menuType t))
        = fst (parseTextMenu clock text menuType t))
  \/ (exists l,
        extractDrafts conv clock ocrData menuType t
        = forEachStructured conv clock menuType l 0 [] t).
Proof.
  intros ocrData menuType t.
  destruct (structuredRecords ocrData) as [| x l] eqn:Hrec.
  - unfold extractDrafts, structuredRecords in *.
    destruct ocrData; cbn [get bind] in *; try (now left);
      match type of Hrec with
      | match ?v with _ => _ end = _ =>
          destruct v as [| | ? | ? | ? | [| y ys] | ?]; try discriminate Hrec
      end;
      match goal with
      | |- context [match ?e with JStr _ => _ | _ => _ end] =>
          destruct e as [| | ? | ? | text | ? | ?]; try (now left)
      end;
      right; left; exists text; destruct (parseTextMenu clock text menuType t);
      reflexivity.
  - right. right. exists (x :: l). now apply extractDrafts_structured.
Qed.

Lemma extractDrafts_ids_distinct : forall ocrData menuType t,
  NoDup (map id (fst (fst (extractDrafts conv clock ocrData menuType t)))).
Proof.
  intros ocrData menuType t.
  destruct (extractDrafts_cases ocrData menuType t) as [H | [[text H] | [l H]]].
  - rewrite H. constructor.
  - rewrite H. apply parseTextMenu_ids_distinct.
  - rewrite H.
    destruct (forEachStructured conv clock menuType l 0 [] t) as [[items caught] t'] eqn:E.
    destruct (forEachStructured_indices _ _ _ _ _ _ _ _ E) as [drafts [Hitems Hmap]].
    simpl in Hitems. subst drafts. simpl.
    apply (NoDup_ids_of_indices _ _ Hmap). apply seq_NoDup.
Qed.

(** X3: the identifiers of the drafts [parseOCRResults] returns are pairwise
    distinct, on the structured path and on the fallback path, whatever the
    clock returns: the index that ends an identifier is different for each
    draft of a batch. *)
Theorem parseOCRResults_ids_distinct :
  forall (ocrData : JsVal) (menuType : string) (t : nat) (out : list MenuItemDraft),
    resultOf (parseOCRResults conv clock ocrData menuType t) = Ok out ->
    NoDup (map id out).
Proof.
  intros ocrData menuType t out H.
  pose proof (extractDrafts_ids_distinct ocrData menuType t) as Hnd.
  unfold parseOCRResults, resultOf in H.
  destruct (extractDrafts conv clock ocrData menuType t) as [[items caught] t'].
  simpl in H, Hnd.
  destruct (filterDrafts_spec conv items out H) as [-> _].
  now apply NoDup_map_filter.
Qed.

(** ** Tags *)

Lemma Subsequence_nil_l : forall {A} (l : list A), Subsequence [] l.
Proof. induction l; constructor; assumption. Qed.

Lemma Subsequence_app : forall {A} (a a' b b' : list A),
  Subsequence a a' -> Subsequence b b' -> Subsequence (a ++ b) (a' ++ b').
Proof.
  intros A a a' b b' Ha Hb. induction Ha; simpl; [exact Hb | |]; constructor; assumption.
Qed.

Lemma Subsequence_in : forall {A} (l1 l2 : list A) x,
  Subsequence l1 l2 -> In x l1 -> In x l2.
Proof.
  intros A l1 l2 x H. induction H; intro Hin.
  - exact Hin.
  - right. now apply IHSubsequence.
  - destruct Hin as [-> | Hin]; [now left | right; now apply IHSubsequence].
Qed.

Lemma Subsequence_NoDup : forall {A} (l1 l2 : list A),
  Subsequence l1 l2 -> NoDup l2 -> NoDup l1.
Proof.
  intros A l1 l2 H. induction H; intro Hnd.
  - constructor.
  - inversion Hnd; subst. now apply IHSubsequence.
  - inversion Hnd as [| ? ? Hx Hl]; subst. constructor; [| now apply IHSubsequence].
    intro Hin. apply Hx. eapply Subsequence_in; eassumption.
Qed.

Lemma Subsequence_tagIf : forall b tag, Subsequence (tagIf b tag) [tag].
Proof.
  intros [|] tag; simpl.
  - apply Subsequence_keep, Subsequence_nil.
  - apply Subsequence_skip, Subsequence_nil.
Qed.

Lemma tagsOfText_vocabulary : forall itemText menuType,
  Subsequence (tagsOfText itemText menuType) tagVocabulary.
Proof.
  intros itemText menuType. unfold tagsOfText.
  change tagVocabulary
    with ((["signature"; "premium"]
           ++ (["reserve"] ++ ["red"] ++ ["white"] ++ ["sparkling"])
           ++ ["featured"] ++ ["limited"])%list).
  repeat apply Subsequence_app; try apply Subsequence_tagIf.
  - destruct (menuType =? "signature_cocktails"); [| apply Subsequence_nil_l].
    apply Subsequence_keep. apply Subsequence_tagIf.
  - destruct (menuType =? "wine_list"); [| apply Subsequence_nil_l].
    repeat apply Subsequence_app; apply Subsequence_tagIf.
Qed.

Lemma determineTags_ok : forall item menuType tags,
  determineTags conv item menuType = Ok tags ->
  exists itemText, tags = tagsOfText itemText menuType.
Proof.
  intros item menuType tags H. unfold determineTags in H.
  destruct (get item "name") as [nm | e]; cbn [bind] in H; [| discriminate H].
  destruct (get item "description") as [d | e]; cbn [bind] in H; [| discriminate H].
  destruct (toStringV conv nm) as [s1 | e]; cbn [bind] in H; [| discriminate H].
  destruct (toStringV conv (or_else d (JStr ""))) as [s2 | e]; cbn [bind] in H;
    [| discriminate H].
  inversion H. eexists. reflexivity.
Qed.

(** X7: the tags [determineTags] returns are the eight fixed tags with some
    left out, in the fixed order: no other tag, and no tag twice. *)
Theorem determineTags_from_vocabulary :
  forall (item : JsVal) (menuType : string) (tags : list string),
    determineTags conv item menuType = Ok tags ->
    Subsequence tags tagVocabulary /\ NoDup tags.
Proof.
  intros item menuType tags H.
  destruct (determineTags_ok item menuType tags H) as [itemText ->].
  pose proof (tagsOfText_vocabulary itemText menuType) as Hsub.
  split; [exact Hsub|].
  apply (Subsequence_NoDup _ _ Hsub).
  unfold tagVocabulary.
  repeat (constructor; [simpl; intuition discriminate|]). constructor.
Qed.

Lemma in_tagIf : forall b tag x, In x (tagIf b tag) -> x = tag.
Proof. intros [|] tag x H; simpl in H; [destruct H as [<- | []]; reflexivity | destruct H]. Qed.

(** X8: the tags of one menu type never leak into another: ["signature"]
    is given exactly when the menu type is [signature_cocktails], ["premium"]
    only then, and ["reserve"], ["red"], ["white"] and ["sparkling"] only when
    the menu type is [wine_list]. *)
Theorem determineTags_by_menu_type :
  forall (item : JsVal) (menuType : string) (tags : list string),
    determineTags conv item menuType = Ok tags ->
    (In "signature" tags <-> menuType = "signature_cocktails")
    /\ (In "premium" tags -> menuType = "signature_cocktails")
    /\ (forall tag, In tag ["reserve"; "red"; "white"; "sparkling"] ->
                    In tag tags -> menuType = "wine_list").
Proof.
  intros item menuType tags H.
  destruct (determineTags_ok item menuType tags H) as [itemText ->].
  unfold tagsOfText.
  destruct (String.eqb_spec menuType "signature_cocktails") as [Hs | Hs];
    destruct (String.eqb_spec menuType "wine_list") as [Hw | Hw];
    try (exfalso; subst menuType; discriminate Hw).
  - split; [split; [intros _; exact Hs | intros _; now left]|].
    split; [intros _; exact Hs|].
    intros tag Htag Hin. exfalso.
    cbn [app] in Hin. destruct Hin as [<- | Hin]; [simpl in Htag; intuition discriminate|].
    repeat (apply in_app_or in Hin; destruct Hin as [Hin | Hin]);
      apply in_tagIf in Hin; subst tag; simpl in Htag; intuition discriminate.
  - split; [split; [| intro; contradiction]|].
    + intro Hin. exfalso. cbn [app] in Hin.
      repeat (apply in_app_or in Hin; destruct Hin as [Hin | Hin]);
        apply in_tagIf in Hin; discriminate Hin.
    + split.
      * intro Hin. exfalso. cbn [app] in Hin.
        repeat (apply in_app_or in Hin; destruct Hin as [Hin | Hin]);
          apply in_tagIf in Hin; discriminate Hin.
      * intros; exact Hw.
  - split; [split; [| intro; contradiction]|].
    + intro Hin. exfalso. cbn [app] in Hin.
      repeat (apply in_app_or in Hin; destruct Hin as [Hin | Hin]);
        apply in_tagIf in Hin; discriminate Hin.
    + split.
      * intro Hin. exfalso. cbn [app] in Hin.
        repeat (apply in_app_or in Hin; destruct Hin as [Hin | Hin]);
          apply in_tagIf in Hin; discriminate Hin.
      * intros tag Htag Hin. exfalso. cbn [app] in Hin.
        repeat (apply in_app_or in Hin; destruct Hin as [Hin | Hin]);
          apply in_tagIf in Hin; subst tag; simpl in Htag; intuition discriminate.
Qed.

(** ** When the parser returns *)

Lemma keepDraft_not_object : forall item,
  isObject (name item) = false -> exists b, keepDraft conv item = Ok b.
Proof.
  intros item H.
  destruct (name item) as [| | b | n | s | l | props] eqn:E; try discriminate H.
  - exists false. unfold keepDraft. now rewrite E.
  - exists false. unfold keepDraft. now rewrite E.
  - exists false. unfold keepDraft. rewrite E. now destruct b.
  - exists false. unfold keepDraft. rewrite E. now destruct (truthy (JNum n)).
  - eexists. apply (keepDraft_string conv item s E).
  - unfold keepDraft. rewrite E. cbn [truthy get bind].
    change ("length" =? "length") with true. cbv iota.
    rewrite greaterThan2_nat. eexists. reflexivity.
Qed.

Lemma filterDrafts_returns : forall items,
  Forall (fun item => exists b, keepDraft conv item = Ok b) items ->
  exists out, filterDrafts conv items = Ok out.
Proof.
  induction 1 as [| item rest [b Hb] _ [out IH]]; simpl.
  - now exists [].
  - rewrite Hb, IH. simpl. eexists. reflexivity.
Qed.

Lemma or_else_not_object : forall a b,
  isObject a = false -> isObject b = false -> isObject (or_else a b) = false.
Proof. intros a b Ha Hb. unfold or_else. now destruct (truthy a). Qed.

(** X9: [parseOCRResults] returns normally on every payload in which no
    structured record has an object as its [name] or [title]; in
    particular on every payload that is handled by the fallback path. *)
Theorem parseOCRResults_returns_without_object_names :
  forall (ocrData : JsVal) (menuType : string) (t : nat),
    (forall record, In record (structuredRecords ocrData) ->
       isObject (field record "name") = false
       /\ isObject (field record "title") = false) ->
    exists out, resultOf (parseOCRResults conv clock ocrData menuType t) = Ok out.
Proof.
  intros ocrData menuType t H.
  unfold parseOCRResults, resultOf.
  destruct (extractDrafts conv clock ocrData menuType t) as [[items caught] t'] eqn:Hex.
  simpl. apply filterDrafts_returns. apply Forall_forall. intros item Hin.
  apply keepDraft_not_object.
  destruct (structuredRecords ocrData) as [| x l] eqn:Hrec.
  - destruct (extractDrafts_fallback conv clock ocrData menuType t item Hrec)
      as [text Htext]; [now rewrite Hex|].
    destruct (parseTextMenu_openedAt clock text menuType t item Htext)
      as [_ [_ [_ [[s [Hs _]] _]]]].
    now rewrite Hs.
  - rewrite (extractDrafts_structured conv clock ocrData menuType t x l Hrec) in Hex.
    destruct (forEachStructured_prefix conv clock _ _ _ _ _ _ _ _ Hex)
      as [done [rest [drafts [Hl [Hitems [Hlen [Hnth _]]]]]]].
    simpl in Hitems. subst drafts.
    apply In_nth_error in Hin. destruct Hin as [j Hj].
    assert (Hjlt : (j < List.length done)%nat)
      by (rewrite <- Hlen; apply nth_error_Some; congruence).
    destruct (nth_error done j) as [record |] eqn:Hr;
      [| apply nth_error_None in Hr; lia].
    destruct (Hnth j record Hr) as [item' [tj [tj' [Hn Hs]]]].
    rewrite Hj in Hn. inversion Hn; subst item'.
    apply structuredItem_name in Hs. rewrite Hs.
    assert (Hin : In record (x :: l)).
    { rewrite Hl. apply in_or_app. left. eapply nth_error_In; exact Hr. }
    destruct (H record Hin) as [Hn1 Hn2].
    apply or_else_not_object; [now apply or_else_not_object | reflexivity].
Qed.

(** X10: when the payload carries structured records, the drafts, the
    events and the clock count of [parseOCRResults] depend on those records
    only: the text fields are not consulted. *)
Theorem parseOCRResults_structured_ignores_text :
  forall (ocrData ocrData' : JsVal) (menuType : string) (t : nat),
    structuredRecords ocrData <> [] ->
    structuredRecords ocrData' = structuredRecords ocrData ->
    parseOCRResults conv clock ocrData' menuType t
    = parseOCRResults conv clock ocrData menuType t.
Proof.
  intros ocrData ocrData' menuType t Hne Hsame.
  destruct (structuredRecords ocrData) as [| x l] eqn:Hrec; [contradiction|].
  unfold parseOCRResults.
  rewrite (extractDrafts_structured conv clock ocrData menuType t x l Hrec).
  rewrite (extractDrafts_structured conv clock ocrData' menuType t x l Hsame).
  reflexivity.
Qed.

Lemma forEachStructured_complete_fields :
  forall menuType l index acc t items t',
    forEachStructured conv clock menuType l index acc t = (items, None, t') ->
    exists drafts,
      items = (acc ++ drafts)%list
      /\ List.length drafts = List.length l
      /\ t' = (t + 3 * List.length l)%nat
      /\ forall j item, nth_error drafts j = Some item ->
           id item = makeId menuType "ocr" (clock (t + 3 * j)) (index + j)
           /\ category item = menuType
           /\ available item = true
           /\ created_at item = clock (t + 3 * j + 1)
           /\ updated_at item = clock (t + 3 * j + 2).
Proof.
  intros menuType l. induction l as [| r l IH]; intros index acc t items t' H.
  - simpl in H. inversion H; subst. exists [].
    split; [now rewrite app_nil_r|]. split; [reflexivity|]. split; [simpl; lia|].
    intros [| j] item Hj; discriminate Hj.
  - cbn [forEachStructured] in H.
    destruct (structuredItem conv clock menuType r index t) as [[d | e] t1] eqn:Hd;
      [| discriminate H].
    destruct (structuredItem_fields _ _ _ _ _ _ Hd) as [Hid [Hc [Ha [Hcr [Hup Ht1]]]]].
    subst t1.
    destruct (IH _ _ _ _ _ H) as [drafts [Hitems [Hlen [Ht' Hnth]]]].
    exists (d :: drafts).
    split; [rewrite Hitems, <- app_assoc; reflexivity|].
    split; [simpl; now rewrite Hlen|]. split; [simpl; lia|].
    intros [| j] item Hj; simpl in Hj.
    + inversion Hj; subst item.
      replace (t + 3 * 0)%nat with t by lia. rewrite Nat.add_0_r.
      repeat split; assumption.
    + destruct (Hnth j item Hj) as [Hid' [Hc' [Ha' [Hcr' Hup']]]].
      replace (t + 3 * S j)%nat with (t + 3 + 3 * j)%nat by lia.
      replace (index + S j)%nat with (S index + j)%nat by lia.
      repeat split; assumption.
Qed.

(** X11: when the loop over the structured records meets no exception, it
    leaves one draft per record, in the order of the records; the draft at
    position [j] has the menu type as its category, [available = true], and
    the identifier made of the menu type, the clock reading taken when the
    record is reached, and [j]; the clock is read three times per record. *)
Theorem structured_drafts_by_position :
  forall (ocrData : JsVal) (menuType : string) (t t' : nat)
         (x : JsVal) (l : list JsVal) (items : list MenuItemDraft),
    structuredRecords ocrData = x :: l ->
    extractDrafts conv clock ocrData menuType t = (items, None, t') ->
    List.length items = List.length (x :: l)
    /\ t' = (t + 3 * List.length (x :: l))%nat
    /\ forall j item, nth_error items j = Some item ->
         id item = makeId menuType "ocr" (clock (t + 3 * j)) j
         /\ category item = menuType
         /\ available item = true
         /\ created_at item = clock (t + 3 * j + 1)
         /\ updated_at item = clock (t + 3 * j + 2).
Proof.
  intros ocrData menuType t t' x l items Hrec Hex.
  rewrite (extractDrafts_structured conv clock ocrData menuType t x l Hrec) in Hex.
  destruct (forEachStructured_complete_fields _ _ _ _ _ _ _ Hex)
    as [drafts [Hitems [Hlen [Ht' Hnth]]]].
  simpl in Hitems. subst drafts.
  split; [exact Hlen|]. split; [exact Ht'|]. exact Hnth.
Qed.

Lemma extractDrafts_item_fields : forall ocrData menuType t item,
  In item (fst (fst (extractDrafts conv clock ocrData menuType t))) ->
  category item = menuType /\ available item = true.
Proof.
  intros ocrData menuType t item Hin.
  destruct (structuredRecords ocrData) as [| x l] eqn:Hrec.
  - destruct (extractDrafts_fallback conv clock ocrData menuType t item Hrec Hin)
      as [text Htext].
    destruct (parseTextMenu_openedAt clock text menuType t item Htext)
      as [Hc [Ha _]].
    now split.
  - rewrite (extractDrafts_structured conv clock ocrData menuType t x l Hrec) in Hin.
    destruct (forEachStructured conv clock menuType (x :: l) 0 [] t)
      as [[items caught] t'] eqn:E.
    destruct (forEachStructured_prefix conv clock _ _ _ _ _ _ _ _ E)
      as [done [rest [drafts [_ [Hitems [Hlen [Hnth _]]]]]]].
    simpl in Hitems, Hin. subst drafts.
    apply In_nth_error in Hin. destruct Hin as [j Hj].
    assert (Hjlt : (j < List.length done)%nat)
      by (rewrite <- Hlen; apply nth_error_Some; congruence).
    destruct (nth_error done j) as [record |] eqn:Hr;
      [| apply nth_error_None in Hr; lia].
    destruct (Hnth j record Hr) as [item' [tj [tj' [Hn Hs]]]].
    rewrite Hj in Hn. inversion Hn; subst item'.
    destruct (structuredItem_fields _ _ _ _ _ _ Hs) as [_ [Hc [Ha _]]].
    now split.
Qed.

(** What holds of the drafts that pass the filter. *)
Lemma filtered_drafts_facts : forall ocrData menuType t items caught t' out,
  extractDrafts conv clock ocrData menuType t = (items, caught, t') ->
  filterDrafts conv items = Ok out ->
  NoDup (map id out)
  /\ Forall (fun item =>
               keepDraft conv item = Ok true
               /\ category item = menuType
               /\ available item = true) out.
Proof.
  intros ocrData menuType t items caught t' out Hex Hf.
  pose proof (extractDrafts_ids_distinct ocrData menuType t) as Hnd.
  pose proof (extractDrafts_item_fields ocrData menuType t) as Hfields.
  rewrite Hex in Hnd, Hfields. simpl in Hnd, Hfields.
  destruct (filterDrafts_spec conv items out Hf) as [-> _].
  split; [now apply NoDup_map_filter|].
  apply Forall_forall. intros item Hin. apply filter_In in Hin.
  destruct Hin as [Hin Hk]. split; [now apply keeps_true|]. now apply Hfields.
Qed.

End ParserProperties.

Section HandlerProperties.

Variable conv : Conversions.
Variable clock : nat -> Z.

(** Splits a run of the handler, given as [H : processHandler ... = out],
    into its possible courses. *)
Ltac handler_cases H :=
  unfold processHandler, processBody, bulkUpsertMenuItems, logMenuUpdate,
    parseOCRResults, alertWebhook, awaitReply, savedArray in H;
  unfold tryCatch, bindE, emit, lift, throwE, ret, now in H;
  repeat (cbv beta iota in H;
          match type of H with
          | context [match ?x with _ => _ end] =>
              lazymatch x with
              | context [match _ with _ => _ end] => fail
              | _ => destruct x eqn:?
              end
          end);
  cbv beta iota in H.

Lemma in_upsertedBatches : forall trace items,
  In (EvUpsert items) trace -> In items (upsertedBatches trace).
Proof.
  induction trace as [| ev trace IH]; intros items H; [destruct H|].
  destruct H as [-> | H]; [now left|].
  destruct ev; simpl; auto.
Qed.

(** X12: in one run of the handler the image is preprocessed at most once,
    the recognition service is called at most once (no retry), at most one
    batch is submitted to the store, at most one audit record is attempted,
    and at most one response is sent. *)
Theorem processHandler_at_most_once :
  forall (w : World) (req : Request) (t : nat),
    let trace := traceOf (processHandler conv clock w req t) in
    (countEvents isPreprocess trace <= 1)%nat
    /\ (countEvents isRecognize trace <= 1)%nat
    /\ (countEvents isUpsert trace <= 1)%nat
    /\ (List.length (auditRecords trace) <= 1)%nat
    /\ (countEvents isRespond trace <= 1)%nat.
Proof.
  intros w req t.
  destruct (processHandler conv clock w req t) as [[tr r] t'] eqn:Hrun.
  handler_cases Hrun; inversion Hrun; subst; cbv zeta; unfold traceOf, countEvents;
    simpl; repeat split; lia.
Qed.

Lemma processHandler_respond_count : forall w req t,
  countEvents isRespond (traceOf (processHandler conv clock w req t))
  = if is_ok (resultOf (processHandler conv clock w req t)) then 1%nat else 0%nat.
Proof.
  intros w req t.
  destruct (processHandler conv clock w req t) as [[tr r] t'] eqn:Hrun.
  handler_cases Hrun; inversion Hrun; subst; reflexivity.
Qed.

(** X13: the handler sends its response exactly when it returns normally:
    one [res.json] in a run that returns, none in a run that throws. *)
Theorem processHandler_responds_iff_returns :
  forall (w : World) (req : Request) (t : nat),
    let out := processHandler conv clock w req t in
    countEvents isRespond (traceOf out) = if is_ok (resultOf out) then 1%nat else 0%nat.
Proof. intros w req t. apply processHandler_respond_count. Qed.

Lemma processHandler_checks : forall w req t,
  let out := processHandler conv clock w req t in
  if validRequest req
  then exists f rest,
         file req = Some f
         /\ traceOf out
            = EvLog "info" "OCR processing started" :: EvPreprocess (originalname f) :: rest
  else exists message,
         out = ([], Throw (AppError message 400), S t)
         /\ message = match file req with
                      | None => "No image file provided"
                      | Some _ => "Invalid or missing menu type"
                      end.
Proof.
  intros w req t. cbv zeta. unfold validRequest.
  destruct (processHandler conv clock w req t) as [[tr r] t'] eqn:Hrun.
  handler_cases Hrun; inversion Hrun; subst;
    repeat match goal with
           | H : file req = _ |- _ => rewrite H
           | H : body_menuType req = _ |- _ => rewrite H
           end;
    try (eexists; split; reflexivity);
    match goal with
    | H : (?m =? "") || negb (lookupTruthy (lookupMenuType ?m)) = _ |- _ =>
        destruct (m =? ""); destruct (lookupTruthy (lookupMenuType m));
        try discriminate H; cbn [negb andb]
    end;
    try (eexists; split; reflexivity);
    unfold traceOf; cbn [fst app]; eexists; eexists; split; reflexivity.
Qed.

(** X14: a request without a file, or whose menu type is missing, empty or
    a text for which [MENU_TYPE_MAPPING] has no truthy property, is refused
    with status 400 after one clock reading, before any collaborator is
    called or anything is logged; a request that passes the two checks is
    logged and handed to the image pipeline first. *)
Theorem processHandler_validation :
  forall (w : World) (req : Request) (t : nat),
    let out := processHandler conv clock w req t in
    (validRequest req = false ->
     exists message,
       out = ([], Throw (AppError message 400), S t)
       /\ message = match file req with
                    | None => "No image file provided"
                    | Some _ => "Invalid or missing menu type"
                    end)
    /\ (validRequest req = true ->
        exists f rest,
          file req = Some f
          /\ traceOf out
             = EvLog "info" "OCR processing started"
               :: EvPreprocess (originalname f) :: rest).
Proof.
  intros w req t. cbv zeta.
  pose proof (processHandler_checks w req t) as H. cbv zeta in H.
  destruct (validRequest req); split; intro Hv; try discriminate Hv; exact H.
Qed.

Lemma processHandler_alert_exists : forall w req t,
  existsb isAlert (traceOf (processHandler conv clock w req t))
  = validRequest req && negb (is_ok (resultOf (processHandler conv clock w req t))).
Proof.
  intros w req t. unfold validRequest.
  destruct (processHandler conv clock w req t) as [[tr r] t'] eqn:Hrun.
  handler_cases Hrun; inversion Hrun; subst;
    repeat match goal with
           | H : file req = _ |- _ => rewrite H
           | H : body_menuType req = _ |- _ => rewrite H
           end;
    try reflexivity;
    match goal with
    | H : (?m =? "") || negb (lookupTruthy (lookupMenuType ?m)) = _ |- _ =>
        destruct (m =? ""); destruct (lookupTruthy (lookupMenuType m));
        try discriminate H
    end;
    unfold traceOf, resultOf; cbn [fst snd app existsb isAlert is_ok negb andb orb];
    rewrite ?existsb_app; cbn [existsb isAlert orb];
    try reflexivity;
    repeat match goal with
           | |- context [match ?o with Some _ => _ | None => _ end] => destruct o
           end;
    reflexivity.
Qed.

(** X15: an alert is sent exactly in the runs that throw after the request
    has passed the checks; a run that returns, or a request that is refused
    with status 400, sends none. *)
Theorem processHandler_alerts_iff_fails :
  forall (w : World) (req : Request) (t : nat),
    let out := processHandler conv clock w req t in
    existsb isAlert (traceOf out) = validRequest req && negb (is_ok (resultOf out)).
Proof. intros w req t. apply processHandler_alert_exists. Qed.

(** X16: whatever the collaborators answer, a batch that reaches the store
    is not empty, its identifiers are pairwise distinct, and each of its
    items has passed the name filter, has the menu type of the request as its
    category and is available. *)
Theorem store_receives_only_filtered_drafts :
  forall (w : World) (req : Request) (t : nat) (items : list MenuItemDraft),
    In (EvUpsert items) (traceOf (processHandler conv clock w req t)) ->
    exists menuType,
      body_menuType req = Some menuType
      /\ items <> []
      /\ NoDup (map id items)
      /\ Forall (fun item =>
                   keepDraft conv item = Ok true
                   /\ category item = menuType
                   /\ available item = true) items.
Proof.
  intros w req t items Hin.
  apply in_upsertedBatches in Hin.
  destruct (processHandler conv clock w req t) as [[tr r] t'] eqn:Hrun.
  unfold traceOf in Hin. cbn [fst] in Hin.
  handler_cases Hrun; inversion Hrun; subst; clear Hrun;
    repeat match type of Hin with
           | context [match ?o with _ => _ end] => destruct o
           end;
    simpl in Hin; try contradiction;
    destruct Hin as [Hin | []]; subst;
    match goal with
    | Hex : extractDrafts _ _ _ ?m _ = (?its, _, _),
      Hf : filterDrafts _ ?its = Ok ?out,
      Hlen : (List.length ?out =? 0)%nat = false |- _ =>
        exists m;
        destruct (filtered_drafts_facts conv clock _ _ _ _ _ _ _ Hex Hf) as [Hnd Hall];
        split; [reflexivity || assumption|]; split;
        [intro; subst; discriminate Hlen | split; assumption]
    end.
Qed.

(** ** The courses of the handler *)

Lemma upsertedBatches_app : forall a b,
  upsertedBatches (a ++ b) = (upsertedBatches a ++ upsertedBatches b)%list.
Proof.
  induction a as [| ev a IH]; intro b; [reflexivity|].
  destruct ev; simpl; now rewrite IH.
Qed.

Lemma auditRecords_app : forall a b,
  auditRecords (a ++ b) = (auditRecords a ++ auditRecords b)%list.
Proof.
  induction a as [| ev a IH]; intro b; [reflexivity|].
  destruct ev; simpl; now rewrite IH.
Qed.

Lemma responses_app : forall a b,
  responses (a ++ b) = (responses a ++ responses b)%list.
Proof.
  induction a as [| ev a IH]; intro b; [reflexivity|].
  destruct ev; simpl; now rewrite IH.
Qed.

(** The parser causes no event but its log line. *)
Lemma parseOCRResults_trace : forall ocrData menuType t,
  upsertedBatches (traceOf (parseOCRResults conv clock ocrData menuType t)) = []
  /\ auditRecords (traceOf (parseOCRResults conv clock ocrData menuType t)) = []
  /\ responses (traceOf (parseOCRResults conv clock ocrData menuType t)) = []
  /\ filter isAlert (traceOf (parseOCRResults conv clock ocrData menuType t)) = [].
Proof.
  intros ocrData menuType t. unfold parseOCRResults, traceOf.
  destruct (extractDrafts conv clock ocrData menuType t) as [[items [e |]] t'];
    repeat split; reflexivity.
Qed.

(** X17: when the request passes the checks, the image pipeline and the
    recognition service answer, the parser returns at least one draft and the
    store accepts the batch, the handler returns normally; it has submitted
    exactly the drafts that passed the filter, attempted one audit record for
    them, and sent one response, which reports the number of filtered drafts
    as [itemsProcessed], the number of rows the store returned as
    [itemsSaved], and the summaries of those rows; this holds whatever the
    audit insert and the deployment hook answer. *)
Theorem processHandler_success :
  forall (w : World) (f : UploadedFile) (u : User) (menuType : string) (t : nat)
         (image : string) (resp : OcrResponse) (ocrData : JsVal)
         (parsed saved : list MenuItemDraft),
    menuType <> "" ->
    lookupTruthy (lookupMenuType menuType) = true ->
    sharp w f = Ok image ->
    fetchOCR w image = Ok resp ->
    resp_ok resp = true ->
    resp_json resp = Ok ocrData ->
    resultOf (parseOCRResults conv clock ocrData menuType (S t)) = Ok parsed ->
    parsed <> [] ->
    upsert_menu_items (store w) parsed = Resolved (Some saved) None ->
    let out := processHandler conv clock w
                 {| file := Some f; body_menuType := Some menuType; user := u |} t in
    let pt := snd (parseOCRResults conv clock ocrData menuType (S t)) in
    resultOf out = Ok tt
    /\ upsertedBatches (traceOf out) = [parsed]
    /\ auditRecords (traceOf out)
       = [MenuUpdate.mk (userId u) menuType "bulk_update" (List.length parsed)
                        (map id parsed) (clock pt)]
    /\ responses (traceOf out)
       = [Processed true menuType (List.length parsed) (List.length saved)
                    (clock (S pt) - clock t)%Z (map summary saved)
                    ("Successfully processed " ++ string_of_nat (List.length saved)
                     ++ " menu items")].
Proof.
  intros w f u menuType t image resp ocrData parsed saved Hne Hacc Hsharp Hfetch Hok
         Hjson Hparse Hnonempty Hup.
  cbv zeta. apply String.eqb_neq in Hne.
  unfold processHandler. rewrite bindE_now. cbn [file body_menuType user].
  rewrite Hacc, Hne. cbn [orb negb].
  pose proof (parseOCRResults_trace ocrData menuType (S t)) as [Hpu [Hpa [Hpr _]]].
  destruct (parseOCRResults conv clock ocrData menuType (S t)) as [[ptr pres] pt] eqn:Hp.
  unfold resultOf, traceOf in Hparse, Hpu, Hpa, Hpr. cbn [fst snd] in *. subst pres.
  unfold processBody, bulkUpsertMenuItems, logMenuUpdate, alertWebhook, awaitReply,
    savedArray.
  unfold tryCatch, bindE, emit, lift, throwE, ret, now.
  rewrite Hsharp, Hfetch, Hok, Hjson. cbn [negb]. rewrite Hp.
  destruct parsed as [| d ds]; [contradiction|].
  cbn [List.length Nat.eqb]. rewrite Hup.
  destruct (insert_menu_update (store w) _) as [[] [err |] | e];
    destruct (DEPLOY_WEBHOOK_URL w) as [url |];
    try (destruct (url =? ""); [| destruct (fetchDeploy w url)]);
    unfold resultOf, traceOf; cbn [fst snd app];
    rewrite ?upsertedBatches_app, ?auditRecords_app, ?responses_app;
    cbn [upsertedBatches auditRecords responses app];
    rewrite ?upsertedBatches_app, ?auditRecords_app, ?responses_app, Hpu, Hpa, Hpr;
    repeat split; reflexivity.
Qed.

(** X18: when the recognition service answers with a status that is not a
    success, the handler throws the error ["OCR processing failed"] with
    status 500; it has sent two alerts, one in the branch and one in the
    catch block, and has neither read a payload, nor touched the store, nor
    sent a response. *)
Theorem processHandler_recognition_refused :
  forall (w : World) (f : UploadedFile) (u : User) (menuType : string) (t : nat)
         (image : string) (resp : OcrResponse) (errorText : string),
    menuType <> "" ->
    lookupTruthy (lookupMenuType menuType) = true ->
    sharp w f = Ok image ->
    fetchOCR w image = Ok resp ->
    resp_ok resp = false ->
    resp_text resp = Ok errorText ->
    let out := processHandler conv clock w
                 {| file := Some f; body_menuType := Some menuType; user := u |} t in
    resultOf out = Throw (AppError "OCR processing failed" 500)
    /\ countEvents isAlert (traceOf out) = 2%nat
    /\ upsertedBatches (traceOf out) = []
    /\ responses (traceOf out) = [].
Proof.
  intros w f u menuType t image resp errorText Hne Hacc Hsharp Hfetch Hok Htext.
  cbv zeta. apply String.eqb_neq in Hne.
  unfold processHandler. rewrite bindE_now. cbn [file body_menuType user].
  rewrite Hacc, Hne. cbn [orb negb].
  unfold processBody, alertWebhook.
  unfold tryCatch, bindE, emit, lift, throwE, ret, now.
  rewrite Hsharp, Hfetch, Hok, Htext.
  repeat split; reflexivity.
Qed.

(** ** The bulk upsert when the store fails *)

(** X19: when the request passes the checks, the recognition service
    answers with a success status and a payload that is not [null], and the
    parser returns no draft, the handler returns normally after exactly one
    response, the soft failure with [ocrData.text || ''] as extracted text;
    nothing is sent to the store, no audit record is written and no alert is
    sent. *)
Theorem processHandler_no_drafts :
  forall (w : World) (f : UploadedFile) (u : User) (menuType : string) (t : nat)
         (image : string) (resp : OcrResponse) (ocrData text : JsVal),
    menuType <> "" ->
    lookupTruthy (lookupMenuType menuType) = true ->
    sharp w f = Ok image ->
    fetchOCR w image = Ok resp ->
    resp_ok resp = true ->
    resp_json resp = Ok ocrData ->
    get ocrData "text" = Ok text ->
    resultOf (parseOCRResults conv clock ocrData menuType (S t)) = Ok [] ->
    let out := processHandler conv clock w
                 {| file := Some f; body_menuType := Some menuType; user := u |} t in
    resultOf out = Ok tt
    /\ responses (traceOf out)
       = [SoftFailure false "No menu items could be extracted from the image"
                      (or_else text (JStr "")) suggestions]
    /\ upsertedBatches (traceOf out) = []
    /\ auditRecords (traceOf out) = []
    /\ countEvents isAlert (traceOf out) = 0%nat.
Proof.
  intros w f u menuType t image resp ocrData text Hne Hacc Hsharp Hfetch Hok Hjson
         Htext Hparse.
  cbv zeta. apply String.eqb_neq in Hne.
  unfold processHandler. rewrite bindE_now. cbn [file body_menuType user].
  rewrite Hacc, Hne. cbn [orb negb].
  unfold processBody, alertWebhook.
  unfold tryCatch, bindE, emit, lift, throwE, ret, now.
  rewrite Hsharp, Hfetch, Hok, Hjson. cbn [negb].
  destruct (parseOCRResults_trace ocrData menuType (S t)) as (Hu & Ha & Hr & Hal).
  destruct (parseOCRResults conv clock ocrData menuType (S t)) as [[ptr pres] pt] eqn:Hp.
  unfold resultOf in Hparse. unfold traceOf in Hu, Ha, Hr, Hal.
  cbn [fst snd] in Hparse, Hu, Ha, Hr, Hal. subst pres.
  cbn. rewrite Htext. cbn.
  unfold countEvents.
  rewrite responses_app, upsertedBatches_app, auditRecords_app, filter_app.
  rewrite Hu, Ha, Hr, Hal.
  repeat split; reflexivity.
Qed.

(** X20: when the store rejects the upsert or answers it with an error,
    [bulkUpsertMenuItems] logs and throws that same error, and attempts no
    audit record. *)
Theorem bulkUpsert_failure_propagates :
  forall (db : Store) (items : list MenuItemDraft) (userId menuType : string)
         (t : nat) (e : Exn),
    replyError (upsert_menu_items db items) = Some e ->
    bulkUpsertMenuItems clock db items userId menuType t
    = ([EvUpsert items; EvLog "error" "Database error bulk upserting menu items:"],
       Throw e, t).
Proof.
  intros db items userId menuType t e H.
  unfold bulkUpsertMenuItems, tryCatch, bindE, emit, awaitReply, throwE.
  destruct (upsert_menu_items db items) as [data [err |] | e0]; simpl in H;
    inversion H; subst; reflexivity.
Qed.

End HandlerProperties.

Section SurroundingProperties.

Variable conv : Conversions.
Variable clock : nat -> Z.
Variable toISOString : Z -> string.

(** ** The handler under the error middleware *)

Lemma countEvents_app : forall p a b,
  countEvents p (a ++ b) = (countEvents p a + countEvents p b)%nat.
Proof. intros p a b. unfold countEvents. now rewrite filter_app, length_app. Qed.

Lemma errorHandler_returns : forall production method path err t,
  exists trace reply,
    errorHandler clock production method path err t = (trace, Ok reply, S t)
    /\ countEvents isRespond trace = 0%nat
    /\ countEvents isAlert trace = (if (500 <=? reply_status reply)%nat then 1 else 0)%nat
    /\ reply_status reply
       = match statusCodeOf err with
         | Some c => if (c =? 0)%nat then 500%nat else c
         | None => 500%nat
         end
    /\ reply_error reply
       = (if messageOf err =? "" then "Internal Server Error" else messageOf err)
    /\ reply_details reply = negb production.
Proof.
  intros production method path err t.
  unfold errorHandler, bindE, now, emit, alertWebhook, ret.
  destruct (500 <=? match statusCodeOf err with
                    | Some c => if (c =? 0)%nat then 500%nat else c
                    | None => 500%nat
                    end)%nat eqn:E;
    cbn [app]; eexists; eexists; (split; [reflexivity|]);
    cbn [reply_status reply_error reply_details]; rewrite E;
    repeat split; reflexivity.
Qed.

(** X21: a request that reaches the handler under [asyncHandler] and the
    error middleware is answered exactly once and nothing is thrown further:
    either the handler sends its response and the error middleware does not
    run, or the handler sends none and the error middleware answers. *)
Theorem serveProcess_answers_once :
  forall (production : bool) (method path : string) (w : World) (req : Request)
         (t : nat),
    let out := serveProcess conv clock production method path w req t in
    exists reply,
      resultOf out = Ok reply
      /\ match reply with
         | HandlerResponded =>
             is_ok (resultOf (processHandler conv clock w req t)) = true
             /\ countEvents isRespond (traceOf out) = 1%nat
         | ErrorReplied _ =>
             is_ok (resultOf (processHandler conv clock w req t)) = false
             /\ countEvents isRespond (traceOf out) = 0%nat
         | AuthRefused _ _ => False
         end.
Proof.
  intros production method path w req t. cbv zeta.
  pose proof (processHandler_respond_count conv clock w req t) as Hc.
  unfold serveProcess, tryCatch, bindE, ret.
  destruct (processHandler conv clock w req t) as [[tr r] t1].
  unfold traceOf, resultOf in *. cbn [fst snd] in *.
  destruct r as [[] | e]; cbn [is_ok] in *.
  - exists HandlerResponded. split; [reflexivity|]. split; [reflexivity|].
    cbn [fst]. now rewrite app_nil_r.
  - destruct (errorHandler_returns production method path e t1)
      as [tr2 [reply [Heh [Hresp _]]]].
    rewrite Heh. exists (ErrorReplied reply). split; [reflexivity|].
    split; [reflexivity|]. cbn [fst]. rewrite app_nil_r, countEvents_app. lia.
Qed.

(** X22: a request that fails the checks of the handler is answered with
    status 400 and the message of the failed check; the only event is the log
    line of the error middleware: no collaborator is called and no alert is
    sent. *)
Theorem serveProcess_refused_request :
  forall (production : bool) (method path : string) (w : World) (req : Request)
         (t : nat),
    validRequest req = false ->
    exists message,
      serveProcess conv clock production method path w req t
      = ([EvLog "error" "Request error"],
         Ok (ErrorReplied {| reply_status := 400; reply_error := message;
                             reply_details := negb production |}),
         S (S t))
      /\ message = (match file req with
                    | None => "No image file provided"
                    | Some _ => "Invalid or missing menu type"
                    end).
Proof.
  intros production method path w req t H. unfold validRequest in H.
  unfold serveProcess, processHandler, tryCatch.
  unfold bindE at 1. rewrite bindE_now.
  destruct (file req) as [f |]; [| eexists; split; reflexivity].
  destruct (body_menuType req) as [m |]; [| eexists; split; reflexivity].
  destruct (m =? ""); [eexists; split; reflexivity|].
  cbn [negb andb orb] in *. rewrite H. cbn [negb].
  eexists; split; reflexivity.
Qed.

(** X23: when the handler throws, after the checks, an error that carries
    no status code (a [TypeError], an error of a collaborator), the error
    middleware answers with status 500, and at least two alerts have been
    sent for the one failure: one by the handler and one by the error
    middleware. *)
Theorem serveProcess_failure_alerted_twice :
  forall (production : bool) (method path : string) (w : World) (req : Request)
         (t : nat) (e : Exn),
    validRequest req = true ->
    resultOf (processHandler conv clock w req t) = Throw e ->
    statusCodeOf e = None ->
    let out := serveProcess conv clock production method path w req t in
    (exists reply, resultOf out = Ok (ErrorReplied reply) /\ reply_status reply = 500%nat)
    /\ (2 <= countEvents isAlert (traceOf out))%nat.
Proof.
  intros production method path w req t e Hvalid Hthrow Hcode. cbv zeta.
  pose proof (processHandler_alert_exists conv clock w req t) as Ha.
  rewrite Hvalid, Hthrow in Ha. cbn [is_ok negb andb] in Ha.
  unfold serveProcess, tryCatch, bindE, ret.
  destruct (processHandler conv clock w req t) as [[tr r] t1].
  unfold traceOf, resultOf in *. cbn [fst snd] in *. subst r.
  destruct (errorHandler_returns production method path e t1)
    as [tr2 [reply [Heh [_ [Halert [Hstatus _]]]]]].
  rewrite Heh. rewrite Hcode in Hstatus. cbn [fst snd]. split.
  - exists reply. now split.
  - rewrite app_nil_r, countEvents_app, Halert, Hstatus. cbn.
    assert (1 <= countEvents isAlert tr)%nat; [| lia].
    unfold countEvents. apply existsb_exists in Ha. destruct Ha as [ev [Hin Hev]].
    assert (Hf : In ev (filter isAlert tr)) by (apply filter_In; now split).
    destruct (filter isAlert tr); [destruct Hf | simpl; lia].
Qed.

(** ** The authentication middleware *)

Lemma startsWith_split : forall p s,
  startsWith p s = true -> s = p ++ dropChars (String.length p) s.
Proof.
  induction p as [| a p IH]; intros s H; [reflexivity|].
  destruct s as [| b s]; [discriminate H|].
  simpl in H. apply andb_true_iff in H. destruct H as [Hab Hp].
  apply Ascii.eqb_eq in Hab. subst b. simpl. f_equal. now apply IH.
Qed.

Lemma startsWith_append : forall p x, startsWith p (p ++ x) = true.
Proof.
  induction p as [| a p IH]; intro x; [reflexivity|].
  simpl. now rewrite Ascii.eqb_refl, IH.
Qed.

Lemma dropChars_append : forall p x, dropChars (String.length p) (p ++ x) = x.
Proof. induction p as [| a p IH]; intro x; [reflexivity | simpl; apply IH]. Qed.

Lemma authMiddleware_next : forall allowedRoles aw authHeader trace u,
  authMiddleware allowedRoles aw authHeader = (trace, AuthNext u) ->
  exists token sub,
    authHeader = Some ("Bearer " ++ token)
    /\ verify aw token = JwtPayload sub
    /\ findUser aw sub = Resolved (Some u) None
    /\ active u = true
    /\ (allowedRoles = [] \/ In (role u) allowedRoles).
Proof.
  intros allowedRoles aw authHeader trace u H. unfold authMiddleware in H.
  destruct authHeader as [header |]; [| discriminate H].
  destruct (startsWith "Bearer " header) eqn:Hb; cbn [negb] in H; [| discriminate H].
  destruct (verify aw (dropChars 7 header)) as [sub | | | e] eqn:Hv; try discriminate H.
  destruct (findUser aw sub) as [[u' |] [err |] | e] eqn:Hf; try discriminate H.
  destruct (active u') eqn:Hact; cbn [negb] in H; [| discriminate H].
  destruct ((0 <? List.length allowedRoles)%nat
            && negb (existsb (String.eqb (role u')) allowedRoles)) eqn:Hr;
    [discriminate H|].
  inversion H; subst u' trace.
  exists (dropChars 7 header), sub.
  split; [f_equal; exact (startsWith_split "Bearer " header Hb)|].
  split; [exact Hv|]. split; [exact Hf|]. split; [exact Hact|].
  apply andb_false_iff in Hr. destruct Hr as [Hr | Hr].
  - left. destruct allowedRoles; [reflexivity | discriminate Hr].
  - right. apply negb_false_iff, existsb_exists in Hr.
    destruct Hr as [x [Hin Hx]]. apply String.eqb_eq in Hx. now rewrite Hx.
Qed.

(** X24: the middleware lets a request through, with the user it has found,
    exactly when the header is ["Bearer "] followed by a token that verifies,
    the user named by the token's [sub] is found without error and is active,
    and the user's role is among the allowed ones or no role is required. *)
Theorem authMiddleware_grants_iff :
  forall (allowedRoles : list string) (aw : AuthWorld) (authHeader : option string)
         (u : AuthUser),
    snd (authMiddleware allowedRoles aw authHeader) = AuthNext u
    <-> exists token sub,
          authHeader = Some ("Bearer " ++ token)
          /\ verify aw token = JwtPayload sub
          /\ findUser aw sub = Resolved (Some u) None
          /\ active u = true
          /\ (allowedRoles = [] \/ In (role u) allowedRoles).
Proof.
  intros allowedRoles aw authHeader u. split.
  - intro H. destruct (authMiddleware allowedRoles aw authHeader) as [trace r] eqn:E.
    simpl in H. subst r. exact (authMiddleware_next _ _ _ _ _ E).
  - intros [token [sub [-> [Hv [Hf [Hact Hrole]]]]]]. unfold authMiddleware.
    rewrite (startsWith_append "Bearer " token). cbn [negb].
    change 7%nat with (String.length "Bearer ").
    rewrite (dropChars_append "Bearer " token), Hv, Hf, Hact. cbn [negb].
    assert (Hr : (0 <? List.length allowedRoles)%nat
                 && negb (existsb (String.eqb (role u)) allowedRoles) = false).
    { destruct Hrole as [-> | Hin]; [reflexivity|].
      apply andb_false_iff. right. apply negb_false_iff, existsb_exists.
      exists (role u). split; [exact Hin | apply String.eqb_refl]. }
    rewrite Hr. reflexivity.
Qed.

(** X25: the middleware refuses with status 401, 403 or 500 only, and with
    403 only a request whose token verifies and names an active user whose
    role is not among the allowed ones. *)
Theorem authMiddleware_refusals :
  forall (allowedRoles : list string) (aw : AuthWorld) (authHeader : option string)
         (status : nat) (error : string),
    snd (authMiddleware allowedRoles aw authHeader) = AuthDenied status error ->
    (status = 401 \/ status = 403 \/ status = 500)%nat
    /\ (status = 403%nat ->
        exists token sub u,
          authHeader = Some ("Bearer " ++ token)
          /\ verify aw token = JwtPayload sub
          /\ findUser aw sub = Resolved (Some u) None
          /\ active u = true
          /\ ~ In (role u) allowedRoles).
Proof.
  intros allowedRoles aw authHeader status error H. unfold authMiddleware in H.
  destruct authHeader as [header |];
    [| inversion H; split; [now left | discriminate]].
  destruct (startsWith "Bearer " header) eqn:Hb; cbn [negb] in H;
    [| inversion H; split; [now left | discriminate]].
  destruct (verify aw (dropChars 7 header)) as [sub | | | e] eqn:Hv;
    try (inversion H; split; [auto | discriminate]).
  destruct (findUser aw sub) as [[u |] [err |] | e] eqn:Hf;
    try (inversion H; split; [auto | discriminate]).
  destruct (active u) eqn:Hact; cbn [negb] in H;
    [| inversion H; split; [auto | discriminate]].
  destruct ((0 <? List.length allowedRoles)%nat
            && negb (existsb (String.eqb (role u)) allowedRoles)) eqn:Hr;
    [| discriminate H].
  inversion H; subst. split; [auto|]. intros _.
  exists (dropChars 7 header), sub, u.
  split; [f_equal; exact (startsWith_split "Bearer " header Hb)|].
  split; [exact Hv|]. split; [exact Hf|]. split; [exact Hact|].
  apply andb_true_iff in Hr. destruct Hr as [_ Hr]. apply negb_true_iff in Hr.
  intro Hin.
  assert (existsb (String.eqb (role u)) allowedRoles = true) as Hc.
  { apply existsb_exists. exists (role u). split; [exact Hin | apply String.eqb_refl]. }
  congruence.
Qed.

Lemma authMiddleware_trace_logs : forall allowedRoles aw authHeader ev,
  In ev (fst (authMiddleware allowedRoles aw authHeader)) ->
  exists level message, ev = EvLog level message.
Proof.
  intros allowedRoles aw authHeader ev H. unfold authMiddleware in H.
  destruct authHeader as [header |]; [| destruct H].
  destruct (negb (startsWith "Bearer " header)); [destruct H|].
  destruct (verify aw (dropChars 7 header)) as [sub | | | e];
    try (destruct H as [<- | []]; eexists; eexists; reflexivity).
  destruct (findUser aw sub) as [[u |] [err |] | e];
    try (destruct H as [<- | []]; eexists; eexists; reflexivity).
  destruct (negb (active u));
    [destruct H as [<- | []]; eexists; eexists; reflexivity|].
  destruct ((0 <? List.length allowedRoles)%nat
            && negb (existsb (String.eqb (role u)) allowedRoles));
    [destruct H as [<- | []]; eexists; eexists; reflexivity | destruct H].
Qed.

(** X26: on the mounted route, the image pipeline, the recognition service
    and the store are called, and the handler answers, only for a request
    whose bearer token verifies and names an active user with the role
    [boss]. *)
Theorem ocrRoute_requires_boss :
  forall (production : bool) (method path : string) (aw : AuthWorld) (w : World)
         (authHeader : option string) (upload : option UploadedFile)
         (menuType : option string) (t : nat) (ev : Event),
    In ev (traceOf (ocrRoute conv clock production method path aw w authHeader
                      upload menuType t)) ->
    isPreprocess ev || isRecognize ev || isUpsert ev || isRespond ev = true ->
    exists token sub u,
      authHeader = Some ("Bearer " ++ token)
      /\ verify aw token = JwtPayload sub
      /\ findUser aw sub = Resolved (Some u) None
      /\ active u = true
      /\ role u = "boss".
Proof.
  intros production method path aw w authHeader upload menuType t ev Hin Hev.
  unfold ocrRoute in Hin.
  destruct (authMiddleware ["boss"] aw authHeader) as [trace [status error | u]] eqn:E.
  - exfalso. unfold traceOf in Hin. cbn [fst] in Hin.
    destruct (authMiddleware_trace_logs ["boss"] aw authHeader ev) as [l [m ->]];
      [now rewrite E | discriminate Hev].
  - destruct (authMiddleware_next _ _ _ _ _ E)
      as [token [sub [Hh [Hv [Hf [Hact Hrole]]]]]].
    exists token, sub, u. repeat split; try assumption.
    destruct Hrole as [Hnil | [Hb | []]]; [discriminate Hnil | now symmetry].
Qed.

(** X27: [optionalAuth] lets a request without a bearer token through with
    no user and no event; for a request with one it does what the middleware
    does with no role required, so it never answers 403. *)
Theorem optionalAuth_cases :
  forall (aw : AuthWorld) (authHeader : option string),
    (match authHeader with
     | Some header => startsWith "Bearer " header = false
     | None => True
     end ->
     optionalAuth aw authHeader = ([], Anonymous))
    /\ forall status error,
         snd (optionalAuth aw authHeader) = Through (AuthDenied status error) ->
         status <> 403%nat.
Proof.
  intros aw authHeader. split.
  - intro H. unfold optionalAuth. destruct authHeader as [header |]; [| reflexivity].
    now rewrite H.
  - intros status error H. unfold optionalAuth in H.
    destruct authHeader as [header |]; [| discriminate H].
    destruct (startsWith "Bearer " header); [| discriminate H].
    destruct (authMiddleware [] aw (Some header)) as [trace r] eqn:E.
    simpl in H. inversion H; subst r.
    intro Hs. unfold authMiddleware in E.
    destruct (negb (startsWith "Bearer " header)); [inversion E; subst; discriminate|].
    destruct (verify aw (dropChars 7 header)) as [sub | | | e];
      try (inversion E; subst; discriminate).
    destruct (findUser aw sub) as [[u |] [err |] | e];
      try (inversion E; subst; discriminate).
    destruct (negb (active u)); inversion E; subst; discriminate.
Qed.

(** ** Two steps of the administration routes *)

Lemma own_deleteProp_same : forall k props, own (deleteProp k props) k = None.
Proof.
  intros k props. induction props as [| [k' v] rest IH]; [reflexivity|].
  simpl. destruct (String.eqb_spec k' k) as [-> | Hne]; [exact IH|].
  simpl. destruct (String.eqb_spec k' k); [contradiction | exact IH].
Qed.

Lemma own_deleteProp_other : forall k k' props,
  k' <> k -> own (deleteProp k props) k' = own props k'.
Proof.
  intros k k' props Hne. induction props as [| [k0 v] rest IH]; [reflexivity|].
  simpl. destruct (String.eqb_spec k0 k) as [-> | H0].
  - destruct (String.eqb_spec k k'); [congruence | exact IH].
  - simpl. destruct (String.eqb_spec k0 k'); [reflexivity | exact IH].
Qed.

Lemma own_setProp_same : forall k v props, own (setProp k v props) k = Some v.
Proof.
  intros k v props. induction props as [| [k' v'] rest IH].
  - simpl. now rewrite String.eqb_refl.
  - simpl. destruct (String.eqb_spec k' k) as [-> | Hne].
    + simpl. now rewrite String.eqb_refl.
    + simpl. destruct (String.eqb_spec k' k); [contradiction | exact IH].
Qed.

Lemma own_setProp_other : forall k v k' props,
  k' <> k -> own (setProp k v props) k' = own props k'.
Proof.
  intros k v k' props Hne. induction props as [| [k0 v0] rest IH].
  - simpl. destruct (String.eqb_spec k k'); [congruence | reflexivity].
  - simpl. destruct (String.eqb_spec k0 k) as [-> | H0].
    + simpl. destruct (String.eqb_spec k k'); [congruence|].
      now apply own_deleteProp_other.
    + simpl. destruct (String.eqb_spec k0 k'); [reflexivity | exact IH].
Qed.

(** X28: the updates the PUT route sends to the store never carry [id] or
    [created_at], always carry [updated_at] with the date of the request, and
    carry every other property of the body unchanged. *)
Theorem sanitizeUpdates_properties :
  forall (updates : list (string * JsVal)) (t : nat),
    exists out,
      sanitizeUpdates clock toISOString updates t = ([], Ok out, S t)
      /\ own out "id" = None
      /\ own out "created_at" = None
      /\ own out "updated_at" = Some (JStr (toISOString (clock t)))
      /\ forall k, k <> "id" -> k <> "created_at" -> k <> "updated_at" ->
                   own out k = own updates k.
Proof.
  intros updates t. unfold sanitizeUpdates. rewrite bindE_now.
  eexists. split; [reflexivity|].
  split; [rewrite own_setProp_other by discriminate;
          rewrite own_deleteProp_other by discriminate;
          apply own_deleteProp_same|].
  split; [rewrite own_setProp_other by discriminate; apply own_deleteProp_same|].
  split; [apply own_setProp_same|].
  intros k H1 H2 H3.
  rewrite own_setProp_other by assumption.
  rewrite own_deleteProp_other by assumption.
  now apply own_deleteProp_other.
Qed.

Lemma isValidCategory_iff : forall v,
  isValidCategory v = true <-> exists c, v = JStr c /\ In c validCategories.
Proof.
  intro v. split.
  - intro H. destruct v; try discriminate H. cbn [isValidCategory] in H.
    apply existsb_exists in H. destruct H as [x [Hin Hx]].
    apply String.eqb_eq in Hx. subst x. eexists. now split.
  - intros [c [-> Hin]]. cbn [isValidCategory]. apply existsb_exists. exists c.
    split; [exact Hin | apply String.eqb_refl].
Qed.

(** X29: the POST route accepts a new item exactly when its [name] is
    truthy and its [category] is one of the four category strings (a name of
    a property of [Object.prototype] is refused here); otherwise it throws
    status 400 before the clock is read. *)
Theorem prepareNewItem_accepts_iff :
  forall (random : string) (itemData : list (string * JsVal)) (t : nat),
    let out := prepareNewItem conv clock toISOString random itemData t in
    if truthy (propOf itemData "name") && isValidCategory (propOf itemData "category")
    then exists item, out = ([], Ok item, S (S t))
    else exists message, out = ([], Throw (AppError message 400), t).
Proof.
  intros random itemData t. cbv zeta. unfold prepareNewItem.
  destruct (truthy (propOf itemData "name")); cbn [negb andb orb];
    [| eexists; reflexivity].
  destruct (isValidCategory (propOf itemData "category")) eqn:Hc; cbn [negb].
  - apply isValidCategory_iff in Hc. destruct Hc as [c [Hc Hin]]. rewrite Hc.
    cbn [truthy]. destruct c as [| a c]; [simpl in Hin; intuition discriminate|].
    cbn [String.eqb negb]. cbn [toStringV lift].
    unfold bindE, now, ret. cbn. eexists. reflexivity.
  - destruct (truthy (propOf itemData "category")); cbn [negb]; eexists; reflexivity.
Qed.

(** X30: an item the POST route accepts is sent to the store with an
    identifier made by the server from the category, the clock and the random
    suffix, whatever [id] the body carried; [created_at] and [updated_at] are
    the same date; [available] is the body's value unless that is absent or
    [null], and [true] then; every other property is unchanged. *)
Theorem prepareNewItem_properties :
  forall (random : string) (itemData item : list (string * JsVal)) (t : nat),
    resultOf (prepareNewItem conv clock toISOString random itemData t) = Ok item ->
    exists c,
      own itemData "category" = Some (JStr c)
      /\ In c validCategories
      /\ own item "id" = Some (JStr (c ++ "_" ++ string_of_Z (clock t) ++ "_" ++ random))
      /\ own item "created_at" = Some (JStr (toISOString (clock (S t))))
      /\ own item "updated_at" = own item "created_at"
      /\ own item "available"
         = Some (nullish_else (propOf itemData "available") (JBool true))
      /\ forall k, k <> "id" -> k <> "created_at" -> k <> "updated_at" ->
                   k <> "available" -> own item k = own itemData k.
Proof.
  intros random itemData item t H. unfold prepareNewItem in H.
  destruct (truthy (propOf itemData "name")); cbn [negb orb] in H;
    [| discriminate H].
  destruct (truthy (propOf itemData "category")); cbn [negb] in H; [| discriminate H].
  destruct (isValidCategory (propOf itemData "category")) eqn:Hc; cbn [negb] in H;
    [| discriminate H].
  apply isValidCategory_iff in Hc. destruct Hc as [c [Hc Hin]].
  rewrite Hc in H. cbn [toStringV lift] in H.
  unfold bindE, now, ret, resultOf in H. cbn [fst snd app] in H.
  inversion H as [Hitem]. clear H. clear Hitem.
  exists c.
  assert (Hown : own itemData "category" = Some (JStr c)).
  { unfold propOf in Hc. destruct (own itemData "category"); [now subst | discriminate Hc]. }
  split; [exact Hown|]. split; [exact Hin|].
  unfold propOf.
  split; [do 3 (rewrite own_setProp_other by discriminate); apply own_setProp_same|].
  split; [do 2 (rewrite own_setProp_other by discriminate); apply own_setProp_same|].
  split.
  { rewrite (own_setProp_other "available") by discriminate.
    rewrite (own_setProp_same "updated_at").
    rewrite (own_setProp_other "available") by discriminate.
    rewrite (own_setProp_other "updated_at") by discriminate.
    now rewrite !own_setProp_same. }
  split.
  { rewrite (own_setProp_same "available").
    do 3 (rewrite own_setProp_other by discriminate). reflexivity. }
  intros k H1 H2 H3 H4.
  do 4 (rewrite own_setProp_other by assumption). reflexivity.
Qed.

End SurroundingProperties.

(** * The further properties on concrete inputs *)

(** X2 on a line without a price. *)
Lemma parseTextMenu_without_dollar_witness :
  containsChar "$" "House red by the glass" = false
  /\ parseTextMenu tickingClock "House red by the glass" "wine_list" 0 = ([], 0%nat).
Proof.
  split.
  - reflexivity.
  - apply (parseTextMenu_without_dollar tickingClock "House red by the glass"
             "wine_list" 0).
    reflexivity.
Defined.

(** X3 on [namelessThenShortPayload]. *)
Lemma parseOCRResults_ids_distinct_witness :
  resultOf (parseOCRResults decimalConversions tickingClock namelessThenShortPayload
              "wine_list" 0) = Ok [placeholderItem]
  /\ NoDup (map id [placeholderItem]).
Proof.
  split.
  - reflexivity.
  - apply (parseOCRResults_ids_distinct decimalConversions tickingClock
             namelessThenShortPayload "wine_list" 0 [placeholderItem]).
    reflexivity.
Defined.

(** X4 at the item of a price line whose price has 400 digits: the price
    is [Infinity]. *)
Lemma parseTextMenu_items_named_and_priced_witness :
  In vintagePortItem (fst (parseTextMenu tickingClock longPriceLine "wine_list" 0))
  /\ exists s n,
       name vintagePortItem = JStr s /\ s <> ""
       /\ price vintagePortItem = Some n /\ notNegative n.
Proof.
  split.
  - left. vm_compute. reflexivity.
  - apply (parseTextMenu_items_named_and_priced tickingClock longPriceLine "wine_list" 0
             vintagePortItem).
    left. vm_compute. reflexivity.
Defined.

(** X5 on a text with a minus sign. *)
Lemma parsePrice_text_not_negative_witness :
  isNumberValue (JStr "-5 USD") = false
  /\ parsePrice decimalConversions (JStr "-5 USD") = Ok (Some (Finite (5 # 1)))
  /\ notNegative (Finite (5 # 1)).
Proof.
  split; [reflexivity|]. split; [reflexivity|].
  apply (parsePrice_text_not_negative decimalConversions (JStr "-5 USD")
           (Finite (5 # 1))); reflexivity.
Defined.

(** X6 on a thousands separator. *)
Lemma parsePrice_ignores_other_characters_witness :
  isPriceChar "," = false
  /\ parsePrice decimalConversions (JStr ("1" ++ String "," "200"))
     = parsePrice decimalConversions (JStr ("1" ++ "200")).
Proof.
  split.
  - reflexivity.
  - apply (parsePrice_ignores_other_characters decimalConversions "1" "200" ",").
    reflexivity.
Defined.

(** X7 on a wine with three tags. *)
Lemma determineTags_from_vocabulary_witness :
  determineTags decimalConversions reserveRedItem "wine_list"
  = Ok ["reserve"; "red"; "sparkling"]
  /\ (Subsequence ["reserve"; "red"; "sparkling"] tagVocabulary
      /\ NoDup ["reserve"; "red"; "sparkling"]).
Proof.
  split.
  - reflexivity.
  - apply (determineTags_from_vocabulary decimalConversions reserveRedItem "wine_list").
    reflexivity.
Defined.

(** X8 on the same wine. *)
Lemma determineTags_by_menu_type_witness :
  determineTags decimalConversions reserveRedItem "wine_list"
  = Ok ["reserve"; "red"; "sparkling"]
  /\ ((In "signature" ["reserve"; "red"; "sparkling"]
       <-> "wine_list" = "signature_cocktails")
      /\ (In "premium" ["reserve"; "red"; "sparkling"]
          -> "wine_list" = "signature_cocktails")
      /\ (forall tag, In tag ["reserve"; "red"; "white"; "sparkling"] ->
                      In tag ["reserve"; "red"; "sparkling"] ->
                      "wine_list" = "wine_list")).
Proof.
  split.
  - reflexivity.
  - apply (determineTags_by_menu_type decimalConversions reserveRedItem "wine_list").
    reflexivity.
Defined.

(** X9 on [shortAndLongPayload]. *)
Lemma parseOCRResults_returns_without_object_names_witness :
  (forall record, In record (structuredRecords shortAndLongPayload) ->
     isObject (field record "name") = false
     /\ isObject (field record "title") = false)
  /\ exists out,
       resultOf (parseOCRResults decimalConversions tickingClock shortAndLongPayload
                   "wine_list" 0) = Ok out.
Proof.
  assert (H : forall record, In record (structuredRecords shortAndLongPayload) ->
                isObject (field record "name") = false
                /\ isObject (field record "title") = false).
  { intros record [<- | [<- | []]]; split; reflexivity. }
  split.
  - exact H.
  - exact (parseOCRResults_returns_without_object_names decimalConversions tickingClock
             shortAndLongPayload "wine_list" 0 H).
Defined.

(** X10 on two payloads with the same records and different texts. *)
Lemma parseOCRResults_structured_ignores_text_witness :
  structuredRecords shortAndLongPayload <> []
  /\ structuredRecords sameRecordsOtherText = structuredRecords shortAndLongPayload
  /\ parseOCRResults decimalConversions tickingClock sameRecordsOtherText "wine_list" 0
     = parseOCRResults decimalConversions tickingClock shortAndLongPayload "wine_list" 0.
Proof.
  split; [discriminate|]. split; [reflexivity|].
  apply (parseOCRResults_structured_ignores_text decimalConversions tickingClock
           shortAndLongPayload sameRecordsOtherText "wine_list" 0).
  - discriminate.
  - reflexivity.
Defined.

(** X11 on [namelessThenShortPayload]. *)
Lemma structured_drafts_by_position_witness :
  structuredRecords namelessThenShortPayload = [JObj []; JObj [("name", JStr "ab")]]
  /\ extractDrafts decimalConversions tickingClock namelessThenShortPayload "wine_list" 0
     = ([placeholderItem; shortNameItem], None, 6%nat)
  /\ (List.length [placeholderItem; shortNameItem]
      = List.length [JObj []; JObj [("name", JStr "ab")]]
      /\ 6%nat = (0 + 3 * List.length [JObj []; JObj [("name", JStr "ab")]])%nat
      /\ forall j item, nth_error [placeholderItem; shortNameItem] j = Some item ->
           id item = makeId "wine_list" "ocr" (tickingClock (0 + 3 * j)) j
           /\ category item = "wine_list"
           /\ available item = true
           /\ created_at item = tickingClock (0 + 3 * j + 1)
           /\ updated_at item = tickingClock (0 + 3 * j + 2)).
Proof.
  split; [reflexivity|]. split; [reflexivity|].
  apply (structured_drafts_by_position decimalConversions tickingClock
           namelessThenShortPayload "wine_list" 0 6 (JObj [])
           [JObj [("name", JStr "ab")]] [placeholderItem; shortNameItem]);
    reflexivity.
Defined.

(** X16 on a run that persists one item. *)
Lemma store_receives_only_filtered_drafts_witness :
  In (EvUpsert [servedMerlotItem])
     (traceOf (processHandler decimalConversions tickingClock
                 (worldAnswering shortAndLongPayload)
                 {| file := Some sampleFile; body_menuType := Some "wine_list";
                    user := sampleUser |} 0))
  /\ exists menuType,
       Some "wine_list" = Some menuType
       /\ [servedMerlotItem] <> []
       /\ NoDup (map id [servedMerlotItem])
       /\ Forall (fun item =>
                    keepDraft decimalConversions item = Ok true
                    /\ category item = menuType
                    /\ available item = true) [servedMerlotItem].
Proof.
  split.
  - do 3 right. left. reflexivity.
  - apply (store_receives_only_filtered_drafts decimalConversions tickingClock
             (worldAnswering shortAndLongPayload)
             {| file := Some sampleFile; body_menuType := Some "wine_list";
                user := sampleUser |} 0 [servedMerlotItem]).
    do 3 right. left. reflexivity.
Defined.

(** X17 on the payload of two records, one with a name of two code units:
    one item is persisted and [itemsProcessed] is 1. *)
Lemma processHandler_success_witness :
  "wine_list" <> ""
  /\ lookupTruthy (lookupMenuType "wine_list") = true
  /\ sharp (worldAnswering shortAndLongPayload) sampleFile = Ok "base64"
  /\ fetchOCR (worldAnswering shortAndLongPayload) "base64"
     = Ok (okResponse shortAndLongPayload)
  /\ resp_ok (okResponse shortAndLongPayload) = true
  /\ resp_json (okResponse shortAndLongPayload) = Ok shortAndLongPayload
  /\ resultOf (parseOCRResults decimalConversions tickingClock shortAndLongPayload
                 "wine_list" 1) = Ok [servedMerlotItem]
  /\ [servedMerlotItem] <> []
  /\ upsert_menu_items (store (worldAnswering shortAndLongPayload)) [servedMerlotItem]
     = Resolved (Some [servedMerlotItem]) None
  /\ (let out := processHandler decimalConversions tickingClock
                   (worldAnswering shortAndLongPayload)
                   {| file := Some sampleFile; body_menuType := Some "wine_list";
                      user := sampleUser |} 0 in
      let pt := snd (parseOCRResults decimalConversions tickingClock shortAndLongPayload
                       "wine_list" 1) in
      resultOf out = Ok tt
      /\ upsertedBatches (traceOf out) = [[servedMerlotItem]]
      /\ auditRecords (traceOf out)
         = [MenuUpdate.mk (userId sampleUser) "wine_list" "bulk_update"
                          (List.length [servedMerlotItem])
                          (map id [servedMerlotItem]) (tickingClock pt)]
      /\ responses (traceOf out)
         = [Processed true "wine_list" (List.length [servedMerlotItem])
                      (List.length [servedMerlotItem])
                      (tickingClock (S pt) - tickingClock 0)%Z
                      (map summary [servedMerlotItem])
                      ("Successfully processed "
                       ++ string_of_nat (List.length [servedMerlotItem])
                       ++ " menu items")]).
Proof.
  split; [discriminate|]. split; [reflexivity|]. split; [reflexivity|].
  split; [reflexivity|]. split; [reflexivity|]. split; [reflexivity|].
  split; [reflexivity|]. split; [discriminate|]. split; [reflexivity|].
  apply (processHandler_success decimalConversions tickingClock
           (worldAnswering shortAndLongPayload) sampleFile sampleUser "wine_list" 0
           "base64" (okResponse shortAndLongPayload) shortAndLongPayload
           [servedMerlotItem] [servedMerlotItem]);
    first [discriminate | reflexivity].
Defined.

(** X18 on a recognition service that answers 503. *)
Lemma processHandler_recognition_refused_witness :
  "wine_list" <> ""
  /\ lookupTruthy (lookupMenuType "wine_list") = true
  /\ sharp worldRefusing sampleFile = Ok "base64"
  /\ fetchOCR worldRefusing "base64" = Ok refusingResponse
  /\ resp_ok refusingResponse = false
  /\ resp_text refusingResponse = Ok "unavailable"
  /\ (let out := processHandler decimalConversions tickingClock worldRefusing
                   {| file := Some sampleFile; body_menuType := Some "wine_list";
                      user := sampleUser |} 0 in
      resultOf out = Throw (AppError "OCR processing failed" 500)
      /\ countEvents isAlert (traceOf out) = 2%nat
      /\ upsertedBatches (traceOf out) = []
      /\ responses (traceOf out) = []).
Proof.
  split; [discriminate|]. split; [reflexivity|]. split; [reflexivity|].
  split; [reflexivity|]. split; [reflexivity|]. split; [reflexivity|].
  apply (processHandler_recognition_refused decimalConversions tickingClock
           worldRefusing sampleFile sampleUser "wine_list" 0 "base64" refusingResponse
           "unavailable");
    first [discriminate | reflexivity].
Defined.

(** X19 on a payload whose text has no price line. *)
Lemma processHandler_no_drafts_witness :
  "wine_list" <> ""
  /\ lookupTruthy (lookupMenuType "wine_list") = true
  /\ sharp (worldAnswering (JObj [("text", JStr "nothing to read")])) sampleFile
     = Ok "base64"
  /\ fetchOCR (worldAnswering (JObj [("text", JStr "nothing to read")])) "base64"
     = Ok (okResponse (JObj [("text", JStr "nothing to read")]))
  /\ resp_ok (okResponse (JObj [("text", JStr "nothing to read")])) = true
  /\ resp_json (okResponse (JObj [("text", JStr "nothing to read")]))
     = Ok (JObj [("text", JStr "nothing to read")])
  /\ get (JObj [("text", JStr "nothing to read")]) "text" = Ok (JStr "nothing to read")
  /\ resultOf (parseOCRResults decimalConversions tickingClock
                 (JObj [("text", JStr "nothing to read")]) "wine_list" 1) = Ok []
  /\ (let out := processHandler decimalConversions tickingClock
                   (worldAnswering (JObj [("text", JStr "nothing to read")]))
                   {| file := Some sampleFile; body_menuType := Some "wine_list";
                      user := sampleUser |} 0 in
      resultOf out = Ok tt
      /\ responses (traceOf out)
         = [SoftFailure false "No menu items could be extracted from the image"
                        (or_else (JStr "nothing to read") (JStr "")) suggestions]
      /\ upsertedBatches (traceOf out) = []
      /\ auditRecords (traceOf out) = []
      /\ countEvents isAlert (traceOf out) = 0%nat).
Proof.
  split; [discriminate|]. split; [reflexivity|]. split; [reflexivity|].
  split; [reflexivity|]. split; [reflexivity|]. split; [reflexivity|].
  split; [reflexivity|]. split; [reflexivity|].
  apply (processHandler_no_drafts decimalConversions tickingClock
           (worldAnswering (JObj [("text", JStr "nothing to read")]))
           sampleFile sampleUser "wine_list" 0 "base64"
           (okResponse (JObj [("text", JStr "nothing to read")]))
           (JObj [("text", JStr "nothing to read")]) (JStr "nothing to read"));
    first [discriminate | reflexivity].
Defined.

(** X20 on a store that rejects the upsert. *)
Lemma bulkUpsert_failure_propagates_witness :
  replyError (upsert_menu_items failingStore [merlotItem])
  = Some (ExternalError "fetch failed")
  /\ bulkUpsertMenuItems tickingClock failingStore [merlotItem] "u-1" "wine_list" 7
     = ([EvUpsert [merlotItem];
         EvLog "error" "Database error bulk upserting menu items:"],
        Throw (ExternalError "fetch failed"), 7%nat).
Proof.
  split.
  - reflexivity.
  - apply (bulkUpsert_failure_propagates tickingClock failingStore [merlotItem]
             "u-1" "wine_list" 7 (ExternalError "fetch failed")).
    reflexivity.
Defined.

(** X22 on a request without a file. *)
Lemma serveProcess_refused_request_witness :
  validRequest {| file := None; body_menuType := Some "wine_list"; user := sampleUser |}
  = false
  /\ exists message,
       serveProcess decimalConversions tickingClock true "POST" "/api/ocr/process"
         (worldAnswering JNull)
         {| file := None; body_menuType := Some "wine_list"; user := sampleUser |} 0
       = ([EvLog "error" "Request error"],
          Ok (ErrorReplied {| reply_status := 400; reply_error := message;
                              reply_details := negb true |}),
          2%nat)
       /\ message = (match file {| file := None; body_menuType := Some "wine_list";
                                   user := sampleUser |} with
                     | None => "No image file provided"
                     | Some _ => "Invalid or missing menu type"
                     end).
Proof.
  split.
  - reflexivity.
  - apply (serveProcess_refused_request decimalConversions tickingClock true "POST"
             "/api/ocr/process" (worldAnswering JNull)
             {| file := None; body_menuType := Some "wine_list"; user := sampleUser |} 0).
    reflexivity.
Defined.

(** X23 on a recognition service that answers [null]. *)
Lemma serveProcess_failure_alerted_twice_witness :
  validRequest {| file := Some sampleFile; body_menuType := Some "wine_list";
                  user := sampleUser |} = true
  /\ resultOf (processHandler decimalConversions tickingClock (worldAnswering JNull)
                 {| file := Some sampleFile; body_menuType := Some "wine_list";
                    user := sampleUser |} 0)
     = Throw (TypeError "Cannot read properties of null (reading 'text')")
  /\ statusCodeOf
       (TypeError "Cannot read properties of null (reading 'text')") = None
  /\ (let out := serveProcess decimalConversions tickingClock true "POST"
                   "/api/ocr/process" (worldAnswering JNull)
                   {| file := Some sampleFile; body_menuType := Some "wine_list";
                      user := sampleUser |} 0 in
      (exists reply,
          resultOf out = Ok (ErrorReplied reply) /\ reply_status reply = 500%nat)
      /\ (2 <= countEvents isAlert (traceOf out))%nat).
Proof.
  split; [reflexivity|]. split; [reflexivity|]. split; [reflexivity|].
  apply (serveProcess_failure_alerted_twice decimalConversions tickingClock true "POST"
           "/api/ocr/process" (worldAnswering JNull)
           {| file := Some sampleFile; body_menuType := Some "wine_list";
              user := sampleUser |} 0
           (TypeError "Cannot read properties of null (reading 'text')"));
    reflexivity.
Defined.

(** X25 on a request without the header. *)
Lemma authMiddleware_refusals_witness :
  snd (authMiddleware ["boss"] bossWorld None)
  = AuthDenied 401 "Authorization token required"
  /\ ((401 = 401 \/ 401 = 403 \/ 401 = 500)%nat
      /\ (401%nat = 403%nat ->
          exists token sub u,
            None = Some ("Bearer " ++ token)
            /\ verify bossWorld token = JwtPayload sub
            /\ findUser bossWorld sub = Resolved (Some u) None
            /\ active u = true
            /\ ~ In (role u) ["boss"])).
Proof.
  split.
  - reflexivity.
  - apply (authMiddleware_refusals ["boss"] bossWorld None 401
             "Authorization token required").
    reflexivity.
Defined.

(** X26 on a request of the boss. *)
Lemma ocrRoute_requires_boss_witness :
  In EvRecognize
     (traceOf (ocrRoute decimalConversions tickingClock true "POST" "/api/ocr/process"
                 bossWorld (worldAnswering shortAndLongPayload) (Some "Bearer abc")
                 (Some sampleFile) (Some "wine_list") 0))
  /\ isPreprocess EvRecognize || isRecognize EvRecognize || isUpsert EvRecognize
     || isRespond EvRecognize = true
  /\ exists token sub u,
       Some "Bearer abc" = Some ("Bearer " ++ token)
       /\ verify bossWorld token = JwtPayload sub
       /\ findUser bossWorld sub = Resolved (Some u) None
       /\ active u = true
       /\ role u = "boss".
Proof.
  split; [do 2 right; left; reflexivity|]. split; [reflexivity|].
  apply (ocrRoute_requires_boss decimalConversions tickingClock true "POST"
           "/api/ocr/process" bossWorld (worldAnswering shortAndLongPayload)
           (Some "Bearer abc") (Some sampleFile) (Some "wine_list") 0 EvRecognize).
  - do 2 right. left. reflexivity.
  - reflexivity.
Defined.

(** X30 on a body that chooses its own [id] and is not available. *)
Lemma prepareNewItem_properties_witness :
  resultOf (prepareNewItem decimalConversions tickingClock millisecondsText "k3x9q2m1z"
              newItemBody 0) = Ok preparedItem
  /\ exists c,
       own newItemBody "category" = Some (JStr c)
       /\ In c validCategories
       /\ own preparedItem "id"
          = Some (JStr (c ++ "_" ++ string_of_Z (tickingClock 0) ++ "_" ++ "k3x9q2m1z"))
       /\ own preparedItem "created_at"
          = Some (JStr (millisecondsText (tickingClock 1)))
       /\ own preparedItem "updated_at" = own preparedItem "created_at"
       /\ own preparedItem "available"
          = Some (nullish_else (propOf newItemBody "available") (JBool true))
       /\ forall k, k <> "id" -> k <> "created_at" -> k <> "updated_at" ->
                    k <> "available" -> own preparedItem k = own newItemBody k.
Proof.
  split.
  - reflexivity.
  - apply (prepareNewItem_properties decimalConversions tickingClock millisecondsText
             "k3x9q2m1z" newItemBody preparedItem 0).
    reflexivity.
Defined.
